(** * Everoute datapath manager: endpoint registry, rule registry and the
      POLICY bridge's rule compiler

    A shallow embedding of [pkg/agent/datapath]: the datapath manager
    ([DpManager]) with its endpoint and rule registries, the replay of a
    bridge after a reconnect, the round-info keeper and the POLICY bridge
    with its tier tables.

    Conventions.
    - Go's unsigned integers are [Z] with the wrap-around written out
      ([wrap16], [wrap64]).
    - A Go pointer that may be nil is an [option]; dereferencing [None] is
      the outcome [Panic].
    - [log.Fatalf] is the outcome [Fatal]: the process exits.
    - A Go function returning [(T, error)] returns a [result T]; one that
      returns only [error] returns an [option error] ([None] is [nil]).
    - The model is sequential: one call runs at a time (the code holds
      [flowReplayMutex] for the whole call) and no switch connects or
      disconnects while it runs.
    - Go leaves the order of a [range] over a map unspecified.  The maps
      that the manager ranges over with an early exit ([ManagedVDSMap],
      [BridgeChainMap]) are association lists whose order is the order of
      the visit; the statements hold for every order. *)

From Stdlib Require Import ZArith String Ascii List Lia Bool.
From stdpp Require Import base option list strings gmap.

Local Open Scope string_scope.
Local Open Scope Z_scope.

(** ** Outcomes, results and errors *)

Inductive error : Type :=
| ErrUnknowPolicyTier            (* "unknow policy tier" *)
| ErrFailedGetPolicyTable        (* "failed get policy table" *)
| ErrParseCIDR (s : string)      (* the error of net.ParseCIDR *)
| ErrFailedToParseIP             (* "failed to parse ip address" *)
| ErrUnknownAction               (* "unknown action in rule" *)
| ErrFlowRefused                 (* Table.NewFlow returned an error *)
| ErrFlowInstall                 (* Flow.Next or Flow.SetConntrack returned an error *)
| ErrFlowDelete                  (* ofctrl.DeleteFlow returned an error *)
| ErrBridge (msg : string)       (* an error of a LOCAL, CLS or UPLINK bridge *)
| ErrOldEndpointNotFound         (* "old local endpoint: ... not found" *)
| ErrNewEndpointExists           (* "new local endpoint: ... already exits" *)
| ErrEndpointNotFound (iface : string)
| ErrAddLocalEndpoint (vdsID : string) (cause : error)
| ErrRemoveLocalEndpoint (vdsID : string) (cause : error)
| ErrRuleNotFound (ruleID : string)
| ErrGetExternalIds              (* "failed to get ovsdb externalids" *)
| ErrBadRoundNumber (s : string) (* "bad format of round number" *)
| ErrGetRoundInfo (cause : error)
| ErrReplayLocalEndpoint (cause : error)
| ErrReplayMicroSegment (cause : error).

Inductive result (A : Type) : Type :=
| Ok (a : A)
| Err (e : error).
Arguments Ok {A} a.
Arguments Err {A} e.

Inductive outcome (A : Type) : Type :=
| Done (a : A)   (* the call returns *)
| Fatal          (* log.Fatalf *)
| Panic.         (* nil dereference *)
Arguments Done {A} a.
Arguments Fatal {A}.
Arguments Panic {A}.

Global Instance outcome_ret : MRet outcome := fun _ a => Done a.

Global Instance outcome_bind : MBind outcome := fun _ _ k m =>
  match m with
  | Done a => k a
  | Fatal => Fatal
  | Panic => Panic
  end.

(** ** Fixed-width integers *)

Definition wrap16 (z : Z) : Z := z mod 2 ^ 16.
Definition wrap64 (z : Z) : Z := z mod 2 ^ 64.

(** ** Go's standard library, as far as the datapath uses it *)

Module gostrings.

(** [strings.Contains(s, sub)] for a one-byte [sub]. *)
Fixpoint ContainsByte (c : ascii) (s : string) : bool :=
  match s with
  | EmptyString => false
  | String a rest => if Ascii.eqb a c then true else ContainsByte c rest
  end.

End gostrings.

Module strconv.

Definition digit_of (a : ascii) : option Z :=
  let n := Z.of_N (N_of_ascii a) in
  if (48 <=? n) && (n <=? 57) then Some (n - 48) else None.

(** The digits of [s] folded into [acc]; [None] at the first byte that
    is not a decimal digit. *)
Fixpoint digits (acc : Z) (s : string) : option Z :=
  match s with
  | EmptyString => Some acc
  | String a rest =>
      match digit_of a with
      | Some d => digits (10 * acc + d) rest
      | None => None
      end
  end.

(** [strconv.ParseUint(s, 10, 64)]: a non-empty run of decimal digits
    whose value fits 64 bits; no sign, no underscore.  [None] is a
    syntax or a range error. *)
Definition ParseUint10_64 (s : string) : option Z :=
  match s with
  | EmptyString => None
  | _ =>
      match digits 0 s with
      | Some n => if n <? 2 ^ 64 then Some n else None
      | None => None
      end
  end.

End strconv.

Module net.

(** [net.IP] and [net.IPMask] are byte slices; the nil slice is [[]]. *)
Definition IP := list Z.
Definition IPMask := list Z.

(** The three functions of package [net] that the datapath calls.  Their
    grammar (IPv4, IPv6, zones) is Go's; the datapath is verified for
    every implementation. *)
Class Lib : Type := {
  ParseIP : string -> option IP;               (* [None]: the nil IP *)
  ParseCIDR : string -> option (IP * IPMask);  (* the IP and [ipNet.Mask] *)
  Mask : IP -> IPMask -> IP;                   (* [ip.Mask(mask)] *)
}.

End net.

(** ** Constants of the package *)

Definition HIGH_MATCH_FLOW_PRIORITY : Z := 300.
Definition MID_MATCH_FLOW_PRIORITY : Z := 200.
Definition NORMAL_MATCH_FLOW_PRIORITY : Z := 100.
Definition GLOBAL_DEFAULT_POLICY_FLOW_PRIORITY : Z := 40.
Definition DEFAULT_FLOW_MISS_PRIORITY : Z := 10.
Definition FLOW_MATCH_OFFSET : Z := 3.

Definition LOCAL_TO_POLICY_PORT : Z := 101.
Definition POLICY_TO_LOCAL_PORT : Z := 102.
Definition POLICY_TO_CLS_PORT : Z := 201.
Definition CLS_TO_POLICY_PORT : Z := 202.
Definition CLS_TO_UPLINK_PORT : Z := 301.
Definition UPLINK_TO_CLS_PORT : Z := 302.
Definition LOCAL_GATEWAY_PORT : Z := 10.

Definition POLICY_TIER0 : Z := 50.
Definition POLICY_TIER1 : Z := 100.
Definition POLICY_TIER2 : Z := 150.

Definition POLICY_DIRECTION_OUT : Z := 0.
Definition POLICY_DIRECTION_IN : Z := 1.

Definition IP_BROADCAST_ADDR : string := "255.255.255.255".

Definition PROTOCOL_ARP : Z := 0x0806.
Definition PROTOCOL_IP : Z := 0x0800.

Inductive BridgeKeyword : Type :=
| LOCAL_BRIDGE_KEYWORD
| POLICY_BRIDGE_KEYWORD
| CLS_BRIDGE_KEYWORD
| UPLINK_BRIDGE_KEYWORD.

Definition datapathRestartRound : string := "datapathRestartRound".

Definition INPUT_TABLE : Z := 0.
Definition CT_STATE_TABLE : Z := 1.
Definition DIRECTION_SELECTION_TABLE : Z := 10.
Definition EGRESS_TIER0_TABLE : Z := 20.
Definition EGRESS_TIER1_TABLE : Z := 25.
Definition EGRESS_TIER2_TABLE : Z := 30.
Definition INGRESS_TIER0_TABLE : Z := 50.
Definition INGRESS_TIER1_TABLE : Z := 55.
Definition INGRESS_TIER2_TABLE : Z := 60.
Definition CT_COMMIT_TABLE : Z := 70.
Definition SFC_POLICY_TABLE : Z := 80.
Definition POLICY_FORWARDING_TABLE : Z := 90.

Definition policyConntrackZone : Z := 65520.

(** ** The OpenFlow client library [ofctrl]

    The library is not part of the repository.  The model keeps what the
    datapath relies on: a switch holds tables, a table holds the flows made
    by [NewFlow], a flow is installed when [Next] (or [SetConntrack]) gives
    it its action, and [DeleteFlow] removes a flow by its id.  A table
    handle ([*ofctrl.Table]) is the table's number; the flows of all tables
    of a switch are kept in the switch.  When the library refuses a call is
    its own business: the verdicts are the parameters of [ofctrl.Lib]. *)

Module ofctrl.

Inductive CtFlag : Type := CtNew | CtEst | CtInv | CtTrk.

Record CTStates : Type := {
  ct_set : list CtFlag;     (* SetNew, SetEst, SetInv, SetTrk *)
  ct_unset : list CtFlag;   (* UnsetNew, ... *)
}.

Record NXRegister : Type := {
  RegID : Z;
  Data : Z;
  Range : Z * Z;
}.

Record FlowMatch : Type := {
  Priority : Z;
  InputPort : Z;
  Ethertype : Z;
  IpSa : option net.IP;
  IpSaMask : option net.IP;
  IpDa : option net.IP;
  IpDaMask : option net.IP;
  IpProto : Z;
  TcpSrcPort : Z;
  TcpSrcPortMask : Z;
  TcpDstPort : Z;
  TcpDstPortMask : Z;
  UdpSrcPort : Z;
  UdpSrcPortMask : Z;
  UdpDstPort : Z;
  UdpDstPortMask : Z;
  CtStates : option CTStates;
  Regs : list NXRegister;
}.

(** A match with only its priority set; the other fields have Go's zero
    value. *)
Definition matchPriority (priority : Z) : FlowMatch :=
  {| Priority := priority; InputPort := 0; Ethertype := 0;
     IpSa := None; IpSaMask := None; IpDa := None; IpDaMask := None;
     IpProto := 0;
     TcpSrcPort := 0; TcpSrcPortMask := 0; TcpDstPort := 0; TcpDstPortMask := 0;
     UdpSrcPort := 0; UdpSrcPortMask := 0; UdpDstPort := 0; UdpDstPortMask := 0;
     CtStates := None; Regs := [] |}.

Definition withInputPort (port : Z) (m : FlowMatch) : FlowMatch :=
  {| Priority := Priority m; InputPort := port; Ethertype := Ethertype m;
     IpSa := IpSa m; IpSaMask := IpSaMask m; IpDa := IpDa m; IpDaMask := IpDaMask m;
     IpProto := IpProto m;
     TcpSrcPort := TcpSrcPort m; TcpSrcPortMask := TcpSrcPortMask m;
     TcpDstPort := TcpDstPort m; TcpDstPortMask := TcpDstPortMask m;
     UdpSrcPort := UdpSrcPort m; UdpSrcPortMask := UdpSrcPortMask m;
     UdpDstPort := UdpDstPort m; UdpDstPortMask := UdpDstPortMask m;
     CtStates := CtStates m; Regs := Regs m |}.

Definition withEthertype (eth : Z) (m : FlowMatch) : FlowMatch :=
  {| Priority := Priority m; InputPort := InputPort m; Ethertype := eth;
     IpSa := IpSa m; IpSaMask := IpSaMask m; IpDa := IpDa m; IpDaMask := IpDaMask m;
     IpProto := IpProto m;
     TcpSrcPort := TcpSrcPort m; TcpSrcPortMask := TcpSrcPortMask m;
     TcpDstPort := TcpDstPort m; TcpDstPortMask := TcpDstPortMask m;
     UdpSrcPort := UdpSrcPort m; UdpSrcPortMask := UdpSrcPortMask m;
     UdpDstPort := UdpDstPort m; UdpDstPortMask := UdpDstPortMask m;
     CtStates := CtStates m; Regs := Regs m |}.

Definition withCtStates (st : CTStates) (m : FlowMatch) : FlowMatch :=
  {| Priority := Priority m; InputPort := InputPort m; Ethertype := Ethertype m;
     IpSa := IpSa m; IpSaMask := IpSaMask m; IpDa := IpDa m; IpDaMask := IpDaMask m;
     IpProto := IpProto m;
     TcpSrcPort := TcpSrcPort m; TcpSrcPortMask := TcpSrcPortMask m;
     TcpDstPort := TcpDstPort m; TcpDstPortMask := TcpDstPortMask m;
     UdpSrcPort := UdpSrcPort m; UdpSrcPortMask := UdpSrcPortMask m;
     UdpDstPort := UdpDstPort m; UdpDstPortMask := UdpDstPortMask m;
     CtStates := Some st; Regs := Regs m |}.

Definition withRegs (regs : list NXRegister) (m : FlowMatch) : FlowMatch :=
  {| Priority := Priority m; InputPort := InputPort m; Ethertype := Ethertype m;
     IpSa := IpSa m; IpSaMask := IpSaMask m; IpDa := IpDa m; IpDaMask := IpDaMask m;
     IpProto := IpProto m;
     TcpSrcPort := TcpSrcPort m; TcpSrcPortMask := TcpSrcPortMask m;
     TcpDstPort := TcpDstPort m; TcpDstPortMask := TcpDstPortMask m;
     UdpSrcPort := UdpSrcPort m; UdpSrcPortMask := UdpSrcPortMask m;
     UdpDstPort := UdpDstPort m; UdpDstPortMask := UdpDstPortMask m;
     CtStates := CtStates m; Regs := regs |}.

(** What a flow can be pointed at with [Next]. *)
Inductive FgraphElem : Type :=
| ElemTable (table : Z)    (* a table of the switch *)
| ElemOutput (port : Z)    (* [sw.OutputPort(port)] *)
| ElemDrop.                (* [sw.DropAction()] *)

Inductive FlowAction : Type :=
| ActNext (elem : FgraphElem)
| ActConntrack (commit force : bool) (table : Z) (zone : Z).

Record Flow : Type := {
  Table : Z;                      (* the table the flow was made in *)
  Match : FlowMatch;
  FlowID : Z;
  Action : option FlowAction;     (* [None]: made, not installed *)
}.

Record OFSwitch : Type := {
  Tables : list Z;       (* the tables made by [NewTable] *)
  Flows : list Flow;     (* the flows of all tables *)
  globalFlowID : Z;      (* the id the next flow gets *)
  CookieAllocator : Z;   (* the round the cookie allocator was made for *)
}.

Class Lib : Type := {
  NewFlowRefused : OFSwitch -> Z -> FlowMatch -> bool;
  NextFails : OFSwitch -> Flow -> FgraphElem -> bool;
  SetConntrackFails : OFSwitch -> Flow -> bool -> bool -> Z -> Z -> bool;
  DeleteFlowFails : OFSwitch -> Z -> Z -> Z -> bool;
}.

Definition setCookieAllocator (round : Z) (sw : OFSwitch) : OFSwitch :=
  {| Tables := Tables sw; Flows := Flows sw; globalFlowID := globalFlowID sw;
     CookieAllocator := round |}.

Definition DefaultTable (sw : OFSwitch) : option Z := Some 0.

(** [sw.NewTable(id)]; the datapath drops the error. *)
Definition NewTable (sw : OFSwitch) (id : Z) : OFSwitch * option Z :=
  ({| Tables := if bool_decide (id ∈ Tables sw) then Tables sw else Tables sw ++ [id];
      Flows := Flows sw; globalFlowID := globalFlowID sw;
      CookieAllocator := CookieAllocator sw |},
   Some id).

(** The flow that [NewFlow] makes in table [t] of [sw], and [sw] with it. *)
Definition newFlowOf (sw : OFSwitch) (t : Z) (m : FlowMatch) : Flow :=
  {| Table := t; Match := m; FlowID := globalFlowID sw; Action := None |}.

Definition addFlow (sw : OFSwitch) (flow : Flow) : OFSwitch :=
  {| Tables := Tables sw; Flows := Flows sw ++ [flow];
     globalFlowID := wrap64 (globalFlowID sw + 1);
     CookieAllocator := CookieAllocator sw |}.

(** [table.NewFlow(match)]: a nil table is dereferenced; a refused flow
    leaves the switch as it was; otherwise the flow is made, not yet
    installed, under a fresh id. *)
Definition NewFlow `{!Lib} (sw : OFSwitch) (table : option Z) (m : FlowMatch)
  : outcome (OFSwitch * result Flow) :=
  match table with
  | None => Panic
  | Some t =>
      if NewFlowRefused sw t m then Done (sw, Err ErrFlowRefused)
      else Done (addFlow sw (newFlowOf sw t m), Ok (newFlowOf sw t m))
  end.

Definition setAction (flowID : Z) (a : FlowAction) (f : Flow) : Flow :=
  if bool_decide (FlowID f = flowID)
  then {| Table := Table f; Match := Match f; FlowID := FlowID f; Action := Some a |}
  else f.

Definition install (sw : OFSwitch) (flow : Flow) (a : FlowAction) : OFSwitch :=
  {| Tables := Tables sw; Flows := map (setAction (FlowID flow) a) (Flows sw);
     globalFlowID := globalFlowID sw; CookieAllocator := CookieAllocator sw |}.

(** [flow.Next(elem)]: installs the flow with [elem] as its target. *)
Definition Next `{!Lib} (sw : OFSwitch) (flow : Flow) (elem : FgraphElem)
  : OFSwitch * option error :=
  if NextFails sw flow elem then (sw, Some ErrFlowInstall)
  else (install sw flow (ActNext elem), None).

(** [flow.SetConntrack(action)], with the fields of the action made by
    [NewConntrackAction(commit, force, &table, &zone)]: installs the flow
    with the conntrack action; a call that fails leaves the flow as it
    was. *)
Definition SetConntrack `{!Lib} (sw : OFSwitch) (flow : Flow)
  (commit force : bool) (table zone : Z) : OFSwitch * option error :=
  if SetConntrackFails sw flow commit force table zone then (sw, Some ErrFlowInstall)
  else (install sw flow (ActConntrack commit force table zone), None).

(** [ofctrl.DeleteFlow(table, priority, flowID)]. *)
Definition DeleteFlow `{!Lib} (sw : OFSwitch) (table : option Z) (priority flowID : Z)
  : outcome (OFSwitch * option error) :=
  match table with
  | None => Panic
  | Some t =>
      if DeleteFlowFails sw t priority flowID then Done (sw, Some ErrFlowDelete)
      else
        Done ({| Tables := Tables sw;
                 Flows := filter (fun f => ¬ (Table f = t ∧ FlowID f = flowID)) (Flows sw);
                 globalFlowID := globalFlowID sw;
                 CookieAllocator := CookieAllocator sw |},
              None)
  end.

(** The flows of table [t] that are installed. *)
Definition installed (sw : OFSwitch) (t : Z) : list Flow :=
  filter (fun f => Table f = t ∧ is_Some (Action f)) (Flows sw).

End ofctrl.

(** ** Data model of the datapath *)

Record Endpoint : Type := {
  InterfaceName : string;
  IPAddr : net.IP;
  IPv6Addr : net.IP;
  PortNo : Z;
  MacAddrStr : string;
  VlanID : Z;
  BridgeName : string;
}.

Record EveroutePolicyRule : Type := {
  RuleID : string;
  Priority : Z;
  SrcIPAddr : string;
  DstIPAddr : string;
  IPProtocol : Z;
  SrcPort : Z;
  SrcPortMask : Z;
  DstPort : Z;
  DstPortMask : Z;
  Action : string;
}.

(** [FlowEntry]; the fields [Table], [Priority] and [FlowID] of the source
    carry the prefix [Entry] here. *)
Record FlowEntry : Type := {
  EntryTable : option Z;
  EntryPriority : Z;
  EntryFlowID : Z;
}.

(** [EveroutePolicyRuleEntry]; its first field is [EveroutePolicyRule] in
    the source. *)
Record EveroutePolicyRuleEntry : Type := {
  EntryRule : EveroutePolicyRule;
  Direction : Z;
  Tier : Z;
  RuleFlowMap : gmap string FlowEntry;
}.

Record RoundInfo : Type := {
  previousRoundNum : Z;
  curRoundNum : Z;
}.

#[global] Instance Endpoint_eq_dec : EqDecision Endpoint.
Proof. solve_decision. Defined.

#[global] Instance EveroutePolicyRule_eq_dec : EqDecision EveroutePolicyRule.
Proof. solve_decision. Defined.

#[global] Instance FlowEntry_eq_dec : EqDecision FlowEntry.
Proof. solve_decision. Defined.

(** [RuleIsSame]: [reflect.DeepEqual] of two rule values, all of whose
    fields are strings and integers, is equality of the values. *)
Definition RuleIsSame (r1 r2 : EveroutePolicyRule) : bool :=
  bool_decide (r1 = r2).

(** ** The POLICY bridge *)

Record PolicyBridge : Type := {
  name : string;
  OfSwitch : option ofctrl.OFSwitch;
  inputTable : option Z;
  ctStateTable : option Z;
  directionSelectionTable : option Z;
  egressTier0PolicyTable : option Z;
  egressTier1PolicyTable : option Z;
  egressTier2PolicyTable : option Z;
  ingressTier0PolicyTable : option Z;
  ingressTier1PolicyTable : option Z;
  ingressTier2PolicyTable : option Z;
  ctCommitTable : option Z;
  sfcPolicyTable : option Z;
  policyForwardingTable : option Z;
  isPolicySwitchConnected : bool;
}.

(** [p.OfSwitch = sw], the other fields kept. *)
Definition withOfSwitch (p : PolicyBridge) (sw : option ofctrl.OFSwitch) : PolicyBridge :=
  {| name := name p; OfSwitch := sw;
     inputTable := inputTable p; ctStateTable := ctStateTable p;
     directionSelectionTable := directionSelectionTable p;
     egressTier0PolicyTable := egressTier0PolicyTable p;
     egressTier1PolicyTable := egressTier1PolicyTable p;
     egressTier2PolicyTable := egressTier2PolicyTable p;
     ingressTier0PolicyTable := ingressTier0PolicyTable p;
     ingressTier1PolicyTable := ingressTier1PolicyTable p;
     ingressTier2PolicyTable := ingressTier2PolicyTable p;
     ctCommitTable := ctCommitTable p; sfcPolicyTable := sfcPolicyTable p;
     policyForwardingTable := policyForwardingTable p;
     isPolicySwitchConnected := isPolicySwitchConnected p |}.

Definition NewPolicyBridge (brName : string) : PolicyBridge :=
  {| name := brName ++ "-policy"; OfSwitch := None;
     inputTable := None; ctStateTable := None; directionSelectionTable := None;
     egressTier0PolicyTable := None; egressTier1PolicyTable := None;
     egressTier2PolicyTable := None;
     ingressTier0PolicyTable := None; ingressTier1PolicyTable := None;
     ingressTier2PolicyTable := None;
     ctCommitTable := None; sfcPolicyTable := None; policyForwardingTable := None;
     isPolicySwitchConnected := false |}.

Definition PolicyBridge_SwitchConnected (p : PolicyBridge) (sw : ofctrl.OFSwitch)
  : PolicyBridge :=
  {| name := name p; OfSwitch := Some sw;
     inputTable := inputTable p; ctStateTable := ctStateTable p;
     directionSelectionTable := directionSelectionTable p;
     egressTier0PolicyTable := egressTier0PolicyTable p;
     egressTier1PolicyTable := egressTier1PolicyTable p;
     egressTier2PolicyTable := egressTier2PolicyTable p;
     ingressTier0PolicyTable := ingressTier0PolicyTable p;
     ingressTier1PolicyTable := ingressTier1PolicyTable p;
     ingressTier2PolicyTable := ingressTier2PolicyTable p;
     ctCommitTable := ctCommitTable p; sfcPolicyTable := sfcPolicyTable p;
     policyForwardingTable := policyForwardingTable p;
     isPolicySwitchConnected := true |}.

Definition PolicyBridge_SwitchDisconnected (p : PolicyBridge) : PolicyBridge :=
  {| name := name p; OfSwitch := None;
     inputTable := inputTable p; ctStateTable := ctStateTable p;
     directionSelectionTable := directionSelectionTable p;
     egressTier0PolicyTable := egressTier0PolicyTable p;
     egressTier1PolicyTable := egressTier1PolicyTable p;
     egressTier2PolicyTable := egressTier2PolicyTable p;
     ingressTier0PolicyTable := ingressTier0PolicyTable p;
     ingressTier1PolicyTable := ingressTier1PolicyTable p;
     ingressTier2PolicyTable := ingressTier2PolicyTable p;
     ctCommitTable := ctCommitTable p; sfcPolicyTable := sfcPolicyTable p;
     policyForwardingTable := policyForwardingTable p;
     isPolicySwitchConnected := false |}.

Definition PolicyBridge_IsSwitchConnected (p : PolicyBridge) : bool :=
  isPolicySwitchConnected p.

(** The polling loop of [WaitForSwitchConnection] and of
    [WaitForBridgeConnected]: [n] polls of a status that no one changes
    meanwhile, then [log.Fatalf]. *)
Fixpoint pollConnected (n : nat) (connected : bool) : outcome unit :=
  match n with
  | O => Fatal
  | S n' => if connected then Done tt else pollConnected n' connected
  end.

Definition PolicyBridge_WaitForSwitchConnection (p : PolicyBridge) : outcome unit :=
  pollConnected 20 (isPolicySwitchConnected p).

(** The switch behind the bridge's table handles. *)
Definition switchOf (p : PolicyBridge) : outcome ofctrl.OFSwitch :=
  match OfSwitch p with
  | Some sw => Done sw
  | None => Panic
  end.

(** A table handle used as the target of [Next]. *)
Definition tableElem (table : option Z) : outcome ofctrl.FgraphElem :=
  match table with
  | Some t => Done (ofctrl.ElemTable t)
  | None => Panic
  end.

Definition PolicyBridge_GetTierTable (p : PolicyBridge) (direction tier : Z)
  : result (option Z * option Z) :=
  if bool_decide (direction = POLICY_DIRECTION_OUT) then
    if bool_decide (tier = POLICY_TIER0) then
      Ok (egressTier0PolicyTable p, egressTier1PolicyTable p)
    else if bool_decide (tier = POLICY_TIER1) then
      Ok (egressTier1PolicyTable p, ctCommitTable p)
    else if bool_decide (tier = POLICY_TIER2) then
      Ok (egressTier2PolicyTable p, ctCommitTable p)
    else Err ErrUnknowPolicyTier
  else if bool_decide (direction = POLICY_DIRECTION_IN) then
    if bool_decide (tier = POLICY_TIER0) then
      Ok (ingressTier0PolicyTable p, ingressTier1PolicyTable p)
    else if bool_decide (tier = POLICY_TIER1) then
      Ok (ingressTier1PolicyTable p, ctCommitTable p)
    else if bool_decide (tier = POLICY_TIER2) then
      Ok (ingressTier2PolicyTable p, ctCommitTable p)
    else Err ErrUnknowPolicyTier
  else Ok (None, None).

Definition PolicyBridge_AddLocalEndpoint (p : PolicyBridge) (endpoint : Endpoint)
  : PolicyBridge * option error := (p, None).

Definition PolicyBridge_RemoveLocalEndpoint (p : PolicyBridge) (endpoint : Endpoint)
  : PolicyBridge * option error := (p, None).

Definition PolicyBridge_BridgeInitCNI (p : PolicyBridge) : PolicyBridge := p.

(** ** The other bridges and the switch database

    [localBridge.go], [clsBridge.go] and [uplinkBridge.go] implement the
    interface [Bridge] of the package; the manager only calls them through
    that interface.  The part of the interface that the manager calls is
    the class below; the manager is verified for every implementation. *)

Module Bridge.

Class Interface (B : Type) : Type := {
  BridgeInit : B -> outcome B;
  BridgeInitCNI : B -> outcome B;
  AddLocalEndpoint : B -> Endpoint -> outcome (B * option error);
  RemoveLocalEndpoint : B -> Endpoint -> outcome (B * option error);
  IsSwitchConnected : B -> bool;
  (* [b.OfSwitch.CookieAllocator = cookie.NewAllocator(round)] *)
  SetCookieAllocator : B -> Z -> outcome B;
}.

End Bridge.

(** [ovsdbDriver.OvsDriver], as far as the round-info keeper reads it:
    what [GetExternalIds] returns, [None] when the read fails. *)
Record OvsDriver : Type := {
  GetExternalIds : option (gmap string string);
}.

Section Datapath.

Context {netLib : net.Lib} {ofLib : ofctrl.Lib}.
Context {LocalBridge ClsBridge UplinkBridge : Type}.
Context {localOps : Bridge.Interface LocalBridge}
        {clsOps : Bridge.Interface ClsBridge}
        {uplinkOps : Bridge.Interface UplinkBridge}.

(** [ParseIPAddrMaskString]: the IP and its mask. *)
Definition ParseIPAddrMaskString (ipAddr : string) : result (net.IP * net.IP) :=
  if gostrings.ContainsByte "/"%char ipAddr then
    match net.ParseCIDR ipAddr with
    | None => Err (ErrParseCIDR ipAddr)
    | Some (ipDav, mask) =>
        let ipMask := net.Mask (default [] (net.ParseIP IP_BROADCAST_ADDR)) mask in
        Ok (ipDav, ipMask)
    end
  else
    match net.ParseIP ipAddr with
    | None => Err ErrFailedToParseIP
    | Some ipDa => Ok (ipDa, default [] (net.ParseIP IP_BROADCAST_ADDR))
    end.

(** The block [if addr != "" { ip, mask, err = ParseIPAddrMaskString(addr) }]
    of [AddMicroSegmentRule]: both pointers stay nil for the empty string. *)
Definition parseIfSet (addr : string) : result (option net.IP * option net.IP) :=
  if bool_decide (addr = "") then Ok (None, None)
  else
    match ParseIPAddrMaskString addr with
    | Ok (ip, mask) => Ok (Some ip, Some mask)
    | Err e => Err e
    end.

(** The [ofctrl.FlowMatch] that [AddMicroSegmentRule] builds. *)
Definition ruleMatch (rule : EveroutePolicyRule)
  (ipDa ipDaMask ipSa ipSaMask : option net.IP) : ofctrl.FlowMatch :=
  {| ofctrl.Priority := wrap16 (Priority rule);
     ofctrl.InputPort := 0;
     ofctrl.Ethertype := PROTOCOL_IP;
     ofctrl.IpSa := ipSa; ofctrl.IpSaMask := ipSaMask;
     ofctrl.IpDa := ipDa; ofctrl.IpDaMask := ipDaMask;
     ofctrl.IpProto := IPProtocol rule;
     ofctrl.TcpSrcPort := SrcPort rule; ofctrl.TcpSrcPortMask := SrcPortMask rule;
     ofctrl.TcpDstPort := DstPort rule; ofctrl.TcpDstPortMask := DstPortMask rule;
     ofctrl.UdpSrcPort := SrcPort rule; ofctrl.UdpSrcPortMask := SrcPortMask rule;
     ofctrl.UdpDstPort := DstPort rule; ofctrl.UdpDstPortMask := DstPortMask rule;
     ofctrl.CtStates := None; ofctrl.Regs := [] |}.

(** The tail of [AddMicroSegmentRule]: [ruleFlow.Next(elem)] and the
    [FlowEntry] returned. *)
Definition installRuleFlow (p : PolicyBridge) (sw : ofctrl.OFSwitch)
  (policyTable : option Z) (ruleFlow : ofctrl.Flow) (elem : ofctrl.FgraphElem)
  : PolicyBridge * result FlowEntry :=
  match ofctrl.Next sw ruleFlow elem with
  | (sw', Some e) => (withOfSwitch p (Some sw'), Err e)
  | (sw', None) =>
      (withOfSwitch p (Some sw'),
       Ok {| EntryTable := policyTable;
             EntryPriority := ofctrl.Priority (ofctrl.Match ruleFlow);
             EntryFlowID := ofctrl.FlowID ruleFlow |})
  end.

Definition PolicyBridge_AddMicroSegmentRule (p : PolicyBridge)
  (rule : EveroutePolicyRule) (direction tier : Z)
  : outcome (PolicyBridge * result FlowEntry) :=
  (* make sure switch is connected *)
  _ ← (if PolicyBridge_IsSwitchConnected p then Done tt
       else PolicyBridge_WaitForSwitchConnection p);
  match PolicyBridge_GetTierTable p direction tier with
  | Err _ => Done (p, Err ErrFailedGetPolicyTable)
  | Ok (policyTable, nextTable) =>
      (* Parse dst ip *)
      match parseIfSet (DstIPAddr rule) with
      | Err e => Done (p, Err e)
      | Ok (ipDa, ipDaMask) =>
          (* parse src ip *)
          match parseIfSet (SrcIPAddr rule) with
          | Err e => Done (p, Err e)
          | Ok (ipSa, ipSaMask) =>
              (* Install the rule in policy table *)
              sw ← switchOf p;
              '(sw1, r) ← ofctrl.NewFlow sw policyTable
                            (ruleMatch rule ipDa ipDaMask ipSa ipSaMask);
              match r with
              | Err e => Done (withOfSwitch p (Some sw1), Err e)
              | Ok ruleFlow =>
                  if bool_decide (Action rule = "allow") then
                    elem ← tableElem nextTable;
                    Done (installRuleFlow p sw1 policyTable ruleFlow elem)
                  else if bool_decide (Action rule = "deny") then
                    Done (installRuleFlow p sw1 policyTable ruleFlow ofctrl.ElemDrop)
                  else
                    Done (withOfSwitch p (Some sw1), Err ErrUnknownAction)
              end
          end
      end
  end.

(** *** The static pipeline of the POLICY bridge *)

(** [flow, _ := table.NewFlow(match)]: the error is dropped, so a refused
    flow is a nil flow and its first use a nil dereference. *)
Definition mustNewFlow (sw : ofctrl.OFSwitch) (table : option Z) (m : ofctrl.FlowMatch)
  : outcome (ofctrl.OFSwitch * ofctrl.Flow) :=
  '(sw', r) ← ofctrl.NewFlow sw table m;
  match r with
  | Ok flow => Done (sw', flow)
  | Err _ => Panic
  end.

(** [flow, _ := table.NewFlow(match); err := flow.Next(elem)]. *)
Definition flowTo (sw : ofctrl.OFSwitch) (table : option Z) (m : ofctrl.FlowMatch)
  (target : outcome ofctrl.FgraphElem) : outcome (ofctrl.OFSwitch * option error) :=
  '(sw', flow) ← mustNewFlow sw table m;
  elem ← target;
  Done (ofctrl.Next sw' flow elem).

(** [if err := ...; err != nil { return err }] followed by the rest. *)
Definition orElse (step : outcome (ofctrl.OFSwitch * option error))
  (rest : ofctrl.OFSwitch -> outcome (ofctrl.OFSwitch * option error))
  : outcome (ofctrl.OFSwitch * option error) :=
  '(sw, err) ← step;
  match err with
  | Some e => Done (sw, Some e)
  | None => rest sw
  end.

Definition initDirectionSelectionTable (p : PolicyBridge) (sw : ofctrl.OFSwitch)
  : outcome (ofctrl.OFSwitch * option error) :=
  orElse (flowTo sw (directionSelectionTable p)
            (ofctrl.withInputPort POLICY_TO_LOCAL_PORT
               (ofctrl.matchPriority MID_MATCH_FLOW_PRIORITY))
            (tableElem (egressTier0PolicyTable p))) (fun sw =>
  flowTo sw (directionSelectionTable p)
    (ofctrl.withInputPort POLICY_TO_CLS_PORT
       (ofctrl.matchPriority MID_MATCH_FLOW_PRIORITY))
    (tableElem (ingressTier0PolicyTable p))).

Definition initInputTable (p : PolicyBridge) (sw : ofctrl.OFSwitch)
  : outcome (ofctrl.OFSwitch * option error) :=
  '(sw, inputIPRedirectFlow) ←
    mustNewFlow sw (inputTable p)
      (ofctrl.withEthertype PROTOCOL_IP
         (ofctrl.matchPriority HIGH_MATCH_FLOW_PRIORITY));
  (* [_ = inputIPRedirectFlow.SetConntrack(ctAction)]: the error is dropped *)
  let '(sw, _) := ofctrl.SetConntrack sw inputIPRedirectFlow false false
                    CT_STATE_TABLE policyConntrackZone in
  (* Table 0, from local bridge flow *)
  orElse (flowTo sw (inputTable p)
            (ofctrl.withInputPort POLICY_TO_LOCAL_PORT
               (ofctrl.matchPriority HIGH_MATCH_FLOW_PRIORITY))
            (Done (ofctrl.ElemOutput POLICY_TO_CLS_PORT))) (fun sw =>
  (* Table 0, from cls bridge flow *)
  orElse (flowTo sw (inputTable p)
            (ofctrl.withInputPort POLICY_TO_CLS_PORT
               (ofctrl.matchPriority HIGH_MATCH_FLOW_PRIORITY))
            (Done (ofctrl.ElemOutput POLICY_TO_LOCAL_PORT))) (fun sw =>
  (* Table 0, default flow *)
  flowTo sw (inputTable p) (ofctrl.matchPriority DEFAULT_FLOW_MISS_PRIORITY)
    (Done ofctrl.ElemDrop))).

Definition initCTFlow (p : PolicyBridge) (sw : ofctrl.OFSwitch)
  : outcome (ofctrl.OFSwitch * option error) :=
  (* Table 1, ctState table, est state flow *)
  let ctEstState := {| ofctrl.ct_set := [ofctrl.CtEst]; ofctrl.ct_unset := [ofctrl.CtNew] |} in
  orElse (flowTo sw (ctStateTable p)
            (ofctrl.withCtStates ctEstState
               (ofctrl.matchPriority (MID_MATCH_FLOW_PRIORITY + FLOW_MATCH_OFFSET)))
            (tableElem (ctCommitTable p))) (fun sw =>
  (* Table 1, ctState table, invalid state flow *)
  let ctInvState := {| ofctrl.ct_set := [ofctrl.CtInv; ofctrl.CtTrk]; ofctrl.ct_unset := [] |} in
  orElse (flowTo sw (ctStateTable p)
            (ofctrl.withCtStates ctInvState
               (ofctrl.matchPriority MID_MATCH_FLOW_PRIORITY))
            (Done ofctrl.ElemDrop)) (fun sw =>
  (* Table 1. default flow: its failure is a log.Fatalf *)
  '(sw, err) ← flowTo sw (ctStateTable p)
                 (ofctrl.withEthertype PROTOCOL_IP
                    (ofctrl.matchPriority DEFAULT_FLOW_MISS_PRIORITY))
                 (tableElem (directionSelectionTable p));
  match err with
  | Some _ => Fatal
  | None =>
      (* Table 70 conntrack commit table *)
      let ctTrkState := {| ofctrl.ct_set := [ofctrl.CtNew; ofctrl.CtTrk]; ofctrl.ct_unset := [] |} in
      '(sw, ctCommitFlow) ←
        mustNewFlow sw (ctCommitTable p)
          (ofctrl.withCtStates ctTrkState
             (ofctrl.withEthertype PROTOCOL_IP
                (ofctrl.matchPriority MID_MATCH_FLOW_PRIORITY)));
      (* [_ = ctCommitFlow.SetConntrack(ctCommitAction)]: the error is dropped *)
      let '(sw, _) := ofctrl.SetConntrack sw ctCommitFlow true false
                        SFC_POLICY_TABLE policyConntrackZone in
      flowTo sw (ctCommitTable p) (ofctrl.matchPriority DEFAULT_FLOW_MISS_PRIORITY)
        (tableElem (sfcPolicyTable p))
  end)).

Definition initPolicyTable (p : PolicyBridge) (sw : ofctrl.OFSwitch)
  : outcome (ofctrl.OFSwitch * option error) :=
  let miss := ofctrl.matchPriority DEFAULT_FLOW_MISS_PRIORITY in
  (* egress policy table *)
  orElse (flowTo sw (egressTier0PolicyTable p) miss
            (tableElem (egressTier1PolicyTable p))) (fun sw =>
  orElse (flowTo sw (egressTier1PolicyTable p) miss
            (tableElem (egressTier2PolicyTable p))) (fun sw =>
  orElse (flowTo sw (egressTier2PolicyTable p) miss
            (tableElem (ctCommitTable p))) (fun sw =>
  (* ingress policy table *)
  orElse (flowTo sw (ingressTier0PolicyTable p) miss
            (tableElem (ingressTier1PolicyTable p))) (fun sw =>
  orElse (flowTo sw (ingressTier1PolicyTable p) miss
            (tableElem (ingressTier2PolicyTable p))) (fun sw =>
  orElse (flowTo sw (ingressTier2PolicyTable p) miss
            (tableElem (ctCommitTable p))) (fun sw =>
  (* sfc policy table *)
  flowTo sw (sfcPolicyTable p) miss (tableElem (policyForwardingTable p)))))))).

Definition initPolicyForwardingTable (p : PolicyBridge) (sw : ofctrl.OFSwitch)
  : outcome (ofctrl.OFSwitch * option error) :=
  let reg6 := [{| ofctrl.RegID := 6; ofctrl.Data := 0; ofctrl.Range := (0, 15) |}] in
  orElse (flowTo sw (policyForwardingTable p)
            (ofctrl.withRegs reg6
               (ofctrl.withInputPort POLICY_TO_LOCAL_PORT
                  (ofctrl.matchPriority NORMAL_MATCH_FLOW_PRIORITY)))
            (Done (ofctrl.ElemOutput POLICY_TO_CLS_PORT))) (fun sw =>
  flowTo sw (policyForwardingTable p)
    (ofctrl.withRegs reg6
       (ofctrl.withInputPort POLICY_TO_CLS_PORT
          (ofctrl.matchPriority NORMAL_MATCH_FLOW_PRIORITY)))
    (Done (ofctrl.ElemOutput POLICY_TO_LOCAL_PORT))).

(** [if err := init(...); err != nil { log.Fatalf(...) }]. *)
Definition orFatal (step : outcome (ofctrl.OFSwitch * option error))
  : outcome ofctrl.OFSwitch :=
  '(sw, err) ← step;
  match err with
  | Some _ => Fatal
  | None => Done sw
  end.

(** The twelve table handles that [BridgeInit] stores, on switch [sw]. *)
Definition newTables (p : PolicyBridge) (sw : ofctrl.OFSwitch)
  : ofctrl.OFSwitch * PolicyBridge :=
  let t0 := ofctrl.DefaultTable sw in
  let '(sw, t1) := ofctrl.NewTable sw CT_STATE_TABLE in
  let '(sw, t10) := ofctrl.NewTable sw DIRECTION_SELECTION_TABLE in
  let '(sw, t50) := ofctrl.NewTable sw INGRESS_TIER0_TABLE in
  let '(sw, t55) := ofctrl.NewTable sw INGRESS_TIER1_TABLE in
  let '(sw, t60) := ofctrl.NewTable sw INGRESS_TIER2_TABLE in
  let '(sw, t20) := ofctrl.NewTable sw EGRESS_TIER0_TABLE in
  let '(sw, t25) := ofctrl.NewTable sw EGRESS_TIER1_TABLE in
  let '(sw, t30) := ofctrl.NewTable sw EGRESS_TIER2_TABLE in
  let '(sw, t70) := ofctrl.NewTable sw CT_COMMIT_TABLE in
  let '(sw, t80) := ofctrl.NewTable sw SFC_POLICY_TABLE in
  let '(sw, t90) := ofctrl.NewTable sw POLICY_FORWARDING_TABLE in
  (sw,
   {| name := name p; OfSwitch := OfSwitch p;
      inputTable := t0; ctStateTable := t1; directionSelectionTable := t10;
      egressTier0PolicyTable := t20; egressTier1PolicyTable := t25;
      egressTier2PolicyTable := t30;
      ingressTier0PolicyTable := t50; ingressTier1PolicyTable := t55;
      ingressTier2PolicyTable := t60;
      ctCommitTable := t70; sfcPolicyTable := t80; policyForwardingTable := t90;
      isPolicySwitchConnected := isPolicySwitchConnected p |}).

Definition PolicyBridge_BridgeInit (p : PolicyBridge) : outcome PolicyBridge :=
  sw ← switchOf p;
  let '(sw, p) := newTables p sw in
  sw ← orFatal (initInputTable p sw);
  sw ← orFatal (initCTFlow p sw);
  sw ← orFatal (initDirectionSelectionTable p sw);
  sw ← orFatal (initPolicyTable p sw);
  sw ← orFatal (initPolicyForwardingTable p sw);
  Done (withOfSwitch p (Some sw)).

(** [PolicyBridge] implements the interface too. *)
Definition PolicyBridge_SetCookieAllocator (p : PolicyBridge) (round : Z)
  : outcome PolicyBridge :=
  sw ← switchOf p;
  Done (withOfSwitch p (Some (ofctrl.setCookieAllocator round sw))).

(** ** The datapath manager *)

(** [map[string]Bridge] with its four keys. *)
Record BridgeChain : Type := {
  localBridge : LocalBridge;
  policyBridge : PolicyBridge;
  clsBridge : ClsBridge;
  uplinkBridge : UplinkBridge;
}.

Definition withLocalBridge (c : BridgeChain) (b : LocalBridge) : BridgeChain :=
  {| localBridge := b; policyBridge := policyBridge c;
     clsBridge := clsBridge c; uplinkBridge := uplinkBridge c |}.

Definition withPolicyBridge (c : BridgeChain) (b : PolicyBridge) : BridgeChain :=
  {| localBridge := localBridge c; policyBridge := b;
     clsBridge := clsBridge c; uplinkBridge := uplinkBridge c |}.

Definition withClsBridge (c : BridgeChain) (b : ClsBridge) : BridgeChain :=
  {| localBridge := localBridge c; policyBridge := policyBridge c;
     clsBridge := b; uplinkBridge := uplinkBridge c |}.

Definition withUplinkBridge (c : BridgeChain) (b : UplinkBridge) : BridgeChain :=
  {| localBridge := localBridge c; policyBridge := policyBridge c;
     clsBridge := clsBridge c; uplinkBridge := b |}.

Record DpManager : Type := {
  BridgeChainMap : list (string * BridgeChain);       (* vds to bridge chain *)
  OvsdbDriverMap : gmap string (BridgeKeyword -> OvsDriver);
  ManagedVDSMap : list (string * string);             (* vds to ovsbr-name *)
  InternalIPs : list string;
  localEndpointDB : gmap string Endpoint;
  Rules : gmap string EveroutePolicyRuleEntry;
}.

Definition withBridgeChainMap (dp : DpManager) (m : list (string * BridgeChain))
  : DpManager :=
  {| BridgeChainMap := m; OvsdbDriverMap := OvsdbDriverMap dp;
     ManagedVDSMap := ManagedVDSMap dp; InternalIPs := InternalIPs dp;
     localEndpointDB := localEndpointDB dp; Rules := Rules dp |}.

Definition withLocalEndpointDB (dp : DpManager) (db : gmap string Endpoint)
  : DpManager :=
  {| BridgeChainMap := BridgeChainMap dp; OvsdbDriverMap := OvsdbDriverMap dp;
     ManagedVDSMap := ManagedVDSMap dp; InternalIPs := InternalIPs dp;
     localEndpointDB := db; Rules := Rules dp |}.

Definition withRules (dp : DpManager) (rules : gmap string EveroutePolicyRuleEntry)
  : DpManager :=
  {| BridgeChainMap := BridgeChainMap dp; OvsdbDriverMap := OvsdbDriverMap dp;
     ManagedVDSMap := ManagedVDSMap dp; InternalIPs := InternalIPs dp;
     localEndpointDB := localEndpointDB dp; Rules := rules |}.

(** [m[key]] on a map kept as an association list. *)
Fixpoint mapGet {A : Type} (key : string) (m : list (string * A)) : option A :=
  match m with
  | [] => None
  | (k, v) :: rest => if bool_decide (k = key) then Some v else mapGet key rest
  end.

(** The entry of [key] replaced; the bridges are shared objects, so a call
    on a bridge changes the entry in place. *)
Fixpoint mapSet {A : Type} (key : string) (v : A) (m : list (string * A))
  : list (string * A) :=
  match m with
  | [] => []
  | (k, old) :: rest =>
      if bool_decide (k = key) then (k, v) :: rest else (k, old) :: mapSet key v rest
  end.

(** [datapathManager.BridgeChainMap[vdsID]]; the bridges of an absent VDS
    are nil. *)
Definition chainOf (dp : DpManager) (vdsID : string) : outcome BridgeChain :=
  match mapGet vdsID (BridgeChainMap dp) with
  | Some chain => Done chain
  | None => Panic
  end.

Definition setChain (dp : DpManager) (vdsID : string) (chain : BridgeChain)
  : DpManager :=
  withBridgeChainMap dp (mapSet vdsID chain (BridgeChainMap dp)).

Definition chainConnected (chain : BridgeChain) : bool :=
  Bridge.IsSwitchConnected (localBridge chain)
  && PolicyBridge_IsSwitchConnected (policyBridge chain)
  && Bridge.IsSwitchConnected (clsBridge chain)
  && Bridge.IsSwitchConnected (uplinkBridge chain).

Definition IsBridgesConnected (dp : DpManager) : bool :=
  forallb (fun entry => chainConnected entry.2) (BridgeChainMap dp).

Definition WaitForBridgeConnected (dp : DpManager) : outcome unit :=
  pollConnected 40 (IsBridgesConnected dp).

(** The head of every public operation:
    [if !IsBridgesConnected() { WaitForBridgeConnected() }]. *)
Definition ensureConnected (dp : DpManager) : outcome unit :=
  if IsBridgesConnected dp then Done tt else WaitForBridgeConnected dp.

(** *** Round info *)

Definition getRoundInfo (ovsdbDriver : OvsDriver) : result RoundInfo :=
  match GetExternalIds ovsdbDriver with
  | None => Err ErrGetExternalIds
  | Some externalIds =>
      if bool_decide (size externalIds = 0%nat) then
        Ok {| previousRoundNum := 0; curRoundNum := 1 |}
      else
        match externalIds !! datapathRestartRound with
        | None => Ok {| previousRoundNum := 0; curRoundNum := 1 |}
        | Some roundNum =>
            match strconv.ParseUint10_64 roundNum with
            | None => Err (ErrBadRoundNumber roundNum)
            | Some num =>
                Ok {| previousRoundNum := num; curRoundNum := wrap64 (num + 1) |}
            end
        end
  end.

(** *** Endpoints *)

(** The loop of [AddLocalEndpoint] over [ManagedVDSMap]. *)
Fixpoint addLocalEndpointLoop (dp : DpManager) (endpoint : Endpoint)
  (vdsMap : list (string * string)) : outcome (DpManager * option error) :=
  match vdsMap with
  | [] => Done (dp, None)
  | (vdsID, ovsbrname) :: rest =>
      if bool_decide (ovsbrname = BridgeName endpoint) then
        match localEndpointDB dp !! InterfaceName endpoint with
        | Some ep => Done (dp, None)   (* "Already added local endpoint" *)
        | None =>
            let dp := withLocalEndpointDB dp
                        (<[InterfaceName endpoint := endpoint]> (localEndpointDB dp)) in
            chain ← chainOf dp vdsID;
            '(lb, err) ← Bridge.AddLocalEndpoint (localBridge chain) endpoint;
            let dp := setChain dp vdsID (withLocalBridge chain lb) in
            match err with
            | Some e => Done (dp, Some (ErrAddLocalEndpoint vdsID e))
            | None => Done (dp, None)   (* break *)
            end
        end
      else addLocalEndpointLoop dp endpoint rest
  end.

Definition AddLocalEndpoint (dp : DpManager) (endpoint : Endpoint)
  : outcome (DpManager * option error) :=
  _ ← ensureConnected dp;
  addLocalEndpointLoop dp endpoint (ManagedVDSMap dp).

(** [newEndpoint.IPAddr = learnedIP], a copy of the old endpoint's. *)
Definition withIPAddr (endpoint : Endpoint) (ip : net.IP) : Endpoint :=
  {| InterfaceName := InterfaceName endpoint; IPAddr := ip;
     IPv6Addr := IPv6Addr endpoint; PortNo := PortNo endpoint;
     MacAddrStr := MacAddrStr endpoint; VlanID := VlanID endpoint;
     BridgeName := BridgeName endpoint |}.

(** The loop of [UpdateLocalEndpoint] over [ManagedVDSMap]. *)
Fixpoint updateLocalEndpointLoop (dp : DpManager) (newEndpoint oldEndpoint : Endpoint)
  (vdsMap : list (string * string)) : outcome (DpManager * option error) :=
  match vdsMap with
  | [] => Done (dp, None)
  | (vdsID, ovsbrname) :: rest =>
      if bool_decide (ovsbrname = BridgeName newEndpoint) then
        match localEndpointDB dp !! InterfaceName oldEndpoint with
        | None => Done (dp, Some ErrOldEndpointNotFound)
        | Some ep =>
            let newEndpoint := withIPAddr newEndpoint (IPAddr ep) in
            let dp := withLocalEndpointDB dp
                        (delete (InterfaceName oldEndpoint) (localEndpointDB dp)) in
            chain ← chainOf dp vdsID;
            '(lb, err) ← Bridge.RemoveLocalEndpoint (localBridge chain) oldEndpoint;
            let dp := setChain dp vdsID (withLocalBridge chain lb) in
            match err with
            | Some e => Done (dp, Some (ErrRemoveLocalEndpoint vdsID e))
            | None =>
                match localEndpointDB dp !! InterfaceName newEndpoint with
                | Some newEP => Done (dp, Some ErrNewEndpointExists)
                | None =>
                    let dp := withLocalEndpointDB dp
                                (<[InterfaceName newEndpoint := newEndpoint]>
                                   (localEndpointDB dp)) in
                    chain ← chainOf dp vdsID;
                    '(lb, err) ← Bridge.AddLocalEndpoint (localBridge chain) newEndpoint;
                    let dp := setChain dp vdsID (withLocalBridge chain lb) in
                    match err with
                    | Some e => Done (dp, Some (ErrAddLocalEndpoint vdsID e))
                    | None => Done (dp, None)   (* break *)
                    end
                end
            end
        end
      else updateLocalEndpointLoop dp newEndpoint oldEndpoint rest
  end.

Definition UpdateLocalEndpoint (dp : DpManager) (newEndpoint oldEndpoint : Endpoint)
  : outcome (DpManager * option error) :=
  _ ← ensureConnected dp;
  updateLocalEndpointLoop dp newEndpoint oldEndpoint (ManagedVDSMap dp).

(** The loop of [RemoveLocalEndpoint] over [ManagedVDSMap]. *)
Fixpoint removeLocalEndpointLoop (dp : DpManager) (endpoint cachedEP : Endpoint)
  (vdsMap : list (string * string)) : outcome (DpManager * option error) :=
  match vdsMap with
  | [] => Done (dp, None)
  | (vdsID, ovsbrname) :: rest =>
      if bool_decide (ovsbrname = BridgeName cachedEP) then
        let dp := withLocalEndpointDB dp
                    (delete (InterfaceName endpoint) (localEndpointDB dp)) in
        chain ← chainOf dp vdsID;
        '(lb, err) ← Bridge.RemoveLocalEndpoint (localBridge chain) endpoint;
        let dp := setChain dp vdsID (withLocalBridge chain lb) in
        match err with
        | Some e => Done (dp, Some (ErrRemoveLocalEndpoint vdsID e))
        | None => Done (dp, None)   (* break *)
        end
      else removeLocalEndpointLoop dp endpoint cachedEP rest
  end.

Definition RemoveLocalEndpoint (dp : DpManager) (endpoint : Endpoint)
  : outcome (DpManager * option error) :=
  _ ← ensureConnected dp;
  match localEndpointDB dp !! InterfaceName endpoint with
  | None => Done (dp, Some (ErrEndpointNotFound (InterfaceName endpoint)))
  | Some cachedEP => removeLocalEndpointLoop dp endpoint cachedEP (ManagedVDSMap dp)
  end.

(** *** Rules *)

(** The loop of [AddEveroutePolicyRule] over [BridgeChainMap]: the flow of
    the rule on the POLICY bridge of each VDS, collected in [ruleFlowMap];
    the first error ends the loop. *)
Fixpoint addRuleLoop (rule : EveroutePolicyRule) (direction tier : Z)
  (chains : list (string * BridgeChain)) (ruleFlowMap : gmap string FlowEntry)
  : outcome (list (string * BridgeChain) * result (gmap string FlowEntry)) :=
  match chains with
  | [] => Done ([], Ok ruleFlowMap)
  | (vdsID, bridgeChain) :: rest =>
      '(pb, r) ← PolicyBridge_AddMicroSegmentRule (policyBridge bridgeChain)
                   rule direction tier;
      let bridgeChain := withPolicyBridge bridgeChain pb in
      match r with
      | Err e => Done ((vdsID, bridgeChain) :: rest, Err e)
      | Ok flowEntry =>
          '(rest, r) ← addRuleLoop rule direction tier rest
                         (<[vdsID := flowEntry]> ruleFlowMap);
          Done ((vdsID, bridgeChain) :: rest, r)
      end
  end.

Definition AddEveroutePolicyRule (dp : DpManager) (rule : EveroutePolicyRule)
  (direction tier : Z) : outcome (DpManager * option error) :=
  _ ← ensureConnected dp;
  (* check if we already have the rule *)
  let same :=
    match Rules dp !! RuleID rule with
    | Some entry => RuleIsSame (EntryRule entry) rule
    | None => false
    end in
  if same then Done (dp, None)   (* "Rule already exists" *)
  else
    (* Install policy rule flow to datapath *)
    '(chains, r) ← addRuleLoop rule direction tier (BridgeChainMap dp) ∅;
    let dp := withBridgeChainMap dp chains in
    match r with
    | Err e => Done (dp, Some e)
    | Ok ruleFlowMap =>
        (* save the rule *)
        let pRule := {| EntryRule := rule; Direction := direction; Tier := tier;
                        RuleFlowMap := ruleFlowMap |} in
        Done (withRules dp (<[RuleID rule := pRule]> (Rules dp)), None)
    end.

(** The loop of [RemoveEveroutePolicyRule] over [BridgeChainMap]. *)
Fixpoint removeRuleLoop (rules : gmap string EveroutePolicyRuleEntry)
  (rule : EveroutePolicyRule) (chains : list (string * BridgeChain))
  : outcome (list (string * BridgeChain) * option error) :=
  match chains with
  | [] => Done ([], None)
  | (vdsID, bridgeChain) :: rest =>
      match rules !! RuleID rule with
      | None => Done ((vdsID, bridgeChain) :: rest, Some (ErrRuleNotFound (RuleID rule)))
      | Some pRule =>
          match RuleFlowMap pRule !! vdsID with
          | None => Panic   (* pRule.RuleFlowMap[vdsID] is nil *)
          | Some flowEntry =>
              sw ← switchOf (policyBridge bridgeChain);
              '(sw, err) ← ofctrl.DeleteFlow sw (EntryTable flowEntry)
                             (EntryPriority flowEntry) (EntryFlowID flowEntry);
              let bridgeChain :=
                withPolicyBridge bridgeChain
                  (withOfSwitch (policyBridge bridgeChain) (Some sw)) in
              match err with
              | Some e => Done ((vdsID, bridgeChain) :: rest, Some e)
              | None =>
                  '(rest, err) ← removeRuleLoop rules rule rest;
                  Done ((vdsID, bridgeChain) :: rest, err)
              end
          end
      end
  end.

Definition RemoveEveroutePolicyRule (dp : DpManager) (rule : EveroutePolicyRule)
  : outcome (DpManager * option error) :=
  _ ← ensureConnected dp;
  '(chains, err) ← removeRuleLoop (Rules dp) rule (BridgeChainMap dp);
  let dp := withBridgeChainMap dp chains in
  match err with
  | Some e => Done (dp, Some e)
  | None => Done (withRules dp (delete (RuleID rule) (Rules dp)), None)
  end.

(** *** Replay *)

(** [localEndpointDB.IterBuffered()]: the entries of the registry, in an
    order the library chooses. *)
Definition IterBuffered (db : gmap string Endpoint) : list (string * Endpoint) :=
  map_to_list db.

(** The loop of [ReplayVDSLocalEndpointFlow] over the entries of the
    registry. *)
Fixpoint replayLocalEndpointLoop (dp : DpManager) (vdsID ovsbrname : string)
  (entries : list (string * Endpoint)) : outcome (DpManager * option error) :=
  match entries with
  | [] => Done (dp, None)
  | (_, endpoint) :: rest =>
      if bool_decide (ovsbrname ≠ BridgeName endpoint) then
        replayLocalEndpointLoop dp vdsID ovsbrname rest   (* continue *)
      else
        chain ← chainOf dp vdsID;
        '(lb, err) ← Bridge.AddLocalEndpoint (localBridge chain) endpoint;
        let dp := setChain dp vdsID (withLocalBridge chain lb) in
        match err with
        | Some e => Done (dp, Some (ErrAddLocalEndpoint vdsID e))
        | None => Done (dp, None)   (* break *)
        end
  end.

Definition ReplayVDSLocalEndpointFlow (dp : DpManager) (vdsID : string)
  : outcome (DpManager * option error) :=
  let ovsbrname := default "" (mapGet vdsID (ManagedVDSMap dp)) in
  replayLocalEndpointLoop dp vdsID ovsbrname (IterBuffered (localEndpointDB dp)).

Definition withRuleFlow (entry : EveroutePolicyRuleEntry) (vdsID : string)
  (flowEntry : FlowEntry) : EveroutePolicyRuleEntry :=
  {| EntryRule := EntryRule entry; Direction := Direction entry; Tier := Tier entry;
     RuleFlowMap := <[vdsID := flowEntry]> (RuleFlowMap entry) |}.

(** The loop of [ReplayVDSMicroSegmentFlow] over the entries of [Rules]. *)
Fixpoint replayMicroSegmentLoop (dp : DpManager) (vdsID : string)
  (entries : list (string * EveroutePolicyRuleEntry))
  : outcome (DpManager * option error) :=
  match entries with
  | [] => Done (dp, None)
  | (ruleID, erPolicyRuleEntry) :: rest =>
      chain ← chainOf dp vdsID;
      '(pb, r) ← PolicyBridge_AddMicroSegmentRule (policyBridge chain)
                   (EntryRule erPolicyRuleEntry)
                   (Direction erPolicyRuleEntry) (Tier erPolicyRuleEntry);
      let dp := setChain dp vdsID (withPolicyBridge chain pb) in
      match r with
      | Err e => Done (dp, Some e)
      | Ok flowEntry =>
          (* udpate new policy rule flow to datapath flow cache *)
          let dp := withRules dp
                      (<[ruleID := withRuleFlow erPolicyRuleEntry vdsID flowEntry]>
                         (Rules dp)) in
          replayMicroSegmentLoop dp vdsID rest
      end
  end.

Definition ReplayVDSMicroSegmentFlow (dp : DpManager) (vdsID : string)
  : outcome (DpManager * option error) :=
  replayMicroSegmentLoop dp vdsID (map_to_list (Rules dp)).

(** [replayVDSFlow], the part that is common to the four bridges: the new
    cookie allocator, [BridgeInit] and [BridgeInitCNI] of the bridge. *)
Definition replayBridge (chain : BridgeChain) (bridgeKeyword : BridgeKeyword)
  (round : Z) : outcome BridgeChain :=
  match bridgeKeyword with
  | LOCAL_BRIDGE_KEYWORD =>
      b ← Bridge.SetCookieAllocator (localBridge chain) round;
      b ← Bridge.BridgeInit b;
      b ← Bridge.BridgeInitCNI b;
      Done (withLocalBridge chain b)
  | POLICY_BRIDGE_KEYWORD =>
      b ← PolicyBridge_SetCookieAllocator (policyBridge chain) round;
      b ← PolicyBridge_BridgeInit b;
      Done (withPolicyBridge chain (PolicyBridge_BridgeInitCNI b))
  | CLS_BRIDGE_KEYWORD =>
      b ← Bridge.SetCookieAllocator (clsBridge chain) round;
      b ← Bridge.BridgeInit b;
      b ← Bridge.BridgeInitCNI b;
      Done (withClsBridge chain b)
  | UPLINK_BRIDGE_KEYWORD =>
      b ← Bridge.SetCookieAllocator (uplinkBridge chain) round;
      b ← Bridge.BridgeInit b;
      b ← Bridge.BridgeInitCNI b;
      Done (withUplinkBridge chain b)
  end.

Definition replayVDSFlow (dp : DpManager) (vdsID : string)
  (bridgeKeyword : BridgeKeyword) : outcome (DpManager * option error) :=
  _ ← ensureConnected dp;
  (* replay basic connectivity flow *)
  driver ← match OvsdbDriverMap dp !! vdsID with
           | Some drivers => Done (drivers LOCAL_BRIDGE_KEYWORD)
           | None => Panic
           end;
  match getRoundInfo driver with
  | Err e => Done (dp, Some (ErrGetRoundInfo e))
  | Ok roundInfo =>
      chain ← chainOf dp vdsID;
      chain ← replayBridge chain bridgeKeyword (curRoundNum roundInfo);
      let dp := setChain dp vdsID chain in
      match bridgeKeyword with
      | LOCAL_BRIDGE_KEYWORD =>
          (* replay local endpoint flow *)
          '(dp, err) ← ReplayVDSLocalEndpointFlow dp vdsID;
          match err with
          | Some e => Done (dp, Some (ErrReplayLocalEndpoint e))
          | None => Done (dp, None)
          end
      | POLICY_BRIDGE_KEYWORD =>
          (* replay policy flow *)
          '(dp, err) ← ReplayVDSMicroSegmentFlow dp vdsID;
          match err with
          | Some e => Done (dp, Some (ErrReplayMicroSegment e))
          | None => Done (dp, None)
          end
      | _ => Done (dp, None)
      end
  end.

End Datapath.

(** ** Implementations used in the examples *)

(** *** Package [net], IPv4 only

    The dotted-quad grammar of Go's [net.ParseIP] and [net.ParseCIDR] and
    Go's [IP.Mask].  IPv6 literals are not covered: they are [None] here. *)

Module ipv4.

(** [s] cut at every [c]. *)
Fixpoint split (c : ascii) (s : string) : list string :=
  match s with
  | EmptyString => [EmptyString]
  | String a rest =>
      if Ascii.eqb a c then EmptyString :: split c rest
      else
        match split c rest with
        | first :: others => String a first :: others
        | [] => [String a EmptyString]
        end
  end.

(** One field of a dotted quad: one to three digits, no leading zero,
    at most 255. *)
Definition parseOctet (s : string) : option Z :=
  match s with
  | EmptyString => None
  | String a rest =>
      if Ascii.eqb a "0"%char && negb (String.eqb rest "") then None
      else if (3 <? String.length s)%nat then None
      else
        match strconv.digits 0 s with
        | Some n => if n <=? 255 then Some n else None
        | None => None
        end
  end.

Definition v4InV6Prefix : list Z := [0; 0; 0; 0; 0; 0; 0; 0; 0; 0; 255; 255].

(** The 16-byte form of an IPv4 address, as [net.IPv4] builds it. *)
Definition parseIPv4 (s : string) : option net.IP :=
  match split "."%char s with
  | [a; b; c; d] =>
      match parseOctet a, parseOctet b, parseOctet c, parseOctet d with
      | Some a, Some b, Some c, Some d => Some (v4InV6Prefix ++ [a; b; c; d])%list
      | _, _, _, _ => None
      end
  | _ => None
  end.

(** [net.CIDRMask(ones, 8 * len)]: [len] bytes whose first [ones] bits
    are set. *)
Fixpoint CIDRMask (len : nat) (ones : Z) : net.IPMask :=
  match len with
  | O => []
  | S len' =>
      (if 8 <=? ones then 255
       else if ones <=? 0 then 0
       else 255 - (2 ^ (8 - ones) - 1))
      :: CIDRMask len' (ones - 8)
  end.

Definition ParseCIDR (s : string) : option (net.IP * net.IPMask) :=
  match split "/"%char s with
  | addr :: rest =>
      let mask := String.concat "/" rest in
      match rest, parseIPv4 addr, strconv.digits 0 mask with
      | _ :: _, Some ip, Some n =>
          if String.eqb mask "" then None
          else if n <=? 32 then Some (ip, CIDRMask 4 n) else None
      | _, _, _ => None
      end
  | [] => None
  end.

Definition allFF (l : list Z) : bool := forallb (Z.eqb 255) l.

Definition Mask (ip : net.IP) (mask : net.IPMask) : net.IP :=
  let mask :=
    if (length mask =? 16)%nat && (length ip =? 4)%nat && allFF (take 12 mask)
    then drop 12 mask else mask in
  let ip :=
    if (length mask =? 4)%nat && (length ip =? 16)%nat
       && bool_decide (take 12 ip = v4InV6Prefix)
    then drop 12 ip else ip in
  if (length ip =? length mask)%nat
  then zip_with Z.land ip mask
  else [].

Definition Lib : net.Lib :=
  {| net.ParseIP := parseIPv4; net.ParseCIDR := ParseCIDR; net.Mask := Mask |}.

End ipv4.

#[global] Instance CtFlag_eq_dec : EqDecision ofctrl.CtFlag.
Proof. solve_decision. Defined.

#[global] Instance CTStates_eq_dec : EqDecision ofctrl.CTStates.
Proof. solve_decision. Defined.

#[global] Instance NXRegister_eq_dec : EqDecision ofctrl.NXRegister.
Proof. solve_decision. Defined.

#[global] Instance FlowMatch_eq_dec : EqDecision ofctrl.FlowMatch.
Proof. solve_decision. Defined.

(** *** A switch that refuses a second flow with the same match *)

Module dupcheck.

(** [NewFlow] is refused when the table already has a flow with the same
    match; [Next], [SetConntrack] and [DeleteFlow] do not fail. *)
Definition Lib : ofctrl.Lib :=
  {| ofctrl.NewFlowRefused := fun sw t m =>
       existsb (fun f => bool_decide (ofctrl.Table f = t ∧ ofctrl.Match f = m))
               (ofctrl.Flows sw);
     ofctrl.NextFails := fun _ _ _ => false;
     ofctrl.SetConntrackFails := fun _ _ _ _ _ _ => false;
     ofctrl.DeleteFlowFails := fun _ _ _ _ => false |}.

End dupcheck.

Module ctrefused.

(** A library whose switch takes no conntrack action: [SetConntrack]
    fails; everything else is accepted. *)
Definition Lib : ofctrl.Lib :=
  {| ofctrl.NewFlowRefused := fun _ _ _ => false;
     ofctrl.NextFails := fun _ _ _ => false;
     ofctrl.SetConntrackFails := fun _ _ _ _ _ _ => true;
     ofctrl.DeleteFlowFails := fun _ _ _ _ => false |}.

End ctrefused.

(** *** The LOCAL bridge *)

Module localmodel.

(** The two per-endpoint flows of the LOCAL bridge. *)
Inductive EndpointFlow : Type :=
| AntiSpoof (mac : string) (inPort : Z)
| Forward (mac : string) (outPort : Z) (idleTimeout hardTimeout : Z).

(** Modelled from the spec: the LOCAL bridge ([localBridge.go] is not
    among the sources), as far as the endpoint registry drives it.  On
    AddLocalEndpoint it installs a MAC-source match pinning the endpoint's
    MAC to its port and a MAC-destination forwarding rule to the port with
    idle and hard timeouts of 300 s; on RemoveLocalEndpoint it deletes
    both.  Every flow carries the round of the cookie allocator it was
    installed under. *)
Record LocalBridge : Type := {
  connected : bool;
  round : Z;
  flows : list (Z * EndpointFlow);
}.

#[global] Instance EndpointFlow_eq_dec : EqDecision EndpointFlow.
Proof. solve_decision. Defined.

(** Modelled from the spec: the anti-spoofing flow and the forwarding flow
    of an endpoint, the latter with idle and hard timeouts of 300 s. *)
Definition endpointFlows (endpoint : Endpoint) : list EndpointFlow :=
  [AntiSpoof (MacAddrStr endpoint) (PortNo endpoint);
   Forward (MacAddrStr endpoint) (PortNo endpoint) 300 300].

(** Modelled from the spec: AddLocalEndpoint of the LOCAL bridge installs
    the two flows of the endpoint, under the current round. *)
Definition AddLocalEndpoint (b : LocalBridge) (endpoint : Endpoint)
  : outcome (LocalBridge * option error) :=
  Done ({| connected := connected b; round := round b;
           flows := flows b ++ map (pair (round b)) (endpointFlows endpoint) |},
        None).

(** Modelled from the spec: RemoveLocalEndpoint of the LOCAL bridge deletes
    the two flows of the endpoint. *)
Definition RemoveLocalEndpoint (b : LocalBridge) (endpoint : Endpoint)
  : outcome (LocalBridge * option error) :=
  Done ({| connected := connected b; round := round b;
           flows := filter (fun f => f.2 ∉ endpointFlows endpoint) (flows b) |},
        None).

(** Modelled from the spec: every flow installed from now on encodes
    round [r] in its cookie. *)
Definition SetCookieAllocator (b : LocalBridge) (r : Z) : outcome LocalBridge :=
  Done {| connected := connected b; round := r; flows := flows b |}.

(** Modelled from the spec: the LOCAL bridge behind the interface; its
    static pipeline is left out, so [BridgeInit] and [BridgeInitCNI] change
    nothing here. *)
Definition Interface : Bridge.Interface LocalBridge :=
  {| Bridge.BridgeInit := Done;
     Bridge.BridgeInitCNI := Done;
     Bridge.AddLocalEndpoint := AddLocalEndpoint;
     Bridge.RemoveLocalEndpoint := RemoveLocalEndpoint;
     Bridge.IsSwitchConnected := connected;
     Bridge.SetCookieAllocator := SetCookieAllocator |}.

(** The flows of round [r]. *)
Definition flowsOfRound (r : Z) (b : LocalBridge) : list EndpointFlow :=
  map snd (filter (fun f => f.1 = r) (flows b)).

End localmodel.

(** *** The CLS and UPLINK bridges *)

Module idle.

(** Modelled from the spec: the CLS and UPLINK bridges ([clsBridge.go] and
    [uplinkBridge.go] are not among the sources) take no part in endpoint
    and rule operations; the bridge is its connection status. *)
Definition Interface : Bridge.Interface bool :=
  {| Bridge.BridgeInit := Done;
     Bridge.BridgeInitCNI := Done;
     Bridge.AddLocalEndpoint := fun b _ => Done (b, None);
     Bridge.RemoveLocalEndpoint := fun b _ => Done (b, None);
     Bridge.IsSwitchConnected := fun b => b;
     Bridge.SetCookieAllocator := fun b _ => Done b |}.

End idle.

(** ** The tier tables as the design describes them

    The table of a tier in a direction, and the table an allowed packet
    goes to next: tier 0 hands over to tier 1 of the same direction, tiers
    1 and 2 to the conntrack commit table. *)

Inductive PolicyDirection : Type := Egress | Ingress.
Inductive PolicyTier : Type := Tier0 | Tier1 | Tier2.

Definition directionCode (d : PolicyDirection) : Z :=
  match d with
  | Egress => POLICY_DIRECTION_OUT
  | Ingress => POLICY_DIRECTION_IN
  end.

Definition tierCode (k : PolicyTier) : Z :=
  match k with
  | Tier0 => POLICY_TIER0
  | Tier1 => POLICY_TIER1
  | Tier2 => POLICY_TIER2
  end.

Definition designTierTable (d : PolicyDirection) (k : PolicyTier) : Z :=
  match d, k with
  | Egress, Tier0 => 20
  | Egress, Tier1 => 25
  | Egress, Tier2 => 30
  | Ingress, Tier0 => 50
  | Ingress, Tier1 => 55
  | Ingress, Tier2 => 60
  end.

Definition designNextTable (d : PolicyDirection) (k : PolicyTier) : Z :=
  match k with
  | Tier0 => designTierTable d Tier1
  | Tier1 | Tier2 => 70
  end.

(** The table handles of an initialised POLICY bridge: each is the table
    [BridgeInit] makes for it. *)
Definition tablesReady (p : PolicyBridge) : Prop :=
  egressTier0PolicyTable p = Some EGRESS_TIER0_TABLE
  ∧ egressTier1PolicyTable p = Some EGRESS_TIER1_TABLE
  ∧ egressTier2PolicyTable p = Some EGRESS_TIER2_TABLE
  ∧ ingressTier0PolicyTable p = Some INGRESS_TIER0_TABLE
  ∧ ingressTier1PolicyTable p = Some INGRESS_TIER1_TABLE
  ∧ ingressTier2PolicyTable p = Some INGRESS_TIER2_TABLE
  ∧ ctCommitTable p = Some CT_COMMIT_TABLE.

(** The first VDS of [vdsMap] whose bridge is [brname]: where a loop with
    [if ovsbrname == brname { ...; break }] does its work. *)
Fixpoint firstVDS (brname : string) (vdsMap : list (string * string)) : option string :=
  match vdsMap with
  | [] => None
  | (vdsID, ovsbrname) :: rest =>
      if bool_decide (ovsbrname = brname) then Some vdsID else firstVDS brname rest
  end.

(** The target that [AddMicroSegmentRule] gives the flow of a rule. *)
Definition ruleTarget (rule : EveroutePolicyRule) (d : PolicyDirection) (k : PolicyTier)
  : ofctrl.FgraphElem :=
  if bool_decide (Action rule = "allow")
  then ofctrl.ElemTable (designNextTable d k)
  else ofctrl.ElemDrop.

(** The flow of a rule once installed in its tier table. *)
Definition ruleFlowInstalled (sw : ofctrl.OFSwitch) (rule : EveroutePolicyRule)
  (d : PolicyDirection) (k : PolicyTier) (m : ofctrl.FlowMatch) : ofctrl.Flow :=
  {| ofctrl.Table := designTierTable d k; ofctrl.Match := m;
     ofctrl.FlowID := ofctrl.globalFlowID sw;
     ofctrl.Action := Some (ofctrl.ActNext (ruleTarget rule d k)) |}.

(** ** Concrete states used in the examples *)

Module example.

Definition freshSwitch : ofctrl.OFSwitch :=
  {| ofctrl.Tables := []; ofctrl.Flows := []; ofctrl.globalFlowID := 1;
     ofctrl.CookieAllocator := 1 |}.

(** The POLICY bridge of [br0], connected and initialised. *)
Definition policy : PolicyBridge :=
  Eval vm_compute in
    match PolicyBridge_BridgeInit (ofLib := dupcheck.Lib)
            (PolicyBridge_SwitchConnected (NewPolicyBridge "br0") freshSwitch) with
    | Done p => p
    | _ => NewPolicyBridge "br0"
    end.

(** Rule R1 of the allow scenario: TCP to port 80 of 10.0.1.5 from
    10.0.0.0/24, priority 80. *)
Definition R1 : EveroutePolicyRule :=
  {| RuleID := "R1"; Priority := 80;
     SrcIPAddr := "10.0.0.0/24"; DstIPAddr := "10.0.1.5";
     IPProtocol := 6; SrcPort := 0; SrcPortMask := 0;
     DstPort := 80; DstPortMask := 65535; Action := "allow" |}.

(** R1 with an action that is neither allow nor deny. *)
Definition R1reject : EveroutePolicyRule :=
  {| RuleID := "R1"; Priority := 80;
     SrcIPAddr := "10.0.0.0/24"; DstIPAddr := "10.0.1.5";
     IPProtocol := 6; SrcPort := 0; SrcPortMask := 0;
     DstPort := 80; DstPortMask := 65535; Action := "reject" |}.

(** R1 with a destination that does not parse. *)
Definition R1badDst : EveroutePolicyRule :=
  {| RuleID := "R1"; Priority := 80;
     SrcIPAddr := "10.0.0.0/24"; DstIPAddr := "10.0.1";
     IPProtocol := 6; SrcPort := 0; SrcPortMask := 0;
     DstPort := 80; DstPortMask := 65535; Action := "allow" |}.

Definition veth0 : Endpoint :=
  {| InterfaceName := "veth0"; IPAddr := [10; 0; 0; 7]; IPv6Addr := [];
     PortNo := 7; MacAddrStr := "aa:bb:cc:dd:ee:01"; VlanID := 100;
     BridgeName := "br0" |}.

Definition veth1 : Endpoint :=
  {| InterfaceName := "veth1"; IPAddr := [10; 0; 0; 8]; IPv6Addr := [];
     PortNo := 8; MacAddrStr := "aa:bb:cc:dd:ee:02"; VlanID := 100;
     BridgeName := "br0" |}.

(** An endpoint on a bridge that no VDS manages. *)
Definition vethX : Endpoint :=
  {| InterfaceName := "vethX"; IPAddr := []; IPv6Addr := [];
     PortNo := 9; MacAddrStr := "aa:bb:cc:dd:ee:09"; VlanID := 100;
     BridgeName := "br9" |}.

(** [veth1] as an update would bring it: no address yet, a new port. *)
Definition veth1' : Endpoint :=
  {| InterfaceName := "veth1"; IPAddr := []; IPv6Addr := [];
     PortNo := 18; MacAddrStr := "aa:bb:cc:dd:ee:02"; VlanID := 100;
     BridgeName := "br0" |}.

(** The LOCAL bridge of [br0] with the flows of [veth0] and [veth1],
    installed in round 1. *)
Definition local : localmodel.LocalBridge :=
  {| localmodel.connected := true; localmodel.round := 1;
     localmodel.flows :=
       map (pair 1) (localmodel.endpointFlows veth0 ++ localmodel.endpointFlows veth1) |}.

Definition chain : BridgeChain (LocalBridge := localmodel.LocalBridge)
                               (ClsBridge := bool) (UplinkBridge := bool) :=
  {| localBridge := local; policyBridge := policy;
     clsBridge := true; uplinkBridge := true |}.

(** One VDS [v0] on bridge [br0], two endpoints, no rule; the switch
    database has seen round 1. *)
Definition manager : DpManager :=
  {| BridgeChainMap := [("v0", chain)];
     OvsdbDriverMap :=
       {[ "v0" := fun _ => {| GetExternalIds := Some {[ datapathRestartRound := "1" ]} |} ]};
     ManagedVDSMap := [("v0", "br0")];
     InternalIPs := [];
     localEndpointDB := {[ "veth0" := veth0; "veth1" := veth1 ]};
     Rules := ∅ |}.

(** A manager without any VDS. *)
Definition noVDS : DpManager (LocalBridge := localmodel.LocalBridge)
                             (ClsBridge := bool) (UplinkBridge := bool) :=
  {| BridgeChainMap := []; OvsdbDriverMap := ∅; ManagedVDSMap := [];
     InternalIPs := []; localEndpointDB := ∅; Rules := ∅ |}.

End example.

(** ** The rest of the manager: round persistence, controller ids and the
       internal whitelist *)

Module format.

Definition digitChar (d : Z) : ascii := ascii_of_N (Z.to_N (48 + d)).

(** The digit loop of Go's decimal formatting: the digits of [u] are
    written in front of [a], the last one first. *)
Fixpoint formatBits (fuel : nat) (u : Z) (a : string) : string :=
  match fuel with
  | O => a
  | S fuel' =>
      if u <? 10 then String (digitChar u) a
      else formatBits fuel' (u / 10) (String (digitChar (u mod 10)) a)
  end.

(** [fmt.Sprint(u)] for a [uint64] and [strconv.Itoa(int(u))] for a
    [uint16]: the decimal digits of [u]; twenty digits hold every 64-bit
    value. *)
Definition FormatUint (u : Z) : string := formatBits 20 u "".

End format.

(** [persistentRoundInfo].  [SetExternalIds] is the write of the switch
    database driver: the driver after the write and the error. *)
Definition persistentRoundInfo
  (SetExternalIds : OvsDriver -> gmap string string -> OvsDriver * option error)
  (curRoundNum : Z) (ovsdbDriver : OvsDriver) : OvsDriver * option error :=
  match GetExternalIds ovsdbDriver with
  | None => (ovsdbDriver, Some ErrGetExternalIds)
  | Some externalIds =>
      SetExternalIds ovsdbDriver
        (<[datapathRestartRound := format.FormatUint curRoundNum]> externalIds)
  end.

(** [GenerateControllerID].  [draws] is what the successive
    [binary.Read(rand.Reader, ...)] give: [None] for a read that fails,
    [Some id] for the 16-bit value read.  The loop of the source has no
    bound; the result is [None] when the draws given do not end it. *)
Fixpoint GenerateControllerID (controllerIDSets : gset string)
  (draws : list (option Z)) : option (Z * gset string) :=
  match draws with
  | [] => None
  | None :: rest => GenerateControllerID controllerIDSets rest   (* continue *)
  | Some ctrlID :: rest =>
      if bool_decide (format.FormatUint ctrlID ∈ controllerIDSets)
      then GenerateControllerID controllerIDSets rest          (* continue *)
      else Some (ctrlID, {[format.FormatUint ctrlID]} ∪ controllerIDSets)
  end.

Section Whitelist.

Context {netLib : net.Lib} {ofLib : ofctrl.Lib}.
Context {LocalBridge ClsBridge UplinkBridge : Type}.
Context {localOps : Bridge.Interface LocalBridge}
        {clsOps : Bridge.Interface ClsBridge}
        {uplinkOps : Bridge.Interface UplinkBridge}.

(** [constants.InternalWhitelistPriority]; its package is not among the
    sources. *)
Context (InternalWhitelistPriority : Z).

(** [newInternalIngressRule]: allow all ingress to [internalIP]. *)
Definition newInternalIngressRule (internalIP : string) : EveroutePolicyRule :=
  {| RuleID := "internal-ingress-" ++ internalIP;
     Priority := InternalWhitelistPriority;
     SrcIPAddr := ""; DstIPAddr := internalIP;
     IPProtocol := 0; SrcPort := 0; SrcPortMask := 0; DstPort := 0; DstPortMask := 0;
     Action := "allow" |}.

(** [newInternalEgressRule]: allow all egress from [internalIP]. *)
Definition newInternalEgressRule (internalIP : string) : EveroutePolicyRule :=
  {| RuleID := "internal-egress-" ++ internalIP;
     Priority := InternalWhitelistPriority;
     SrcIPAddr := internalIP; DstIPAddr := "";
     IPProtocol := 0; SrcPort := 0; SrcPortMask := 0; DstPort := 0; DstPortMask := 0;
     Action := "allow" |}.

(** The loop of [InitializeDatapath] over the internal IPs: an ingress and
    an egress rule per IP at tier 2; an error is a [log.Fatalf]. *)
Fixpoint addInternalRules
  (dp : @DpManager LocalBridge ClsBridge UplinkBridge) (internalIPs : list string)
  : outcome (@DpManager LocalBridge ClsBridge UplinkBridge) :=
  match internalIPs with
  | [] => Done dp
  | internalIP :: rest =>
      (* internal ingress rule *)
      '(dp, err) ← AddEveroutePolicyRule dp (newInternalIngressRule internalIP)
                     POLICY_DIRECTION_IN POLICY_TIER2;
      match err with
      | Some _ => Fatal
      | None =>
          (* internal egress rule *)
          '(dp, err) ← AddEveroutePolicyRule dp (newInternalEgressRule internalIP)
                         POLICY_DIRECTION_OUT POLICY_TIER2;
          match err with
          | Some _ => Fatal
          | None => addInternalRules dp rest
          end
      end
  end.

End Whitelist.

(** What identifies a flow on a switch: its table, its match and its id. *)
Definition flowKey (f : ofctrl.Flow) : Z * ofctrl.FlowMatch * Z :=
  (ofctrl.Table f, ofctrl.Match f, ofctrl.FlowID f).

(** The flows of the POLICY bridge; none without a switch. *)
Definition policyFlows (p : PolicyBridge) : list ofctrl.Flow :=
  match OfSwitch p with
  | Some sw => ofctrl.Flows sw
  | None => []
  end.

(** What a rule entry holds besides its flows: the rule, its direction and
    its tier. *)
Definition entryIntent (entry : EveroutePolicyRuleEntry)
  : EveroutePolicyRule * Z * Z :=
  (EntryRule entry, Direction entry, Tier entry).

(** [table.NewFlow(match)] followed by the installation of the flow with
    action [a] ([Next] or [SetConntrack]), both taken by the library. *)
Definition pushFlow (sw : ofctrl.OFSwitch) (t : Z) (m : ofctrl.FlowMatch)
  (a : ofctrl.FlowAction) : ofctrl.OFSwitch :=
  ofctrl.install (ofctrl.addFlow sw (ofctrl.newFlowOf sw t m))
    (ofctrl.newFlowOf sw t m) a.

(** An action of a flow of table [t] that does not send the packet back:
    a jump or a conntrack recirculation goes to a table after [t]; an
    output and a drop leave the pipeline. *)
Definition actionMovesForward (t : Z) (a : ofctrl.FlowAction) : Prop :=
  match a with
  | ofctrl.ActNext (ofctrl.ElemTable n) => t < n
  | ofctrl.ActNext _ => True
  | ofctrl.ActConntrack _ _ n _ => t < n
  end.

(** A flow that is installed and moves the packet forward. *)
Definition movesForward (f : ofctrl.Flow) : Prop :=
  match ofctrl.Action f with
  | Some a => actionMovesForward (ofctrl.Table f) a
  | None => False
  end.

(** A flow that sends no packet back: installed and moving forward, or
    made and not installed, which [uninstalled] allows or not. *)
Definition forwardOr (uninstalled : Prop) (f : ofctrl.Flow) : Prop :=
  match ofctrl.Action f with
  | Some a => actionMovesForward (ofctrl.Table f) a
  | None => uninstalled
  end.

(** A flow that, if it is installed, moves the packet forward. *)
Definition noBackwardJump (f : ofctrl.Flow) : Prop := forwardOr True f.

(** The twelve table handles as [BridgeInit] stores them. *)
Definition pipelineTablesReady (p : PolicyBridge) : Prop :=
  tablesReady p
  ∧ inputTable p = Some INPUT_TABLE
  ∧ ctStateTable p = Some CT_STATE_TABLE
  ∧ directionSelectionTable p = Some DIRECTION_SELECTION_TABLE
  ∧ sfcPolicyTable p = Some SFC_POLICY_TABLE
  ∧ policyForwardingTable p = Some POLICY_FORWARDING_TABLE.

(** A switch whose [n] flows were all made since the flow id was [g]:
    their ids are [g], [g + 1], ... and each of them moves forward. *)
Definition pipelineOf (g : Z) (n : nat) (sw : ofctrl.OFSwitch) : Prop :=
  ofctrl.globalFlowID sw = wrap64 (g + Z.of_nat n)
  ∧ map ofctrl.FlowID (ofctrl.Flows sw)
    = map (fun i => wrap64 (g + Z.of_nat i)) (seq 0 n)
  ∧ Forall movesForward (ofctrl.Flows sw).

(** [pipelineOf] with the flows that are made and not installed allowed
    or not. *)
Definition pipelineWith (uninstalled : Prop) (g : Z) (n : nat) (sw : ofctrl.OFSwitch)
  : Prop :=
  ofctrl.globalFlowID sw = wrap64 (g + Z.of_nat n)
  ∧ map ofctrl.FlowID (ofctrl.Flows sw)
    = map (fun i => wrap64 (g + Z.of_nat i)) (seq 0 n)
  ∧ Forall (forwardOr uninstalled) (ofctrl.Flows sw).

(** That [SetConntrack] of the library does not fail. *)
Definition SetConntrackAccepted `{!ofctrl.Lib} : Prop :=
  forall sw flow commit force table zone,
    ofctrl.SetConntrackFails sw flow commit force table zone = false.

Module example2.

(** A driver whose write always succeeds and is read back. *)
Definition SetExternalIds (d : OvsDriver) (ids : gmap string string)
  : OvsDriver * option error :=
  ({| GetExternalIds := Some ids |}, None).

(** The switch database after round 41, with a key of another owner. *)
Definition driver : OvsDriver :=
  {| GetExternalIds := Some {[ datapathRestartRound := "41"; "owner" := "everoute" ]} |}.

(** A new endpoint on [br0]. *)
Definition veth2 : Endpoint :=
  {| InterfaceName := "veth2"; IPAddr := []; IPv6Addr := [];
     PortNo := 12; MacAddrStr := "aa:bb:cc:dd:ee:03"; VlanID := 100;
     BridgeName := "br0" |}.

(** What the interface event of a changed [veth1] carries: the new port,
    no address. *)
Definition veth1moved : Endpoint :=
  {| InterfaceName := "veth1"; IPAddr := []; IPv6Addr := [];
     PortNo := 18; MacAddrStr := "aa:bb:cc:dd:ee:02"; VlanID := 100;
     BridgeName := "br0" |}.

(** [veth2] as an update towards an unmanaged bridge would bring it. *)
Definition veth2away : Endpoint :=
  {| InterfaceName := "veth2"; IPAddr := []; IPv6Addr := [];
     PortNo := 12; MacAddrStr := "aa:bb:cc:dd:ee:03"; VlanID := 100;
     BridgeName := "br9" |}.

(** Rule R1 as [Rules] holds it after the POLICY bridge of [v0] has
    reconnected: the flow it records is a flow of the switch that is
    gone. *)
Definition R1entry : EveroutePolicyRuleEntry :=
  {| EntryRule := example.R1; Direction := POLICY_DIRECTION_OUT;
     Tier := POLICY_TIER1;
     RuleFlowMap := ∅ |}.

(** The example manager with R1 registered and the POLICY bridge of [v0]
    initialised again: its switch has the static pipeline only. *)
Definition reconnected : DpManager :=
  withRules example.manager {[ "R1" := R1entry ]}.

(** A value for [constants.InternalWhitelistPriority]. *)
Definition whitelistPriority : Z := 300.

End example2.

(** * Properties *)

Section Properties.

Context {netLib : net.Lib} {ofLib : ofctrl.Lib}.
Context {LocalBridge ClsBridge UplinkBridge : Type}.
Context {localOps : Bridge.Interface LocalBridge}
        {clsOps : Bridge.Interface ClsBridge}
        {uplinkOps : Bridge.Interface UplinkBridge}.

Local Abbreviation Manager := (@DpManager LocalBridge ClsBridge UplinkBridge).
Local Abbreviation Chain := (@BridgeChain LocalBridge ClsBridge UplinkBridge).

(** ** Plumbing *)

Lemma bind_Done {A B : Type} (a : A) (k : A -> outcome B) :
  (Done a ≫= k) = k a.
Proof. reflexivity. Qed.

Lemma ensureConnected_Done (dp : Manager) :
  IsBridgesConnected dp = true -> ensureConnected dp = Done tt.
Proof. intros Hc. unfold ensureConnected. now rewrite Hc. Qed.

Lemma withBridgeChainMap_same (dp : Manager) :
  withBridgeChainMap dp (BridgeChainMap dp) = dp.
Proof. now destruct dp. Qed.

Lemma withLocalEndpointDB_same (dp : Manager) :
  withLocalEndpointDB dp (localEndpointDB dp) = dp.
Proof. now destruct dp. Qed.

Lemma mapGet_mapSet {A : Type} (key : string) (v : A) (m : list (string * A)) :
  is_Some (mapGet key m) -> mapGet key (mapSet key v m) = Some v.
Proof.
  induction m as [|[k old] m IH]; simpl.
  - intros [? ?]; discriminate.
  - intros Hs. case_bool_decide; simpl.
    + now rewrite bool_decide_eq_true_2.
    + rewrite bool_decide_eq_false_2 by assumption. auto.
Qed.

Lemma firstVDS_None (brname : string) (vdsMap : list (string * string)) :
  firstVDS brname vdsMap = None <->
  forall vdsID ovsbrname, (vdsID, ovsbrname) ∈ vdsMap -> ovsbrname ≠ brname.
Proof.
  induction vdsMap as [|[v b] rest IH]; simpl.
  - split; [intros _ ? ? Hin; inversion Hin | reflexivity].
  - case_bool_decide as Hb.
    + split; [discriminate|]. intros Hall. exfalso.
      apply (Hall v b); [left | exact Hb].
    + rewrite IH. split.
      * intros Hall v' b' Hin. apply elem_of_cons in Hin as [Heq|Hin].
        -- now inversion Heq; subst.
        -- eauto.
      * intros Hall v' b' Hin. apply (Hall v' b'). now right.
Qed.

(** ** Endpoints: AddLocalEndpoint *)

(** The loop of [AddLocalEndpoint] does nothing for an interface name that
    is registered, whichever VDS it stops at. *)
Lemma addLocalEndpointLoop_registered (dp : Manager) (endpoint ep : Endpoint)
  (vdsMap : list (string * string)) :
  localEndpointDB dp !! InterfaceName endpoint = Some ep ->
  addLocalEndpointLoop dp endpoint vdsMap = Done (dp, None).
Proof.
  intros Hreg. induction vdsMap as [|[vdsID ovsbrname] rest IH]; simpl.
  - reflexivity.
  - case_bool_decide; [now rewrite Hreg | exact IH].
Qed.

(** The loop of [AddLocalEndpoint] does nothing when no VDS has the
    endpoint's bridge. *)
Lemma addLocalEndpointLoop_unmanaged (dp : Manager) (endpoint : Endpoint)
  (vdsMap : list (string * string)) :
  firstVDS (BridgeName endpoint) vdsMap = None ->
  addLocalEndpointLoop dp endpoint vdsMap = Done (dp, None).
Proof.
  induction vdsMap as [|[vdsID ovsbrname] rest IH]; simpl.
  - reflexivity.
  - case_bool_decide; [discriminate | exact IH].
Qed.

(** C5.  With the bridges connected, [AddLocalEndpoint] for an endpoint
    whose interface name is already in the endpoint registry returns nil
    and changes nothing: the manager after the call is the manager before
    it, so the registry keeps the endpoint stored under that name and no
    bridge is touched. *)
Theorem AddLocalEndpoint_duplicate_is_noop (dp : Manager) (endpoint ep : Endpoint) :
  IsBridgesConnected dp = true ->
  localEndpointDB dp !! InterfaceName endpoint = Some ep ->
  AddLocalEndpoint dp endpoint = Done (dp, None).
Proof.
  intros Hconn Hreg. unfold AddLocalEndpoint. rewrite ensureConnected_Done by exact Hconn.
  rewrite bind_Done. now apply addLocalEndpointLoop_registered with ep.
Qed.

(** C10.  With the bridges connected, [AddLocalEndpoint] for an endpoint
    whose bridge name is the bridge of no managed VDS returns nil and
    leaves the manager as it was: the registry and every bridge are
    unchanged, and an interface name that was not registered still is
    not. *)
Theorem AddLocalEndpoint_unmanaged_bridge_is_silent (dp : Manager) (endpoint : Endpoint) :
  IsBridgesConnected dp = true ->
  (forall vdsID ovsbrname,
      (vdsID, ovsbrname) ∈ ManagedVDSMap dp -> ovsbrname ≠ BridgeName endpoint) ->
  AddLocalEndpoint dp endpoint = Done (dp, None).
Proof.
  intros Hconn Hnone. unfold AddLocalEndpoint.
  rewrite ensureConnected_Done by exact Hconn. rewrite bind_Done.
  apply addLocalEndpointLoop_unmanaged. now apply firstVDS_None.
Qed.

(** ** Rules: RemoveEveroutePolicyRule *)

(** C8.  With the bridges connected and at least one VDS managed,
    [RemoveEveroutePolicyRule] for a rule whose id is not in [Rules]
    returns the error "rule not found" and changes nothing: the manager
    after the call is the manager before it, so no flow was deleted on any
    VDS and [Rules] is as it was. *)
Theorem RemoveEveroutePolicyRule_unknown_rule (dp : Manager) (rule : EveroutePolicyRule) :
  IsBridgesConnected dp = true ->
  BridgeChainMap dp ≠ [] ->
  Rules dp !! RuleID rule = None ->
  RemoveEveroutePolicyRule dp rule = Done (dp, Some (ErrRuleNotFound (RuleID rule))).
Proof.
  intros Hconn Hvds Hnone. unfold RemoveEveroutePolicyRule.
  rewrite ensureConnected_Done by exact Hconn. rewrite bind_Done.
  destruct (BridgeChainMap dp) as [|[vdsID chain] rest] eqn:Hmap; [congruence|].
  simpl. rewrite Hnone. rewrite bind_Done.
  rewrite <- Hmap. now rewrite withBridgeChainMap_same.
Qed.

(** The lookup of the rule sits inside the loop over the VDSes: a manager
    without a VDS finds nothing to delete and returns nil. *)
Lemma RemoveEveroutePolicyRule_without_vds (dp : Manager) (rule : EveroutePolicyRule) :
  BridgeChainMap dp = [] ->
  Rules dp !! RuleID rule = None ->
  RemoveEveroutePolicyRule dp rule = Done (dp, None).
Proof.
  intros Hmap Hnone. unfold RemoveEveroutePolicyRule, ensureConnected, IsBridgesConnected.
  rewrite Hmap. simpl. rewrite <- Hmap, withBridgeChainMap_same.
  rewrite delete_id by exact Hnone. now destruct dp.
Qed.

(** ** Round info *)

Lemma digits_nonneg (s : string) (acc n : Z) :
  0 <= acc -> strconv.digits acc s = Some n -> 0 <= n.
Proof.
  revert acc. induction s as [|a s IH]; simpl; intros acc Hacc Hd.
  - now inversion Hd; subst.
  - unfold strconv.digit_of in Hd.
    destruct (_ && _) eqn:Hrange; [|discriminate].
    apply andb_true_iff in Hrange as [Hlo Hhi].
    apply Z.leb_le in Hlo, Hhi.
    apply (IH (10 * acc + (Z.of_N (N_of_ascii a) - 48))); [lia | exact Hd].
Qed.

Lemma ParseUint10_64_range (s : string) (n : Z) :
  strconv.ParseUint10_64 s = Some n -> 0 <= n < 2 ^ 64.
Proof.
  unfold strconv.ParseUint10_64. destruct s as [|a s]; [discriminate|].
  destruct (strconv.digits 0 (String a s)) as [m|] eqn:Hd; [|discriminate].
  destruct (m <? 2 ^ 64) eqn:Hlt; [|discriminate].
  intros Heq; inversion Heq; subst. apply Z.ltb_lt in Hlt.
  split; [|exact Hlt]. now apply (digits_nonneg (String a s) 0).
Qed.

Lemma getRoundInfo_absent (driver : OvsDriver) (externalIds : gmap string string) :
  GetExternalIds driver = Some externalIds ->
  externalIds !! datapathRestartRound = None ->
  getRoundInfo driver = Ok {| previousRoundNum := 0; curRoundNum := 1 |}.
Proof.
  intros Hids Hkey. unfold getRoundInfo. rewrite Hids, Hkey.
  now case_bool_decide.
Qed.

Lemma getRoundInfo_present (driver : OvsDriver) (externalIds : gmap string string)
  (roundNum : string) :
  GetExternalIds driver = Some externalIds ->
  externalIds !! datapathRestartRound = Some roundNum ->
  getRoundInfo driver =
    match strconv.ParseUint10_64 roundNum with
    | None => Err (ErrBadRoundNumber roundNum)
    | Some num => Ok {| previousRoundNum := num; curRoundNum := wrap64 (num + 1) |}
    end.
Proof.
  intros Hids Hkey. unfold getRoundInfo. rewrite Hids.
  case_bool_decide as Hsize.
  - apply map_size_empty_iff in Hsize. subst externalIds.
    now rewrite lookup_empty in Hkey.
  - now rewrite Hkey.
Qed.

(** C7, as the code has it.  When the external-ids can be read:
    without the key [datapathRestartRound] (an empty map has none) the
    result is previous 0, current 1; with a stored value that parses as
    the decimal [n] it is previous [n], current [n + 1] modulo 2^64,
    which is [n + 1] for every [n] below 2^64 - 1 and 0 for
    [n] = 2^64 - 1; with a stored value that does not parse it is an
    error. *)
Theorem getRoundInfo_current_is_next_round (driver : OvsDriver)
  (externalIds : gmap string string) :
  GetExternalIds driver = Some externalIds ->
  (externalIds !! datapathRestartRound = None ->
   getRoundInfo driver = Ok {| previousRoundNum := 0; curRoundNum := 1 |})
  ∧ (forall roundNum n,
        externalIds !! datapathRestartRound = Some roundNum ->
        strconv.ParseUint10_64 roundNum = Some n ->
        getRoundInfo driver =
          Ok {| previousRoundNum := n; curRoundNum := (n + 1) mod 2 ^ 64 |}
        ∧ (n < 2 ^ 64 - 1 -> (n + 1) mod 2 ^ 64 = n + 1)
        ∧ (n = 2 ^ 64 - 1 -> (n + 1) mod 2 ^ 64 = 0))
  ∧ (forall roundNum,
        externalIds !! datapathRestartRound = Some roundNum ->
        strconv.ParseUint10_64 roundNum = None ->
        getRoundInfo driver = Err (ErrBadRoundNumber roundNum)).
Proof.
  intros Hids. split; [|split].
  - now apply getRoundInfo_absent.
  - intros roundNum n Hkey Hparse.
    rewrite (getRoundInfo_present _ _ _ Hids Hkey), Hparse.
    pose proof (ParseUint10_64_range _ _ Hparse) as Hrange.
    split; [reflexivity|]. split.
    + intros Hlt. apply Z.mod_small. lia.
    + intros ->. reflexivity.
  - intros roundNum Hkey Hparse.
    now rewrite (getRoundInfo_present _ _ _ Hids Hkey), Hparse.
Qed.

(** ** Rules: AddEveroutePolicyRule *)

(** Case analysis on the outcome of a bind. *)
Lemma bind_Done_inv {A B : Type} (m : outcome A) (k : A -> outcome B) (b : B) :
  (m ≫= k) = Done b -> exists a, m = Done a ∧ k a = Done b.
Proof. destruct m; simpl; intros Heq; try discriminate. eauto. Qed.

Lemma pollConnected_false (n : nat) : pollConnected n false = Fatal.
Proof. induction n; simpl; auto. Qed.

(** A call of [AddMicroSegmentRule] that returns ran on a connected
    bridge. *)
Lemma AddMicroSegmentRule_connected (p p' : PolicyBridge) (rule : EveroutePolicyRule)
  (direction tier : Z) (r : result FlowEntry) :
  PolicyBridge_AddMicroSegmentRule p rule direction tier = Done (p', r) ->
  isPolicySwitchConnected p = true.
Proof.
  unfold PolicyBridge_AddMicroSegmentRule, PolicyBridge_IsSwitchConnected,
    PolicyBridge_WaitForSwitchConnection.
  destruct (isPolicySwitchConnected p); [reflexivity|].
  now rewrite pollConnected_false.
Qed.

(** [AddMicroSegmentRule] changes the switch of the bridge and nothing
    else of it. *)
Lemma AddMicroSegmentRule_frame (p p' : PolicyBridge) (rule : EveroutePolicyRule)
  (direction tier : Z) (r : result FlowEntry) :
  PolicyBridge_AddMicroSegmentRule p rule direction tier = Done (p', r) ->
  p' = p ∨ exists sw, p' = withOfSwitch p (Some sw).
Proof.
  unfold PolicyBridge_AddMicroSegmentRule, installRuleFlow.
  intros Hrun. apply bind_Done_inv in Hrun as (_ & _ & Hrun).
  repeat (case_match; simplify_eq; eauto);
    repeat match goal with
           | H : (_ ≫= _) = Done _ |- _ => apply bind_Done_inv in H as (? & ? & H)
           | H : Done _ = Done _ |- _ => inversion H; clear H; subst
           | H : context [match ?x with _ => _ end] |- _ => destruct x eqn:?
           end; simplify_eq; eauto.
Qed.

Lemma AddMicroSegmentRule_keeps_connected (p p' : PolicyBridge)
  (rule : EveroutePolicyRule) (direction tier : Z) (r : result FlowEntry) :
  PolicyBridge_AddMicroSegmentRule p rule direction tier = Done (p', r) ->
  PolicyBridge_IsSwitchConnected p' = PolicyBridge_IsSwitchConnected p.
Proof.
  intros Hrun. apply AddMicroSegmentRule_frame in Hrun as [->|[sw ->]]; reflexivity.
Qed.

Lemma addRuleLoop_keeps_connected (rule : EveroutePolicyRule) (direction tier : Z)
  (chains chains' : list (string * Chain)) (m : gmap string FlowEntry)
  (r : result (gmap string FlowEntry)) :
  addRuleLoop rule direction tier chains m = Done (chains', r) ->
  forallb (fun entry => chainConnected entry.2) chains'
  = forallb (fun entry => chainConnected entry.2) chains.
Proof.
  revert chains' m r.
  induction chains as [|[vdsID chain] rest IH]; simpl; intros chains' m r Hrun.
  - now inversion Hrun.
  - apply bind_Done_inv in Hrun as ([pb r1] & Hadd & Hrun).
    apply AddMicroSegmentRule_keeps_connected in Hadd.
    assert (Hchain : chainConnected (withPolicyBridge chain pb) = chainConnected chain).
    { unfold chainConnected. simpl. now rewrite Hadd. }
    destruct r1 as [flowEntry|e].
    + apply bind_Done_inv in Hrun as ([rest' r2] & Hrest & Hrun).
      inversion Hrun; subst. simpl. rewrite Hchain.
      now rewrite (IH _ _ _ Hrest).
    + inversion Hrun; subst. simpl. now rewrite Hchain.
Qed.

(** A rule that is in [Rules] with an equal value is not added again. *)
Lemma AddEveroutePolicyRule_same_rule (dp : Manager) (rule : EveroutePolicyRule)
  (direction tier : Z) (entry : EveroutePolicyRuleEntry) :
  IsBridgesConnected dp = true ->
  Rules dp !! RuleID rule = Some entry ->
  EntryRule entry = rule ->
  AddEveroutePolicyRule dp rule direction tier = Done (dp, None).
Proof.
  intros Hconn Hentry Hsame. unfold AddEveroutePolicyRule.
  rewrite ensureConnected_Done by exact Hconn. rewrite bind_Done.
  rewrite Hentry. unfold RuleIsSame. now rewrite bool_decide_eq_true_2.
Qed.

(** After a call that returned nil the rule is in [Rules] with the value
    that was passed, and the bridges are connected as before. *)
Lemma AddEveroutePolicyRule_registers (dp dp' : Manager) (rule : EveroutePolicyRule)
  (direction tier : Z) :
  IsBridgesConnected dp = true ->
  AddEveroutePolicyRule dp rule direction tier = Done (dp', None) ->
  IsBridgesConnected dp' = true
  ∧ exists entry, Rules dp' !! RuleID rule = Some entry ∧ EntryRule entry = rule.
Proof.
  intros Hconn. unfold AddEveroutePolicyRule.
  rewrite ensureConnected_Done by exact Hconn. rewrite bind_Done.
  destruct (Rules dp !! RuleID rule) as [entry|] eqn:Hentry.
  - unfold RuleIsSame. case_bool_decide as Hsame.
    + intros Heq; inversion Heq; subst dp'. eauto.
    + intros Hrun. apply bind_Done_inv in Hrun as ([chains r] & Hloop & Hrun).
      destruct r as [ruleFlowMap|e]; inversion Hrun; subst dp'. split.
      * unfold IsBridgesConnected in *. simpl.
        now rewrite (addRuleLoop_keeps_connected _ _ _ _ _ _ _ Hloop).
      * simpl. rewrite lookup_insert_eq. eauto.
  - intros Hrun. apply bind_Done_inv in Hrun as ([chains r] & Hloop & Hrun).
    destruct r as [ruleFlowMap|e]; inversion Hrun; subst dp'. split.
    + unfold IsBridgesConnected in *. simpl.
      now rewrite (addRuleLoop_keeps_connected _ _ _ _ _ _ _ Hloop).
    + simpl. rewrite lookup_insert_eq. eauto.
Qed.

(** C4.  With the bridges connected: when [Rules] has an entry under the
    rule's id whose rule is deep-equal to the new rule, the call returns
    nil and the manager after it is the manager before it (no flow
    installed, [Rules] as it was); hence a second [AddEveroutePolicyRule]
    of the rule, after a first one that returned nil, returns nil and
    leaves the state the first call left. *)
Theorem AddEveroutePolicyRule_idempotent (dp : Manager) (rule : EveroutePolicyRule)
  (direction tier : Z) :
  IsBridgesConnected dp = true ->
  (forall entry,
      Rules dp !! RuleID rule = Some entry ->
      RuleIsSame (EntryRule entry) rule = true ->
      AddEveroutePolicyRule dp rule direction tier = Done (dp, None))
  ∧ (forall dp' direction' tier',
        AddEveroutePolicyRule dp rule direction tier = Done (dp', None) ->
        AddEveroutePolicyRule dp' rule direction' tier' = Done (dp', None)).
Proof.
  intros Hconn. split.
  - intros entry Hentry Hsame. apply bool_decide_eq_true in Hsame.
    now apply AddEveroutePolicyRule_same_rule with entry.
  - intros dp' direction' tier' Hfirst.
    destruct (AddEveroutePolicyRule_registers _ _ _ _ _ Hconn Hfirst)
      as (Hconn' & entry & Hentry & Hsame).
    now apply AddEveroutePolicyRule_same_rule with entry.
Qed.

(** ** The POLICY bridge: tier tables and rule flows *)

Lemma withOfSwitch_same (p : PolicyBridge) (sw : ofctrl.OFSwitch) :
  OfSwitch p = Some sw -> withOfSwitch p (Some sw) = p.
Proof. destruct p; simpl; intros ->; reflexivity. Qed.

(** On an initialised bridge [GetTierTable] answers with the tables of
    the design. *)
Lemma GetTierTable_design (p : PolicyBridge) (d : PolicyDirection) (k : PolicyTier) :
  tablesReady p ->
  PolicyBridge_GetTierTable p (directionCode d) (tierCode k)
  = Ok (Some (designTierTable d k), Some (designNextTable d k)).
Proof.
  intros (He0 & He1 & He2 & Hi0 & Hi1 & Hi2 & Hct).
  destruct d, k; unfold PolicyBridge_GetTierTable; simpl;
    rewrite ?He0, ?He1, ?He2, ?Hi0, ?Hi1, ?Hi2, ?Hct; reflexivity.
Qed.

Lemma NewTable_handle (sw sw' : ofctrl.OFSwitch) (id : Z) (t : option Z) :
  ofctrl.NewTable sw id = (sw', t) -> t = Some id.
Proof. unfold ofctrl.NewTable. now intros [= _ <-]. Qed.

Lemma newTables_tablesReady (p p1 : PolicyBridge) (sw sw1 : ofctrl.OFSwitch) :
  newTables p sw = (sw1, p1) ->
  tablesReady p1 ∧ isPolicySwitchConnected p1 = isPolicySwitchConnected p.
Proof.
  unfold newTables. intros Heq.
  repeat match type of Heq with
         | context [ofctrl.NewTable ?s ?id] =>
             let Ht := fresh "Ht" in
             destruct (ofctrl.NewTable s id) as [? ?] eqn:Ht;
             apply NewTable_handle in Ht; subst
         end.
  inversion Heq; subst. unfold tablesReady. repeat split; reflexivity.
Qed.

(** [BridgeInit] leaves the bridge with the table handles of the design
    and a switch. *)
Lemma BridgeInit_tablesReady (p p' : PolicyBridge) :
  PolicyBridge_BridgeInit p = Done p' ->
  tablesReady p' ∧ is_Some (OfSwitch p')
  ∧ isPolicySwitchConnected p' = isPolicySwitchConnected p.
Proof.
  unfold PolicyBridge_BridgeInit. intros Hrun.
  apply bind_Done_inv in Hrun as (sw & _ & Hrun).
  destruct (newTables p sw) as [sw1 p1] eqn:Hnew.
  apply newTables_tablesReady in Hnew as [Hready Hconn].
  repeat (apply bind_Done_inv in Hrun as (? & _ & Hrun)).
  inversion Hrun; subst p'.
  split; [exact Hready|]. split; [eexists; reflexivity | exact Hconn].
Qed.

Lemma install_new_flow (sw : ofctrl.OFSwitch) (t : Z) (m : ofctrl.FlowMatch)
  (a : ofctrl.FlowAction) :
  {| ofctrl.Table := t; ofctrl.Match := m; ofctrl.FlowID := ofctrl.globalFlowID sw;
     ofctrl.Action := Some a |}
  ∈ ofctrl.installed
      (ofctrl.install (ofctrl.addFlow sw (ofctrl.newFlowOf sw t m))
         (ofctrl.newFlowOf sw t m) a) t.
Proof.
  unfold ofctrl.installed, ofctrl.install, ofctrl.addFlow. simpl.
  apply list_elem_of_filter. split; [simpl; eauto|].
  rewrite map_app. apply elem_of_app. right. simpl.
  unfold ofctrl.setAction. simpl. rewrite bool_decide_eq_true_2 by reflexivity.
  apply list_elem_of_singleton. reflexivity.
Qed.

(** C2.  On a connected, initialised POLICY bridge, for a rule whose
    addresses parse, whose action is allow or deny and whose priority
    fits 16 bits, and when the library takes the flow:
    [AddMicroSegmentRule] in direction [d] at tier [k] returns a
    [FlowEntry] with the tier table of [d] and [k], the rule's priority and
    the id of the flow; that flow is installed in that table with the
    rule's priority, and its target is the next table (tier 1 of the same
    direction for tier 0, table 70 for tiers 1 and 2) for allow and the
    drop action for deny. *)
Theorem AddMicroSegmentRule_installs_rule_flow
  (p : PolicyBridge) (sw : ofctrl.OFSwitch) (rule : EveroutePolicyRule)
  (d : PolicyDirection) (k : PolicyTier)
  (ipDa ipDaMask ipSa ipSaMask : option net.IP) :
  isPolicySwitchConnected p = true ->
  OfSwitch p = Some sw ->
  tablesReady p ->
  parseIfSet (DstIPAddr rule) = Ok (ipDa, ipDaMask) ->
  parseIfSet (SrcIPAddr rule) = Ok (ipSa, ipSaMask) ->
  Action rule = "allow" ∨ Action rule = "deny" ->
  0 <= Priority rule < 2 ^ 16 ->
  ofctrl.NewFlowRefused sw (designTierTable d k)
    (ruleMatch rule ipDa ipDaMask ipSa ipSaMask) = false ->
  (forall sw' flow, ofctrl.NextFails sw' flow (ruleTarget rule d k) = false) ->
  exists p' sw' m,
    PolicyBridge_AddMicroSegmentRule p rule (directionCode d) (tierCode k)
    = Done (p', Ok {| EntryTable := Some (designTierTable d k);
                      EntryPriority := Priority rule;
                      EntryFlowID := ofctrl.globalFlowID sw |})
    ∧ OfSwitch p' = Some sw'
    ∧ ofctrl.Priority m = Priority rule
    ∧ ruleFlowInstalled sw rule d k m ∈ ofctrl.installed sw' (designTierTable d k)
    ∧ ruleTarget rule d k
      = match k with
        | Tier0 => if bool_decide (Action rule = "allow")
                   then ofctrl.ElemTable (designTierTable d Tier1)
                   else ofctrl.ElemDrop
        | _ => if bool_decide (Action rule = "allow")
               then ofctrl.ElemTable CT_COMMIT_TABLE
               else ofctrl.ElemDrop
        end.
Proof.
  intros Hconn Hsw Hready Hdst Hsrc Haction Hprio Htaken Hnext.
  assert (Hwrap : wrap16 (Priority rule) = Priority rule)
    by (apply Z.mod_small; exact Hprio).
  exists (withOfSwitch p
            (Some (ofctrl.install
                     (ofctrl.addFlow sw
                        (ofctrl.newFlowOf sw (designTierTable d k)
                           (ruleMatch rule ipDa ipDaMask ipSa ipSaMask)))
                     (ofctrl.newFlowOf sw (designTierTable d k)
                        (ruleMatch rule ipDa ipDaMask ipSa ipSaMask))
                     (ofctrl.ActNext (ruleTarget rule d k))))).
  eexists. exists (ruleMatch rule ipDa ipDaMask ipSa ipSaMask).
  split; [|split; [reflexivity|split; [exact Hwrap|split]]].
  - unfold PolicyBridge_AddMicroSegmentRule, PolicyBridge_IsSwitchConnected.
    rewrite Hconn, bind_Done, (GetTierTable_design _ _ _ Hready), Hdst, Hsrc.
    unfold switchOf. rewrite Hsw, bind_Done.
    unfold ofctrl.NewFlow. rewrite Htaken, bind_Done.
    unfold installRuleFlow, ofctrl.Next, ruleTarget in *.
    destruct Haction as [Hallow|Hdeny].
    + rewrite bool_decide_eq_true_2 in * by exact Hallow.
      simpl. rewrite Hnext. simpl. now rewrite Hwrap.
    + rewrite Hdeny in *. simpl in *. rewrite Hnext. simpl. now rewrite Hwrap.
  - apply install_new_flow.
  - unfold ruleTarget. destruct k; reflexivity.
Qed.

(** The errors of the address block are parse errors. *)
Lemma parseIfSet_error (addr : string) (e : error) :
  parseIfSet addr = Err e -> e = ErrFailedToParseIP ∨ e = ErrParseCIDR addr.
Proof.
  unfold parseIfSet, ParseIPAddrMaskString.
  repeat case_match; intros Heq; simplify_eq; auto.
Qed.

(** C9.  For a direction that is neither 0 (egress) nor 1 (ingress) and
    for every tier, [GetTierTable] returns nil for the policy table, nil
    for the next table and a nil error.  [AddMicroSegmentRule] with such a
    direction therefore never returns "failed get policy table"; on a
    connected bridge, with addresses that parse, it goes on to
    [NewFlow] on the nil table, a nil dereference. *)
Theorem unknown_direction_reaches_nil_table (p : PolicyBridge)
  (rule : EveroutePolicyRule) (direction tier : Z) :
  direction ≠ POLICY_DIRECTION_OUT ->
  direction ≠ POLICY_DIRECTION_IN ->
  PolicyBridge_GetTierTable p direction tier = Ok (None, None)
  ∧ (forall p', PolicyBridge_AddMicroSegmentRule p rule direction tier
                ≠ Done (p', Err ErrFailedGetPolicyTable))
  ∧ (isPolicySwitchConnected p = true ->
     (exists dst, parseIfSet (DstIPAddr rule) = Ok dst) ->
     (exists src, parseIfSet (SrcIPAddr rule) = Ok src) ->
     PolicyBridge_AddMicroSegmentRule p rule direction tier = Panic).
Proof.
  intros Hout Hin.
  assert (Htable : PolicyBridge_GetTierTable p direction tier = Ok (None, None)).
  { unfold PolicyBridge_GetTierTable.
    now rewrite !bool_decide_eq_false_2 by assumption. }
  split; [exact Htable|]. split.
  - intros p' Hrun. unfold PolicyBridge_AddMicroSegmentRule in Hrun.
    apply bind_Done_inv in Hrun as (_ & _ & Hrun). rewrite Htable in Hrun.
    destruct (parseIfSet (DstIPAddr rule)) as [[ipDa ipDaMask]|e] eqn:Hdst.
    + destruct (parseIfSet (SrcIPAddr rule)) as [[ipSa ipSaMask]|e] eqn:Hsrc.
      * apply bind_Done_inv in Hrun as (sw & _ & Hrun). discriminate.
      * apply parseIfSet_error in Hsrc as [->| ->]; discriminate.
    + apply parseIfSet_error in Hdst as [->| ->]; discriminate.
  - intros Hconn [[ipDa ipDaMask] Hdst] [[ipSa ipSaMask] Hsrc].
    unfold PolicyBridge_AddMicroSegmentRule, PolicyBridge_IsSwitchConnected.
    rewrite Hconn, bind_Done, Htable, Hdst, Hsrc.
    unfold switchOf. now destruct (OfSwitch p).
Qed.

(** A flow that is made and not installed is not among the installed
    flows of any table. *)
Lemma installed_addFlow (sw : ofctrl.OFSwitch) (t t' : Z) (m : ofctrl.FlowMatch) :
  ofctrl.installed (ofctrl.addFlow sw (ofctrl.newFlowOf sw t m)) t'
  = ofctrl.installed sw t'.
Proof.
  unfold ofctrl.installed, ofctrl.addFlow. simpl. rewrite filter_app.
  rewrite filter_cons_False, filter_nil, app_nil_r; [reflexivity|].
  simpl. intros [_ [a Ha]]. discriminate.
Qed.

(** C6, as the code has it.  On a connected bridge: a rule with an
    unknown tier in a known direction, or with a source or destination
    address that does not parse, is answered with an error and the bridge
    is as before (no flow was made).  A rule with an unknown action, on
    tables that are set and with addresses that parse, is answered with an
    error too and no flow is installed in any table, but only after
    [NewFlow] was called: when the library takes the flow it stays in the
    tier table, made and not installed. *)
Theorem AddMicroSegmentRule_malformed_rule (p : PolicyBridge)
  (rule : EveroutePolicyRule) (direction tier : Z) :
  isPolicySwitchConnected p = true ->
  (direction = POLICY_DIRECTION_OUT ∨ direction = POLICY_DIRECTION_IN ->
   tier ≠ POLICY_TIER0 -> tier ≠ POLICY_TIER1 -> tier ≠ POLICY_TIER2 ->
   PolicyBridge_AddMicroSegmentRule p rule direction tier
   = Done (p, Err ErrFailedGetPolicyTable))
  ∧ ((exists e, parseIfSet (DstIPAddr rule) = Err e)
     ∨ (exists e, parseIfSet (SrcIPAddr rule) = Err e) ->
     exists e, PolicyBridge_AddMicroSegmentRule p rule direction tier
               = Done (p, Err e))
  ∧ (forall sw t nextTable ipDa ipDaMask ipSa ipSaMask,
        Action rule ≠ "allow" -> Action rule ≠ "deny" ->
        OfSwitch p = Some sw ->
        PolicyBridge_GetTierTable p direction tier = Ok (Some t, nextTable) ->
        parseIfSet (DstIPAddr rule) = Ok (ipDa, ipDaMask) ->
        parseIfSet (SrcIPAddr rule) = Ok (ipSa, ipSaMask) ->
        exists p' sw' e,
          PolicyBridge_AddMicroSegmentRule p rule direction tier = Done (p', Err e)
          ∧ OfSwitch p' = Some sw'
          ∧ (forall t', ofctrl.installed sw' t' = ofctrl.installed sw t')
          ∧ (ofctrl.NewFlowRefused sw t (ruleMatch rule ipDa ipDaMask ipSa ipSaMask)
             = false ->
             e = ErrUnknownAction
             ∧ ofctrl.Flows sw'
               = (ofctrl.Flows sw
                  ++ [ofctrl.newFlowOf sw t
                        (ruleMatch rule ipDa ipDaMask ipSa ipSaMask)])%list)).
Proof.
  intros Hconn. split; [|split].
  - intros Hdir Ht0 Ht1 Ht2.
    unfold PolicyBridge_AddMicroSegmentRule, PolicyBridge_IsSwitchConnected.
    rewrite Hconn, bind_Done. unfold PolicyBridge_GetTierTable.
    rewrite !(bool_decide_eq_false_2 (tier = _)) by assumption.
    destruct Hdir as [-> | ->]; reflexivity.
  - intros Hbad.
    unfold PolicyBridge_AddMicroSegmentRule, PolicyBridge_IsSwitchConnected.
    rewrite Hconn, bind_Done.
    destruct (PolicyBridge_GetTierTable p direction tier) as [[policyTable nextTable]|e0];
      [|eauto].
    destruct (parseIfSet (DstIPAddr rule)) as [[ipDa ipDaMask]|e1]; [|eauto].
    destruct (parseIfSet (SrcIPAddr rule)) as [[ipSa ipSaMask]|e2]; [|eauto].
    destruct Hbad as [[e He]|[e He]]; discriminate.
  - intros sw t nextTable ipDa ipDaMask ipSa ipSaMask Hallow Hdeny Hsw Htable Hdst Hsrc.
    unfold PolicyBridge_AddMicroSegmentRule, PolicyBridge_IsSwitchConnected.
    rewrite Hconn, bind_Done, Htable, Hdst, Hsrc.
    unfold switchOf. rewrite Hsw, bind_Done. unfold ofctrl.NewFlow.
    destruct (ofctrl.NewFlowRefused sw t _) eqn:Hrefused; rewrite bind_Done.
    + exists (withOfSwitch p (Some sw)), sw, ErrFlowRefused.
      split; [reflexivity|]. split; [reflexivity|]. split; [reflexivity|].
      discriminate.
    + rewrite !bool_decide_eq_false_2 by assumption.
      eexists _, _, ErrUnknownAction.
      split; [reflexivity|]. split; [reflexivity|]. split.
      * intros t'. apply installed_addFlow.
      * intros _. split; reflexivity.
Qed.

(** ** Endpoints: UpdateLocalEndpoint *)

Lemma chainOf_withLocalEndpointDB (dp : Manager) (db : gmap string Endpoint)
  (vdsID : string) (chain : Chain) :
  mapGet vdsID (BridgeChainMap dp) = Some chain ->
  chainOf (withLocalEndpointDB dp db) vdsID = Done chain.
Proof. intros Hchain. unfold chainOf. simpl. now rewrite Hchain. Qed.

Lemma chainOf_setChain (dp : Manager) (db : gmap string Endpoint)
  (vdsID : string) (chain chain' : Chain) :
  mapGet vdsID (BridgeChainMap dp) = Some chain ->
  chainOf (withLocalEndpointDB (setChain dp vdsID chain') db) vdsID = Done chain'.
Proof.
  intros Hchain. unfold chainOf. simpl.
  rewrite mapGet_mapSet by (rewrite Hchain; eauto). reflexivity.
Qed.

Lemma updateLocalEndpointLoop_steps (dp : Manager) (newEndpoint oldEndpoint : Endpoint)
  (vdsMap : list (string * string)) (vdsID : string) (chain : Chain) :
  firstVDS (BridgeName newEndpoint) vdsMap = Some vdsID ->
  mapGet vdsID (BridgeChainMap dp) = Some chain ->
  (localEndpointDB dp !! InterfaceName oldEndpoint = None ->
   updateLocalEndpointLoop dp newEndpoint oldEndpoint vdsMap
   = Done (dp, Some ErrOldEndpointNotFound))
  ∧ (forall ep lb1,
        localEndpointDB dp !! InterfaceName oldEndpoint = Some ep ->
        Bridge.RemoveLocalEndpoint (localBridge chain) oldEndpoint = Done (lb1, None) ->
        let registry := delete (InterfaceName oldEndpoint) (localEndpointDB dp) in
        let removed := setChain (withLocalEndpointDB dp registry) vdsID
                         (withLocalBridge chain lb1) in
        let learned := withIPAddr newEndpoint (IPAddr ep) in
        (is_Some (registry !! InterfaceName newEndpoint) ->
         updateLocalEndpointLoop dp newEndpoint oldEndpoint vdsMap
         = Done (removed, Some ErrNewEndpointExists))
        ∧ (registry !! InterfaceName newEndpoint = None ->
           forall lb2,
             Bridge.AddLocalEndpoint lb1 learned = Done (lb2, None) ->
             updateLocalEndpointLoop dp newEndpoint oldEndpoint vdsMap
             = Done (setChain
                       (withLocalEndpointDB removed
                          (<[InterfaceName newEndpoint := learned]> registry))
                       vdsID (withLocalBridge (withLocalBridge chain lb1) lb2),
                     None))).
Proof.
  intros Hfirst Hchain.
  induction vdsMap as [|[v b] rest IH]; simpl in *; [discriminate|].
  case_bool_decide as Hb.
  - injection Hfirst as ->. clear IH. split.
    + now intros ->.
    + intros ep lb1 Hold Hremove. cbv zeta. rewrite Hold.
      rewrite (chainOf_withLocalEndpointDB _ _ _ _ Hchain), bind_Done.
      rewrite Hremove, bind_Done. split.
      * intros [x Hx]. simpl. now rewrite Hx.
      * intros Hfree lb2 Hadd. simpl localEndpointDB. rewrite Hfree.
        rewrite chainOf_setChain with (chain := chain) by exact Hchain.
        rewrite bind_Done. simpl localBridge. rewrite Hadd, bind_Done. reflexivity.
  - exact (IH Hfirst).
Qed.

Lemma updateLocalEndpointLoop_unmanaged (dp : Manager) (newEndpoint oldEndpoint : Endpoint)
  (vdsMap : list (string * string)) :
  firstVDS (BridgeName newEndpoint) vdsMap = None ->
  updateLocalEndpointLoop dp newEndpoint oldEndpoint vdsMap = Done (dp, None).
Proof.
  induction vdsMap as [|[v b] rest IH]; simpl; [reflexivity|].
  case_bool_decide; [discriminate | exact IH].
Qed.

(** What the loop returns once the old endpoint is found, for every
    answer of the LOCAL bridge. *)
Lemma updateLocalEndpointLoop_outcomes (dp : Manager) (newEndpoint oldEndpoint : Endpoint)
  (vdsMap : list (string * string)) (vdsID : string) (chain : Chain)
  (ep : Endpoint) (lb1 : LocalBridge) (err1 : option error) :
  firstVDS (BridgeName newEndpoint) vdsMap = Some vdsID ->
  mapGet vdsID (BridgeChainMap dp) = Some chain ->
  localEndpointDB dp !! InterfaceName oldEndpoint = Some ep ->
  Bridge.RemoveLocalEndpoint (localBridge chain) oldEndpoint = Done (lb1, err1) ->
  let registry := delete (InterfaceName oldEndpoint) (localEndpointDB dp) in
  let removed := setChain (withLocalEndpointDB dp registry) vdsID
                   (withLocalBridge chain lb1) in
  let learned := withIPAddr newEndpoint (IPAddr ep) in
  (forall e, err1 = Some e ->
     updateLocalEndpointLoop dp newEndpoint oldEndpoint vdsMap
     = Done (removed, Some (ErrRemoveLocalEndpoint vdsID e)))
  ∧ (err1 = None -> is_Some (registry !! InterfaceName newEndpoint) ->
     updateLocalEndpointLoop dp newEndpoint oldEndpoint vdsMap
     = Done (removed, Some ErrNewEndpointExists))
  ∧ (err1 = None -> registry !! InterfaceName newEndpoint = None ->
     forall lb2 err2,
       Bridge.AddLocalEndpoint lb1 learned = Done (lb2, err2) ->
       updateLocalEndpointLoop dp newEndpoint oldEndpoint vdsMap
       = Done (setChain
                 (withLocalEndpointDB removed
                    (<[InterfaceName newEndpoint := learned]> registry))
                 vdsID (withLocalBridge (withLocalBridge chain lb1) lb2),
               ErrAddLocalEndpoint vdsID <$> err2)).
Proof.
  intros Hfirst Hchain Hold Hremove.
  induction vdsMap as [|[v b] rest IH]; simpl in *; [discriminate|].
  case_bool_decide as Hb; [|exact (IH Hfirst)].
  injection Hfirst as ->. clear IH. rewrite Hold.
  rewrite (chainOf_withLocalEndpointDB _ _ _ _ Hchain), bind_Done.
  rewrite Hremove, bind_Done. split; [|split].
  - intros e ->. reflexivity.
  - intros -> [x Hx]. simpl. now rewrite Hx.
  - intros -> Hfree lb2 err2 Hadd. simpl localEndpointDB. rewrite Hfree.
    rewrite chainOf_setChain with (chain := chain) by exact Hchain.
    rewrite bind_Done. simpl localBridge. rewrite Hadd, bind_Done.
    now destruct err2.
Qed.

(** C3, as the code has it.  With the bridges connected.  When no VDS
    manages the new endpoint's bridge the call returns nil and the manager
    is unchanged.  When VDS [vdsID], with its bridge chain, manages it:
    if the old endpoint is not registered the call returns an error and
    the manager is unchanged.  Otherwise the learned IP of the registered
    old endpoint is copied into the new endpoint and the old endpoint is
    removed from the registry, then from the LOCAL bridge; an error of
    that removal is returned, and so is, after it, the error that the new
    interface name is (still) registered: in both cases the registry has
    lost the old endpoint.  When the name is free the new endpoint, with
    the learned IP, is registered and then added to the LOCAL bridge,
    whose error, if any, is returned with the new endpoint registered. *)
Theorem UpdateLocalEndpoint_steps (dp : Manager) (newEndpoint oldEndpoint : Endpoint) :
  IsBridgesConnected dp = true ->
  ((forall vdsID ovsbrname,
       (vdsID, ovsbrname) ∈ ManagedVDSMap dp -> ovsbrname ≠ BridgeName newEndpoint) ->
   UpdateLocalEndpoint dp newEndpoint oldEndpoint = Done (dp, None))
  ∧ (forall vdsID chain,
       firstVDS (BridgeName newEndpoint) (ManagedVDSMap dp) = Some vdsID ->
       mapGet vdsID (BridgeChainMap dp) = Some chain ->
       (localEndpointDB dp !! InterfaceName oldEndpoint = None ->
        UpdateLocalEndpoint dp newEndpoint oldEndpoint
        = Done (dp, Some ErrOldEndpointNotFound))
       ∧ (forall ep lb1 err1,
            localEndpointDB dp !! InterfaceName oldEndpoint = Some ep ->
            Bridge.RemoveLocalEndpoint (localBridge chain) oldEndpoint
            = Done (lb1, err1) ->
            let registry := delete (InterfaceName oldEndpoint) (localEndpointDB dp) in
            let removed := setChain (withLocalEndpointDB dp registry) vdsID
                             (withLocalBridge chain lb1) in
            let learned := withIPAddr newEndpoint (IPAddr ep) in
            localEndpointDB removed = registry
            ∧ (forall e, err1 = Some e ->
                 UpdateLocalEndpoint dp newEndpoint oldEndpoint
                 = Done (removed, Some (ErrRemoveLocalEndpoint vdsID e)))
            ∧ (err1 = None -> is_Some (registry !! InterfaceName newEndpoint) ->
               UpdateLocalEndpoint dp newEndpoint oldEndpoint
               = Done (removed, Some ErrNewEndpointExists))
            ∧ (err1 = None -> registry !! InterfaceName newEndpoint = None ->
               forall lb2 err2,
                 Bridge.AddLocalEndpoint lb1 learned = Done (lb2, err2) ->
                 exists dp',
                   UpdateLocalEndpoint dp newEndpoint oldEndpoint
                   = Done (dp', ErrAddLocalEndpoint vdsID <$> err2)
                   ∧ localEndpointDB dp'
                     = <[InterfaceName newEndpoint := learned]> registry
                   ∧ (localBridge <$> mapGet vdsID (BridgeChainMap dp')) = Some lb2))).
Proof.
  intros Hconn. unfold UpdateLocalEndpoint.
  rewrite ensureConnected_Done by exact Hconn. rewrite bind_Done. split.
  - intros Hnone. apply updateLocalEndpointLoop_unmanaged. now apply firstVDS_None.
  - intros vdsID chain Hfirst Hchain. split.
    + exact (proj1 (updateLocalEndpointLoop_steps dp newEndpoint oldEndpoint
                      (ManagedVDSMap dp) vdsID chain Hfirst Hchain)).
    + intros ep lb1 err1 Hold Hremove.
      destruct (updateLocalEndpointLoop_outcomes dp newEndpoint oldEndpoint
                  (ManagedVDSMap dp) vdsID chain ep lb1 err1 Hfirst Hchain Hold Hremove)
        as (Hfailed & Htaken & Hfree).
      cbv zeta. split; [reflexivity|]. split; [exact Hfailed|]. split; [exact Htaken|].
      intros Herr Hnone lb2 err2 Hadd. eexists.
      split; [exact (Hfree Herr Hnone lb2 err2 Hadd)|].
      split; [reflexivity|]. simpl.
      assert (Hset : forall c, is_Some (mapGet vdsID (mapSet vdsID c (BridgeChainMap dp)))).
      { intros c. rewrite mapGet_mapSet by (rewrite Hchain; eauto). eauto. }
      rewrite mapGet_mapSet by apply Hset. reflexivity.
Qed.

(** ** Replay *)

(** The loop of [ReplayVDSLocalEndpointFlow] ends at its first endpoint of
    the bridge: the entries after it are not visited. *)
Lemma replayLocalEndpointLoop_first_match (dp : Manager) (vdsID ovsbrname : string)
  (entries : list (string * Endpoint)) :
  replayLocalEndpointLoop dp vdsID ovsbrname entries
  = replayLocalEndpointLoop dp vdsID ovsbrname
      (take 1 (filter (fun entry => BridgeName entry.2 = ovsbrname) entries)).
Proof.
  induction entries as [|[key endpoint] rest IH]; [reflexivity|].
  simpl. case_bool_decide as Hb.
  - rewrite filter_cons_False by (simpl; congruence). exact IH.
  - rewrite filter_cons_True by (simpl; congruence). simpl.
    rewrite bool_decide_eq_false_2 by (intros Hne; now apply Hne).
    reflexivity.
Qed.

End Properties.

(** * The properties on concrete states *)

#[local] Existing Instance ipv4.Lib.
#[local] Existing Instance dupcheck.Lib.
#[local] Existing Instance localmodel.Interface.
#[local] Existing Instance idle.Interface.

(** The switch of the example POLICY bridge: the static pipeline, twenty
    flows, the next flow id is 21. *)
Lemma example_policy_switch :
  exists sw, OfSwitch example.policy = Some sw
             ∧ length (ofctrl.Flows sw) = 20%nat ∧ ofctrl.globalFlowID sw = 21.
Proof. eexists. repeat split. Qed.

(** An endpoint that is registered: adding [veth0] again. *)
Lemma AddLocalEndpoint_duplicate_example :
  IsBridgesConnected example.manager = true
  ∧ localEndpointDB example.manager !! "veth0" = Some example.veth0
  ∧ AddLocalEndpoint example.manager example.veth0 = Done (example.manager, None).
Proof.
  assert (Hconn : IsBridgesConnected example.manager = true) by (vm_compute; reflexivity).
  assert (Hreg : localEndpointDB example.manager !! InterfaceName example.veth0
                 = Some example.veth0) by (vm_compute; reflexivity).
  split; [exact Hconn|]. split; [exact Hreg|].
  exact (AddLocalEndpoint_duplicate_is_noop example.manager example.veth0 example.veth0
           Hconn Hreg).
Defined.

(** An endpoint on bridge [br9], which no VDS manages. *)
Lemma AddLocalEndpoint_unmanaged_example :
  IsBridgesConnected example.manager = true
  ∧ firstVDS "br9" (ManagedVDSMap example.manager) = None
  ∧ AddLocalEndpoint example.manager example.vethX = Done (example.manager, None).
Proof.
  assert (Hconn : IsBridgesConnected example.manager = true) by (vm_compute; reflexivity).
  assert (Hnone : forall vdsID ovsbrname,
             (vdsID, ovsbrname) ∈ ManagedVDSMap example.manager ->
             ovsbrname ≠ BridgeName example.vethX).
  { intros vdsID ovsbrname Hin. simpl in Hin.
    apply list_elem_of_singleton in Hin. injection Hin as _ ->. discriminate. }
  split; [exact Hconn|]. split; [vm_compute; reflexivity|].
  exact (AddLocalEndpoint_unmanaged_bridge_is_silent example.manager example.vethX
           Hconn Hnone).
Defined.

(** Removing rule R1 from a manager that has no rule. *)
Lemma RemoveEveroutePolicyRule_unknown_example :
  IsBridgesConnected example.manager = true
  ∧ Rules example.manager !! "R1" = None
  ∧ RemoveEveroutePolicyRule example.manager example.R1
    = Done (example.manager, Some (ErrRuleNotFound "R1")).
Proof.
  assert (Hconn : IsBridgesConnected example.manager = true) by (vm_compute; reflexivity).
  assert (Hvds : BridgeChainMap example.manager ≠ []) by discriminate.
  assert (Hnone : Rules example.manager !! RuleID example.R1 = None)
    by (vm_compute; reflexivity).
  split; [exact Hconn|]. split; [exact Hnone|].
  exact (RemoveEveroutePolicyRule_unknown_rule example.manager example.R1
           Hconn Hvds Hnone).
Defined.

(** Rule R1 added twice at egress tier 1: the second call changes
    nothing. *)
Lemma AddEveroutePolicyRule_twice_example :
  IsBridgesConnected example.manager = true
  ∧ exists dp',
      AddEveroutePolicyRule example.manager example.R1 POLICY_DIRECTION_OUT POLICY_TIER1
      = Done (dp', None)
      ∧ is_Some (Rules dp' !! "R1")
      ∧ AddEveroutePolicyRule dp' example.R1 POLICY_DIRECTION_OUT POLICY_TIER1
        = Done (dp', None).
Proof.
  assert (Hconn : IsBridgesConnected example.manager = true) by (vm_compute; reflexivity).
  split; [exact Hconn|].
  destruct (AddEveroutePolicyRule example.manager example.R1
              POLICY_DIRECTION_OUT POLICY_TIER1) as [[dp' [e|]]| |] eqn:Hfirst;
    try (vm_compute in Hfirst; discriminate).
  exists dp'. split; [reflexivity|]. split.
  - vm_compute in Hfirst. injection Hfirst as <-. vm_compute. eauto.
  - exact (proj2 (AddEveroutePolicyRule_idempotent example.manager example.R1
                    POLICY_DIRECTION_OUT POLICY_TIER1 Hconn)
             dp' POLICY_DIRECTION_OUT POLICY_TIER1 Hfirst).
Defined.

(** The allow scenario: rule R1 at egress tier 1 is a flow of table 25
    that jumps to table 70. *)
Lemma AddMicroSegmentRule_R1_example :
  tablesReady example.policy
  ∧ exists p' sw' m,
      PolicyBridge_AddMicroSegmentRule example.policy example.R1
        POLICY_DIRECTION_OUT POLICY_TIER1
      = Done (p', Ok {| EntryTable := Some 25; EntryPriority := 80; EntryFlowID := 21 |})
      ∧ OfSwitch p' = Some sw'
      ∧ {| ofctrl.Table := 25; ofctrl.Match := m; ofctrl.FlowID := 21;
           ofctrl.Action := Some (ofctrl.ActNext (ofctrl.ElemTable 70)) |}
        ∈ ofctrl.installed sw' 25
      ∧ ofctrl.Priority m = 80.
Proof.
  assert (Hready : tablesReady example.policy) by (repeat split; reflexivity).
  split; [exact Hready|].
  destruct example_policy_switch as (sw & Hsw & _ & Hid).
  assert (Hsw' : OfSwitch example.policy = Some sw) by exact Hsw.
  vm_compute in Hsw. injection Hsw as Hsw.
  destruct (AddMicroSegmentRule_installs_rule_flow example.policy sw example.R1
              Egress Tier1
              (Some [0; 0; 0; 0; 0; 0; 0; 0; 0; 0; 255; 255; 10; 0; 1; 5])
              (Some [0; 0; 0; 0; 0; 0; 0; 0; 0; 0; 255; 255; 255; 255; 255; 255])
              (Some [0; 0; 0; 0; 0; 0; 0; 0; 0; 0; 255; 255; 10; 0; 0; 0])
              (Some [255; 255; 255; 0]))
    as (p' & sw' & m & Hrun & Hsw2 & Hprio & Hin & _).
  - reflexivity.
  - exact Hsw'.
  - exact Hready.
  - vm_compute; reflexivity.
  - vm_compute; reflexivity.
  - left; reflexivity.
  - simpl; lia.
  - subst sw. vm_compute; reflexivity.
  - reflexivity.
  - exists p', sw', m. rewrite Hid in Hrun. unfold ruleFlowInstalled in Hin.
    rewrite Hid in Hin. repeat split; assumption.
Defined.

(** Direction 2 at tier 1: no error from [GetTierTable], and the rule
    compiler dereferences the nil table. *)
Lemma unknown_direction_example :
  PolicyBridge_GetTierTable example.policy 2 POLICY_TIER1 = Ok (None, None)
  ∧ PolicyBridge_AddMicroSegmentRule example.policy example.R1 2 POLICY_TIER1 = Panic.
Proof.
  destruct (unknown_direction_reaches_nil_table example.policy example.R1 2 POLICY_TIER1)
    as (Htable & _ & Hpanic); [discriminate | discriminate |].
  split; [exact Htable|].
  apply Hpanic; [reflexivity | eexists; vm_compute; reflexivity
                 | eexists; vm_compute; reflexivity].
Defined.

(** An unknown action is found late: rule R1 with action "reject" at egress
    tier 1 is answered with an error, yet the POLICY bridge is not as it
    was: table 25 has the flow that [NewFlow] made for the rule. *)
Lemma AddMicroSegmentRule_unknown_action_makes_flow :
  exists p' sw sw',
    PolicyBridge_AddMicroSegmentRule example.policy example.R1reject
      POLICY_DIRECTION_OUT POLICY_TIER1
    = Done (p', Err ErrUnknownAction)
    ∧ OfSwitch example.policy = Some sw
    ∧ OfSwitch p' = Some sw'
    ∧ length (filter (fun f => ofctrl.Table f = 25) (ofctrl.Flows sw)) = 1%nat
    ∧ length (filter (fun f => ofctrl.Table f = 25) (ofctrl.Flows sw')) = 2%nat
    ∧ (ofctrl.Table <$> last (ofctrl.Flows sw')) = Some 25
    ∧ (ofctrl.FlowID <$> last (ofctrl.Flows sw')) = Some 21
    ∧ (ofctrl.Action <$> last (ofctrl.Flows sw')) = Some None
    ∧ p' ≠ example.policy.
Proof.
  do 3 eexists.
  split; [vm_compute; reflexivity|].
  split; [vm_compute; reflexivity|].
  split; [reflexivity|].
  split; [vm_compute; reflexivity|].
  split; [vm_compute; reflexivity|].
  split; [vm_compute; reflexivity|].
  split; [vm_compute; reflexivity|].
  split; [vm_compute; reflexivity|].
  intros Heq. apply (f_equal (fun p => ofctrl.globalFlowID <$> OfSwitch p)) in Heq.
  vm_compute in Heq. discriminate.
Qed.

(** The three malformed variants of R1 on the example bridge. *)
Lemma AddMicroSegmentRule_malformed_example :
  isPolicySwitchConnected example.policy = true
  ∧ PolicyBridge_AddMicroSegmentRule example.policy example.R1 POLICY_DIRECTION_OUT 7
    = Done (example.policy, Err ErrFailedGetPolicyTable)
  ∧ (exists e, PolicyBridge_AddMicroSegmentRule example.policy example.R1badDst
                 POLICY_DIRECTION_OUT POLICY_TIER1
               = Done (example.policy, Err e))
  ∧ (exists p' e, PolicyBridge_AddMicroSegmentRule example.policy example.R1reject
                    POLICY_DIRECTION_OUT POLICY_TIER1
                  = Done (p', Err e)).
Proof.
  assert (Hconn : isPolicySwitchConnected example.policy = true) by reflexivity.
  split; [exact Hconn|]. split; [|split].
  - apply (AddMicroSegmentRule_malformed_rule example.policy example.R1
             POLICY_DIRECTION_OUT 7 Hconn); [left; reflexivity | discriminate..].
  - apply (AddMicroSegmentRule_malformed_rule example.policy example.R1badDst
             POLICY_DIRECTION_OUT POLICY_TIER1 Hconn).
    left. eexists. vm_compute. reflexivity.
  - destruct example_policy_switch as (sw & Hsw & _).
    destruct (proj2 (proj2 (AddMicroSegmentRule_malformed_rule example.policy
                              example.R1reject POLICY_DIRECTION_OUT POLICY_TIER1 Hconn))
                sw 25 (Some 70)
                (Some [0; 0; 0; 0; 0; 0; 0; 0; 0; 0; 255; 255; 10; 0; 1; 5])
                (Some [0; 0; 0; 0; 0; 0; 0; 0; 0; 0; 255; 255; 255; 255; 255; 255])
                (Some [0; 0; 0; 0; 0; 0; 0; 0; 0; 0; 255; 255; 10; 0; 0; 0])
                (Some [255; 255; 255; 0]))
      as (p' & sw' & e & Hrun & _);
      [discriminate | discriminate | exact Hsw | reflexivity
      | vm_compute; reflexivity | vm_compute; reflexivity |].
    exists p', e. exact Hrun.
Defined.

(** The largest round wraps: with the stored value 2^64 - 1 the
    current round is 0, not the previous round plus one. *)
Lemma getRoundInfo_wraps_at_max :
  getRoundInfo
    {| GetExternalIds := Some {[ datapathRestartRound := "18446744073709551615" ]} |}
  = Ok {| previousRoundNum := 18446744073709551615; curRoundNum := 0 |}
  ∧ (0 : Z) ≠ 18446744073709551615 + 1.
Proof. split; [vm_compute; reflexivity | discriminate]. Qed.

(** After round 1: previous 1, current 2. *)
Lemma getRoundInfo_example :
  getRoundInfo {| GetExternalIds := Some {[ datapathRestartRound := "1" ]} |}
  = Ok {| previousRoundNum := 1; curRoundNum := 2 |}.
Proof.
  destruct (getRoundInfo_current_is_next_round
              {| GetExternalIds := Some {[ datapathRestartRound := "1" ]} |}
              {[ datapathRestartRound := "1" ]} eq_refl) as (_ & Hpresent & _).
  destruct (Hpresent "1" 1) as (Hrun & _); [vm_compute; reflexivity..|].
  exact Hrun.
Defined.

(** An update onto a taken name is not undone: updating [veth0] into an endpoint
    named [veth1], which is registered, returns an error, and the registry
    is not as it was: [veth0] is gone from it (and its flows from the
    LOCAL bridge). *)
Lemma UpdateLocalEndpoint_error_changes_registry :
  exists dp' chain',
    UpdateLocalEndpoint example.manager example.veth1' example.veth0
    = Done (dp', Some ErrNewEndpointExists)
    ∧ localEndpointDB example.manager !! "veth0" = Some example.veth0
    ∧ localEndpointDB dp' !! "veth0" = None
    ∧ localEndpointDB dp' ≠ localEndpointDB example.manager
    ∧ mapGet "v0" (BridgeChainMap dp') = Some chain'
    ∧ localmodel.flows (localBridge chain')
      = map (pair 1) (localmodel.endpointFlows example.veth1).
Proof.
  do 2 eexists.
  split; [vm_compute; reflexivity|].
  split; [vm_compute; reflexivity|].
  split; [vm_compute; reflexivity|].
  split.
  - intros Heq. apply (f_equal (fun db => db !! "veth0")) in Heq.
    vm_compute in Heq. discriminate.
  - split; vm_compute; reflexivity.
Qed.

(** The same call step by step; the update of [veth1] under its own
    name, which keeps the learned IP; and an update towards a bridge that
    no VDS manages, which changes nothing. *)
Lemma UpdateLocalEndpoint_example :
  IsBridgesConnected example.manager = true
  ∧ UpdateLocalEndpoint example.manager example.veth1' example.veth0
    = Done (setChain
              (withLocalEndpointDB example.manager
                 (delete "veth0" (localEndpointDB example.manager)))
              "v0"
              (withLocalBridge example.chain
                 {| localmodel.connected := true; localmodel.round := 1;
                    localmodel.flows :=
                      map (pair 1) (localmodel.endpointFlows example.veth1) |}),
            Some ErrNewEndpointExists)
  ∧ (exists dp',
      UpdateLocalEndpoint example.manager example.veth1' example.veth1 = Done (dp', None)
      ∧ localEndpointDB dp' !! "veth1"
        = Some (withIPAddr example.veth1' [10; 0; 0; 8]))
  ∧ UpdateLocalEndpoint example.manager example.vethX example.veth0
    = Done (example.manager, None).
Proof.
  assert (Hconn : IsBridgesConnected example.manager = true) by (vm_compute; reflexivity).
  split; [exact Hconn|]. split; [|split].
  - destruct (UpdateLocalEndpoint_steps example.manager example.veth1' example.veth0 Hconn)
      as [_ Hmanaged].
    destruct (Hmanaged "v0" example.chain eq_refl eq_refl) as [_ Hsteps].
    apply (Hsteps example.veth0 _ None);
      [vm_compute; reflexivity | vm_compute; reflexivity | reflexivity |].
    vm_compute. eauto.
  - destruct (UpdateLocalEndpoint_steps example.manager example.veth1' example.veth1 Hconn)
      as [_ Hmanaged].
    destruct (Hmanaged "v0" example.chain eq_refl eq_refl) as [_ Hsteps].
    destruct (Hsteps example.veth1
                {| localmodel.connected := true; localmodel.round := 1;
                   localmodel.flows :=
                     map (pair 1) (localmodel.endpointFlows example.veth0) |} None)
      as (_ & _ & _ & Hfree); [vm_compute; reflexivity | vm_compute; reflexivity |].
    destruct (Hfree eq_refl ltac:(vm_compute; reflexivity)
                {| localmodel.connected := true; localmodel.round := 1;
                   localmodel.flows :=
                     map (pair 1) (localmodel.endpointFlows example.veth0
                                   ++ localmodel.endpointFlows
                                        (withIPAddr example.veth1' [10; 0; 0; 8])) |}
                None)
      as (dp' & Hrun & Hdb & _); [vm_compute; reflexivity|].
    exists dp'. split; [exact Hrun|]. rewrite Hdb. vm_compute. reflexivity.
  - destruct (UpdateLocalEndpoint_steps example.manager example.vethX example.veth0 Hconn)
      as [Hunmanaged _].
    apply Hunmanaged. intros vdsID ovsbrname Hin. simpl in Hin.
    apply list_elem_of_singleton in Hin. injection Hin as _ ->. discriminate.
Defined.

(** C1 on the example: [veth0] and [veth1] are registered on [br0], the
    bridge of VDS [v0], and the LOCAL bridge of [v0] is replayed in round
    2.  The replay returns nil, the registry still has both endpoints, and
    the LOCAL bridge has the round-2 flows of one endpoint only: the loop
    of [ReplayVDSLocalEndpointFlow] leaves at its first endpoint of the
    bridge. *)
Theorem replayVDSFlow_readds_one_endpoint :
  exists dp' chain',
    replayVDSFlow example.manager "v0" LOCAL_BRIDGE_KEYWORD = Done (dp', None)
    ∧ localEndpointDB dp' = localEndpointDB example.manager
    ∧ BridgeName <$> localEndpointDB dp' !! "veth0" = Some "br0"
    ∧ BridgeName <$> localEndpointDB dp' !! "veth1" = Some "br0"
    ∧ mapGet "v0" (ManagedVDSMap dp') = Some "br0"
    ∧ mapGet "v0" (BridgeChainMap dp') = Some chain'
    ∧ (localmodel.flowsOfRound 2 (localBridge chain')
       = localmodel.endpointFlows example.veth0
       ∨ localmodel.flowsOfRound 2 (localBridge chain')
         = localmodel.endpointFlows example.veth1)
    ∧ length (localmodel.flowsOfRound 2 (localBridge chain')) = 2%nat.
Proof.
  do 2 eexists.
  split; [vm_compute; reflexivity|].
  split; [reflexivity|].
  split; [vm_compute; reflexivity|].
  split; [vm_compute; reflexivity|].
  split; [vm_compute; reflexivity|].
  split; [vm_compute; reflexivity|].
  split; [right; vm_compute; reflexivity | vm_compute; reflexivity].
Qed.

(** * Further properties of the manager *)

Section Lifecycle.

Context {netLib : net.Lib} {ofLib : ofctrl.Lib}.
Context {LocalBridge ClsBridge UplinkBridge : Type}.
Context {localOps : Bridge.Interface LocalBridge}
        {clsOps : Bridge.Interface ClsBridge}
        {uplinkOps : Bridge.Interface UplinkBridge}.

Local Abbreviation Manager := (@DpManager LocalBridge ClsBridge UplinkBridge).
Local Abbreviation Chain := (@BridgeChain LocalBridge ClsBridge UplinkBridge).

(** ** The chain of a VDS *)

Lemma chainConnected_of_manager (dp : Manager) (vdsID : string) (chain : Chain) :
  IsBridgesConnected dp = true ->
  mapGet vdsID (BridgeChainMap dp) = Some chain ->
  chainConnected chain = true.
Proof.
  unfold IsBridgesConnected.
  induction (BridgeChainMap dp) as [|[k c] rest IH]; simpl; [discriminate|].
  intros Hall Hget. apply andb_true_iff in Hall as [Hc Hrest].
  case_bool_decide; [now inversion Hget; subst | auto].
Qed.

Lemma forallb_mapSet {A : Type} (f : A -> bool) (key : string) (v : A)
  (m : list (string * A)) :
  forallb (fun entry => f entry.2) m = true ->
  f v = true ->
  forallb (fun entry => f entry.2) (mapSet key v m) = true.
Proof.
  intros Hall Hv. induction m as [|[k old] rest IH]; simpl in *; [reflexivity|].
  apply andb_true_iff in Hall as [Hold Hrest].
  case_bool_decide; simpl; rewrite ?Hv, ?Hold, ?Hrest; auto.
Qed.

(** A LOCAL bridge that is connected after a call leaves the bridges of
    the manager connected. *)
Lemma IsBridgesConnected_local_step (dp : Manager) (db : gmap string Endpoint)
  (vdsID : string) (chain : Chain) (lb : LocalBridge) :
  IsBridgesConnected dp = true ->
  mapGet vdsID (BridgeChainMap dp) = Some chain ->
  Bridge.IsSwitchConnected lb = true ->
  IsBridgesConnected
    (setChain (withLocalEndpointDB dp db) vdsID (withLocalBridge chain lb)) = true.
Proof.
  intros Hconn Hchain Hlb.
  pose proof (chainConnected_of_manager _ _ _ Hconn Hchain) as Hc.
  unfold IsBridgesConnected in *. simpl. apply forallb_mapSet; [exact Hconn|].
  unfold chainConnected in *. simpl. rewrite Hlb.
  repeat (apply andb_true_iff in Hc as [Hc ?]). now repeat (apply andb_true_iff; split).
Qed.

(** The loop of [AddLocalEndpoint] works at the first VDS of the bridge. *)
Lemma addLocalEndpointLoop_at (dp : Manager) (endpoint : Endpoint)
  (vdsMap : list (string * string)) (vdsID : string) (chain : Chain)
  (lb : LocalBridge) (err : option error) :
  firstVDS (BridgeName endpoint) vdsMap = Some vdsID ->
  mapGet vdsID (BridgeChainMap dp) = Some chain ->
  localEndpointDB dp !! InterfaceName endpoint = None ->
  Bridge.AddLocalEndpoint (localBridge chain) endpoint = Done (lb, err) ->
  addLocalEndpointLoop dp endpoint vdsMap
  = Done (setChain
            (withLocalEndpointDB dp
               (<[InterfaceName endpoint := endpoint]> (localEndpointDB dp)))
            vdsID (withLocalBridge chain lb),
          ErrAddLocalEndpoint vdsID <$> err).
Proof.
  intros Hfirst Hchain Hfree Hadd.
  induction vdsMap as [|[v b] rest IH]; simpl in *; [discriminate|].
  case_bool_decide; [|auto].
  injection Hfirst as ->. rewrite Hfree.
  rewrite (chainOf_withLocalEndpointDB _ _ _ _ Hchain), bind_Done, Hadd, bind_Done.
  now destruct err.
Qed.

(** The loop of [RemoveLocalEndpoint] works at the first VDS of the cached
    endpoint's bridge. *)
Lemma removeLocalEndpointLoop_at (dp : Manager) (endpoint cachedEP : Endpoint)
  (vdsMap : list (string * string)) (vdsID : string) (chain : Chain)
  (lb : LocalBridge) (err : option error) :
  firstVDS (BridgeName cachedEP) vdsMap = Some vdsID ->
  mapGet vdsID (BridgeChainMap dp) = Some chain ->
  Bridge.RemoveLocalEndpoint (localBridge chain) endpoint = Done (lb, err) ->
  removeLocalEndpointLoop dp endpoint cachedEP vdsMap
  = Done (setChain
            (withLocalEndpointDB dp
               (delete (InterfaceName endpoint) (localEndpointDB dp)))
            vdsID (withLocalBridge chain lb),
          ErrRemoveLocalEndpoint vdsID <$> err).
Proof.
  intros Hfirst Hchain Hremove.
  induction vdsMap as [|[v b] rest IH]; simpl in *; [discriminate|].
  case_bool_decide; [|auto].
  injection Hfirst as ->.
  rewrite (chainOf_withLocalEndpointDB _ _ _ _ Hchain), bind_Done, Hremove, bind_Done.
  now destruct err.
Qed.

(** ** Endpoints *)

(** X1.  With the bridges connected, [RemoveLocalEndpoint] for an
    interface name that is not registered returns the error that the
    endpoint was not found, and the manager is as before. *)
Theorem RemoveLocalEndpoint_unknown_endpoint (dp : Manager) (endpoint : Endpoint) :
  IsBridgesConnected dp = true ->
  localEndpointDB dp !! InterfaceName endpoint = None ->
  RemoveLocalEndpoint dp endpoint
  = Done (dp, Some (ErrEndpointNotFound (InterfaceName endpoint))).
Proof.
  intros Hconn Hnone. unfold RemoveLocalEndpoint.
  rewrite ensureConnected_Done by exact Hconn. rewrite bind_Done. now rewrite Hnone.
Qed.

(** X2.  [AddLocalEndpoint] registers first: for a free interface name on
    the bridge of a managed VDS the endpoint is in the registry after the
    call whether the LOCAL bridge took it or returned an error, and the
    error of the bridge comes back wrapped. *)
Theorem AddLocalEndpoint_registers_first (dp : Manager) (endpoint : Endpoint)
  (vdsID : string) (chain : Chain) (lb : LocalBridge) (err : option error) :
  IsBridgesConnected dp = true ->
  firstVDS (BridgeName endpoint) (ManagedVDSMap dp) = Some vdsID ->
  mapGet vdsID (BridgeChainMap dp) = Some chain ->
  localEndpointDB dp !! InterfaceName endpoint = None ->
  Bridge.AddLocalEndpoint (localBridge chain) endpoint = Done (lb, err) ->
  exists dp',
    AddLocalEndpoint dp endpoint = Done (dp', ErrAddLocalEndpoint vdsID <$> err)
    ∧ localEndpointDB dp' !! InterfaceName endpoint = Some endpoint
    ∧ (forall other, other ≠ InterfaceName endpoint ->
                     localEndpointDB dp' !! other = localEndpointDB dp !! other)
    ∧ (localBridge <$> mapGet vdsID (BridgeChainMap dp')) = Some lb.
Proof.
  intros Hconn Hfirst Hchain Hfree Hadd. eexists. split.
  - unfold AddLocalEndpoint. rewrite ensureConnected_Done by exact Hconn.
    rewrite bind_Done.
    exact (addLocalEndpointLoop_at dp endpoint _ vdsID chain lb err
             Hfirst Hchain Hfree Hadd).
  - simpl. split; [apply lookup_insert_eq|]. split.
    + intros other Hne. now apply lookup_insert_ne.
    + rewrite mapGet_mapSet by (rewrite Hchain; eauto). reflexivity.
Qed.

(** X3.  Add, then remove: when both calls succeed on the LOCAL bridge,
    [RemoveLocalEndpoint] after [AddLocalEndpoint] of an endpoint with a
    free name leaves the endpoint registry as it was before the add. *)
Theorem AddLocalEndpoint_then_RemoveLocalEndpoint (dp : Manager) (endpoint : Endpoint)
  (vdsID : string) (chain : Chain) (lb1 lb2 : LocalBridge) :
  IsBridgesConnected dp = true ->
  firstVDS (BridgeName endpoint) (ManagedVDSMap dp) = Some vdsID ->
  mapGet vdsID (BridgeChainMap dp) = Some chain ->
  localEndpointDB dp !! InterfaceName endpoint = None ->
  Bridge.AddLocalEndpoint (localBridge chain) endpoint = Done (lb1, None) ->
  Bridge.IsSwitchConnected lb1 = true ->
  Bridge.RemoveLocalEndpoint lb1 endpoint = Done (lb2, None) ->
  exists dp1 dp2,
    AddLocalEndpoint dp endpoint = Done (dp1, None)
    ∧ RemoveLocalEndpoint dp1 endpoint = Done (dp2, None)
    ∧ localEndpointDB dp2 = localEndpointDB dp
    ∧ Rules dp2 = Rules dp
    ∧ (localBridge <$> mapGet vdsID (BridgeChainMap dp2)) = Some lb2.
Proof.
  intros Hconn Hfirst Hchain Hfree Hadd Hlb1 Hremove.
  set (db1 := <[InterfaceName endpoint := endpoint]> (localEndpointDB dp)).
  set (dp1 := setChain (withLocalEndpointDB dp db1) vdsID (withLocalBridge chain lb1)).
  assert (Hchain1 : mapGet vdsID (BridgeChainMap dp1) = Some (withLocalBridge chain lb1)).
  { simpl. rewrite mapGet_mapSet by (rewrite Hchain; eauto). reflexivity. }
  exists dp1. eexists. split; [|split].
  - unfold AddLocalEndpoint. rewrite ensureConnected_Done by exact Hconn.
    rewrite bind_Done.
    now rewrite (addLocalEndpointLoop_at dp endpoint _ vdsID chain lb1 None).
  - unfold RemoveLocalEndpoint.
    rewrite ensureConnected_Done
      by (now apply IsBridgesConnected_local_step).
    rewrite bind_Done.
    assert (Hreg : localEndpointDB dp1 !! InterfaceName endpoint = Some endpoint)
      by apply lookup_insert_eq.
    rewrite Hreg.
    now rewrite (removeLocalEndpointLoop_at dp1 endpoint endpoint _ vdsID
                   (withLocalBridge chain lb1) lb2 None).
  - simpl. split; [now apply delete_insert_id|]. split; [reflexivity|].
    rewrite mapGet_mapSet; [reflexivity|].
    rewrite mapGet_mapSet by (rewrite Hchain; eauto). eauto.
Qed.

(** X4.  [UpdateLocalEndpoint] towards a bridge that no VDS manages
    returns nil and changes nothing, whether or not the old endpoint is
    registered: the missing old endpoint is reported only for a managed
    bridge. *)
Theorem UpdateLocalEndpoint_unmanaged_bridge_is_silent (dp : Manager)
  (newEndpoint oldEndpoint : Endpoint) :
  IsBridgesConnected dp = true ->
  (forall vdsID ovsbrname,
      (vdsID, ovsbrname) ∈ ManagedVDSMap dp -> ovsbrname ≠ BridgeName newEndpoint) ->
  UpdateLocalEndpoint dp newEndpoint oldEndpoint = Done (dp, None).
Proof.
  intros Hconn Hnone. unfold UpdateLocalEndpoint.
  rewrite ensureConnected_Done by exact Hconn. rewrite bind_Done.
  apply updateLocalEndpointLoop_unmanaged. now apply firstVDS_None.
Qed.

(** X5.  An update that keeps the interface name: when the LOCAL bridge
    takes the removal and the addition, [UpdateLocalEndpoint] returns nil;
    the registry then has, under that name, the new endpoint with the IP
    of the registered one, and every other name as before. *)
Theorem UpdateLocalEndpoint_same_name (dp : Manager) (newEndpoint oldEndpoint ep : Endpoint)
  (vdsID : string) (chain : Chain) (lb1 lb2 : LocalBridge) :
  IsBridgesConnected dp = true ->
  firstVDS (BridgeName newEndpoint) (ManagedVDSMap dp) = Some vdsID ->
  mapGet vdsID (BridgeChainMap dp) = Some chain ->
  InterfaceName newEndpoint = InterfaceName oldEndpoint ->
  localEndpointDB dp !! InterfaceName oldEndpoint = Some ep ->
  Bridge.RemoveLocalEndpoint (localBridge chain) oldEndpoint = Done (lb1, None) ->
  Bridge.AddLocalEndpoint lb1 (withIPAddr newEndpoint (IPAddr ep)) = Done (lb2, None) ->
  exists dp',
    UpdateLocalEndpoint dp newEndpoint oldEndpoint = Done (dp', None)
    ∧ localEndpointDB dp'
      = <[InterfaceName oldEndpoint := withIPAddr newEndpoint (IPAddr ep)]>
          (localEndpointDB dp).
Proof.
  intros Hconn Hfirst Hchain Hname Hold Hremove Hadd.
  destruct (updateLocalEndpointLoop_steps dp newEndpoint oldEndpoint
              (ManagedVDSMap dp) vdsID chain Hfirst Hchain) as [_ Hsteps].
  destruct (Hsteps ep lb1 Hold Hremove) as [_ Hfree].
  eexists. split.
  - unfold UpdateLocalEndpoint. rewrite ensureConnected_Done by exact Hconn.
    rewrite bind_Done. apply Hfree; [|exact Hadd].
    rewrite Hname. apply lookup_delete_eq.
  - simpl. rewrite Hname. apply insert_delete_eq.
Qed.

(** X6.  An update is a removal followed by an addition: when the
    registered old endpoint is on the new endpoint's bridge, the new name
    is free once the old one is removed and the LOCAL bridge takes both
    steps, [UpdateLocalEndpoint] ends in the state that
    [RemoveLocalEndpoint] of the old endpoint followed by
    [AddLocalEndpoint] of the new endpoint with the learned IP ends in. *)
Theorem UpdateLocalEndpoint_is_remove_then_add (dp : Manager)
  (newEndpoint oldEndpoint ep : Endpoint)
  (vdsID : string) (chain : Chain) (lb1 lb2 : LocalBridge) :
  IsBridgesConnected dp = true ->
  firstVDS (BridgeName newEndpoint) (ManagedVDSMap dp) = Some vdsID ->
  mapGet vdsID (BridgeChainMap dp) = Some chain ->
  localEndpointDB dp !! InterfaceName oldEndpoint = Some ep ->
  BridgeName ep = BridgeName newEndpoint ->
  delete (InterfaceName oldEndpoint) (localEndpointDB dp) !! InterfaceName newEndpoint
  = None ->
  Bridge.RemoveLocalEndpoint (localBridge chain) oldEndpoint = Done (lb1, None) ->
  Bridge.IsSwitchConnected lb1 = true ->
  Bridge.AddLocalEndpoint lb1 (withIPAddr newEndpoint (IPAddr ep)) = Done (lb2, None) ->
  exists dp1 dp2,
    RemoveLocalEndpoint dp oldEndpoint = Done (dp1, None)
    ∧ AddLocalEndpoint dp1 (withIPAddr newEndpoint (IPAddr ep)) = Done (dp2, None)
    ∧ UpdateLocalEndpoint dp newEndpoint oldEndpoint = Done (dp2, None).
Proof.
  intros Hconn Hfirst Hchain Hold Hbridge Hfree Hremove Hlb1 Hadd.
  set (registry := delete (InterfaceName oldEndpoint) (localEndpointDB dp)) in *.
  set (dp1 := setChain (withLocalEndpointDB dp registry) vdsID
                (withLocalBridge chain lb1)).
  set (learned := withIPAddr newEndpoint (IPAddr ep)) in *.
  assert (Hchain1 : mapGet vdsID (BridgeChainMap dp1) = Some (withLocalBridge chain lb1)).
  { simpl. rewrite mapGet_mapSet by (rewrite Hchain; eauto). reflexivity. }
  exists dp1. eexists. split; [|split].
  - unfold RemoveLocalEndpoint. rewrite ensureConnected_Done by exact Hconn.
    rewrite bind_Done, Hold.
    rewrite (removeLocalEndpointLoop_at dp oldEndpoint ep _ vdsID chain lb1 None);
      [reflexivity| |exact Hchain|exact Hremove].
    now rewrite Hbridge.
  - unfold AddLocalEndpoint.
    rewrite ensureConnected_Done by (now apply IsBridgesConnected_local_step).
    rewrite bind_Done.
    rewrite (addLocalEndpointLoop_at dp1 learned _ vdsID
               (withLocalBridge chain lb1) lb2 None);
      [reflexivity|exact Hfirst|exact Hchain1|exact Hfree|exact Hadd].
  - destruct (updateLocalEndpointLoop_steps dp newEndpoint oldEndpoint
                (ManagedVDSMap dp) vdsID chain Hfirst Hchain) as [_ Hsteps].
    destruct (Hsteps ep lb1 Hold Hremove) as [_ Hgo].
    unfold UpdateLocalEndpoint. rewrite ensureConnected_Done by exact Hconn.
    rewrite bind_Done. rewrite (Hgo Hfree lb2 Hadd). reflexivity.
Qed.

(** ** The POLICY bridge *)

(** X7.  What [GetTierTable] answers on an initialised bridge: an error
    exactly for a known direction with a tier other than 50, 100 and 150;
    two nil tables exactly for an unknown direction; otherwise a tier table
    and a next table with a higher number, so that an allowed packet only
    moves forward in the pipeline. *)
Theorem GetTierTable_answers (p : PolicyBridge) (direction tier : Z) :
  tablesReady p ->
  match PolicyBridge_GetTierTable p direction tier with
  | Err e =>
      e = ErrUnknowPolicyTier
      ∧ (direction = POLICY_DIRECTION_OUT ∨ direction = POLICY_DIRECTION_IN)
      ∧ tier ≠ POLICY_TIER0 ∧ tier ≠ POLICY_TIER1 ∧ tier ≠ POLICY_TIER2
  | Ok (Some policyTable, Some nextTable) =>
      policyTable < nextTable
      ∧ (direction = POLICY_DIRECTION_OUT ∨ direction = POLICY_DIRECTION_IN)
      ∧ (tier = POLICY_TIER0 ∨ tier = POLICY_TIER1 ∨ tier = POLICY_TIER2)
  | Ok (None, None) =>
      direction ≠ POLICY_DIRECTION_OUT ∧ direction ≠ POLICY_DIRECTION_IN
  | Ok _ => False
  end.
Proof.
  intros (He0 & He1 & He2 & Hi0 & Hi1 & Hi2 & Hct).
  unfold PolicyBridge_GetTierTable.
  repeat case_bool_decide;
    rewrite ?He0, ?He1, ?He2, ?Hi0, ?Hi1, ?Hi2, ?Hct;
    repeat split; auto; reflexivity.
Qed.

(** X8.  After a [BridgeInit] that returned, on a connected bridge,
    [AddMicroSegmentRule] returns for every rule in both directions and at
    the three tiers: no table handle is nil and the process does not
    exit. *)
Theorem AddMicroSegmentRule_returns_after_BridgeInit (p p' : PolicyBridge)
  (rule : EveroutePolicyRule) (d : PolicyDirection) (k : PolicyTier) :
  isPolicySwitchConnected p = true ->
  PolicyBridge_BridgeInit p = Done p' ->
  exists p'' r,
    PolicyBridge_AddMicroSegmentRule p' rule (directionCode d) (tierCode k)
    = Done (p'', r).
Proof.
  intros Hconn Hinit.
  apply BridgeInit_tablesReady in Hinit as (Hready & [sw Hsw] & Hconn').
  unfold PolicyBridge_AddMicroSegmentRule, PolicyBridge_IsSwitchConnected.
  rewrite Hconn', Hconn, bind_Done, (GetTierTable_design _ _ _ Hready).
  destruct (parseIfSet (DstIPAddr rule)) as [[ipDa ipDaMask]|e1]; [|eauto].
  destruct (parseIfSet (SrcIPAddr rule)) as [[ipSa ipSaMask]|e2]; [|eauto].
  unfold switchOf. rewrite Hsw, bind_Done. unfold ofctrl.NewFlow.
  destruct (ofctrl.NewFlowRefused sw _ _); rewrite bind_Done; [eauto|].
  repeat case_bool_decide; simpl; rewrite ?bind_Done; eauto;
    match goal with
    | |- context [installRuleFlow ?q ?s ?t ?f ?e] =>
        destruct (installRuleFlow q s t f e); eauto
    end.
Qed.

Lemma flowKey_setAction (flowID : Z) (a : ofctrl.FlowAction) (flows : list ofctrl.Flow) :
  map flowKey (map (ofctrl.setAction flowID a) flows) = map flowKey flows.
Proof.
  induction flows as [|f flows IH]; simpl; [reflexivity|].
  rewrite IH. f_equal. unfold ofctrl.setAction. now case_bool_decide.
Qed.

(** What [AddMicroSegmentRule] does to the flows of the bridge: nothing
    when it ends before [NewFlow] or the library refuses the flow; else
    one flow more, installed or not. *)
Lemma AddMicroSegmentRule_flows (p p' : PolicyBridge) (rule : EveroutePolicyRule)
  (direction tier : Z) (r : result FlowEntry) :
  PolicyBridge_AddMicroSegmentRule p rule direction tier = Done (p', r) ->
  (policyFlows p' = policyFlows p ∧ exists e, r = Err e)
  ∨ exists flow,
      map flowKey (policyFlows p') = (map flowKey (policyFlows p) ++ [flowKey flow])%list.
Proof.
  unfold PolicyBridge_AddMicroSegmentRule. intros Hrun.
  apply bind_Done_inv in Hrun as (_ & _ & Hrun).
  destruct (PolicyBridge_GetTierTable p direction tier) as [[policyTable nextTable]|e0];
    [|inversion Hrun; subst; eauto].
  destruct (parseIfSet (DstIPAddr rule)) as [[ipDa ipDaMask]|e1];
    [|inversion Hrun; subst; eauto].
  destruct (parseIfSet (SrcIPAddr rule)) as [[ipSa ipSaMask]|e2];
    [|inversion Hrun; subst; eauto].
  apply bind_Done_inv in Hrun as (sw & Hsw & Hrun).
  unfold switchOf in Hsw. destruct (OfSwitch p) as [sw0|] eqn:Hp; [|discriminate].
  injection Hsw as ->.
  apply bind_Done_inv in Hrun as ([sw1 r1] & Hnew & Hrun).
  unfold ofctrl.NewFlow in Hnew. destruct policyTable as [t|]; [|discriminate].
  assert (Hflows : policyFlows p = ofctrl.Flows sw) by (unfold policyFlows; now rewrite Hp).
  destruct (ofctrl.NewFlowRefused sw t _); inversion Hnew; subst; clear Hnew.
  - inversion Hrun; subst. left. split; [|eauto]. now rewrite Hflows.
  - right. eexists. rewrite Hflows.
    assert (Hinstall : forall elem q res,
               installRuleFlow p (ofctrl.addFlow sw (ofctrl.newFlowOf sw t
                 (ruleMatch rule ipDa ipDaMask ipSa ipSaMask))) (Some t)
                 (ofctrl.newFlowOf sw t (ruleMatch rule ipDa ipDaMask ipSa ipSaMask)) elem
               = (q, res) ->
               map flowKey (policyFlows q)
               = (map flowKey (ofctrl.Flows sw)
                  ++ [flowKey (ofctrl.newFlowOf sw t
                                 (ruleMatch rule ipDa ipDaMask ipSa ipSaMask))])%list).
    { intros elem q res. unfold installRuleFlow, ofctrl.Next.
      destruct (ofctrl.NextFails _ _ _); intros [= <- _]; unfold policyFlows; simpl.
      - now rewrite map_app.
      - now rewrite flowKey_setAction, map_app. }
    repeat case_bool_decide.
    + apply bind_Done_inv in Hrun as (elem & _ & Hrun). injection Hrun as Hrun.
      destruct (installRuleFlow _ _ _ _ elem) as [q res] eqn:Hq.
      injection Hrun as <- _. exact (Hinstall _ _ _ Hq).
    + injection Hrun as Hrun.
      destruct (installRuleFlow _ _ _ _ ofctrl.ElemDrop) as [q res] eqn:Hq.
      injection Hrun as <- _. exact (Hinstall _ _ _ Hq).
    + inversion Hrun; subst. unfold policyFlows. simpl. now rewrite map_app.
Qed.

(** X9.  [AddMicroSegmentRule] never removes a flow of the bridge: the
    flows that were there are there afterwards, in their order, with the
    same table, match and id; at most one flow is added, and none when the
    call ends before [NewFlow]. *)
Theorem AddMicroSegmentRule_keeps_flows (p p' : PolicyBridge) (rule : EveroutePolicyRule)
  (direction tier : Z) (r : result FlowEntry) :
  PolicyBridge_AddMicroSegmentRule p rule direction tier = Done (p', r) ->
  map flowKey (policyFlows p) `prefix_of` map flowKey (policyFlows p')
  ∧ (length (policyFlows p') <= S (length (policyFlows p)))%nat
  ∧ (forall flowEntry, r = Ok flowEntry ->
       length (policyFlows p') = S (length (policyFlows p))).
Proof.
  intros Hrun.
  destruct (AddMicroSegmentRule_flows _ _ _ _ _ _ Hrun) as [[Hsame [e ->]]|[flow Hmore]].
  - rewrite Hsame. split; [reflexivity|]. split; [lia | discriminate].
  - assert (Hlen : length (policyFlows p') = S (length (policyFlows p))).
    { apply (f_equal length) in Hmore.
      rewrite length_app, !length_map in Hmore. simpl in Hmore. lia. }
    split; [rewrite Hmore; now apply prefix_app_r|]. split; [lia | auto].
Qed.

(** ** Rules *)

(** The loop of [AddEveroutePolicyRule] keeps the VDS ids, and a loop that
    went through has a flow for each of them. *)
Lemma addRuleLoop_keys (rule : EveroutePolicyRule) (direction tier : Z)
  (chains chains' : list (string * Chain)) (m : gmap string FlowEntry)
  (r : result (gmap string FlowEntry)) :
  addRuleLoop rule direction tier chains m = Done (chains', r) ->
  chains'.*1 = chains.*1
  ∧ forall m', r = Ok m' ->
      forall vdsID, is_Some (m' !! vdsID) <-> is_Some (m !! vdsID) ∨ vdsID ∈ chains.*1.
Proof.
  revert chains' m r.
  induction chains as [|[v chain] rest IH]; simpl; intros chains' m r Hrun.
  - inversion Hrun; subst. split; [reflexivity|].
    intros m' [= <-] vdsID. rewrite elem_of_nil. tauto.
  - apply bind_Done_inv in Hrun as ([pb r1] & _ & Hrun).
    destruct r1 as [flowEntry|e].
    + apply bind_Done_inv in Hrun as ([rest' r2] & Hrest & Hrun).
      inversion Hrun; subst. destruct (IH _ _ _ Hrest) as [Hkeys Hmap].
      split; [rewrite !fmap_cons, Hkeys; reflexivity|].
      intros m' -> vdsID. rewrite (Hmap m' eq_refl vdsID).
      rewrite lookup_insert_is_Some, elem_of_cons.
      destruct (decide (v = vdsID)); intuition congruence.
    + inversion Hrun; subst. split; [reflexivity | discriminate].
Qed.

(** X10.  [AddEveroutePolicyRule] that returns an error registers
    nothing: [Rules] and the endpoint registry are as before, and the same
    VDSes are managed. *)
Theorem AddEveroutePolicyRule_error_keeps_registry (dp dp' : Manager)
  (rule : EveroutePolicyRule) (direction tier : Z) (e : error) :
  AddEveroutePolicyRule dp rule direction tier = Done (dp', Some e) ->
  Rules dp' = Rules dp
  ∧ localEndpointDB dp' = localEndpointDB dp
  ∧ (BridgeChainMap dp').*1 = (BridgeChainMap dp).*1.
Proof.
  unfold AddEveroutePolicyRule. intros Hrun.
  apply bind_Done_inv in Hrun as (_ & _ & Hrun).
  destruct (match Rules dp !! RuleID rule with
            | Some entry => RuleIsSame (EntryRule entry) rule
            | None => false
            end); [discriminate|].
  apply bind_Done_inv in Hrun as ([chains r] & Hloop & Hrun).
  apply addRuleLoop_keys in Hloop as [Hkeys _].
  destruct r as [ruleFlowMap|e']; inversion Hrun; subst. simpl. auto.
Qed.

(** X11.  [AddEveroutePolicyRule] that returns nil for a rule that was not
    registered with an equal value: [Rules] has, under the rule's id, an
    entry with the rule, the direction, the tier and a flow for exactly the
    VDSes of [BridgeChainMap]; the entries of the other ids are as
    before. *)
Theorem AddEveroutePolicyRule_records_a_flow_per_vds (dp dp' : Manager)
  (rule : EveroutePolicyRule) (direction tier : Z) :
  (forall entry, Rules dp !! RuleID rule = Some entry -> EntryRule entry ≠ rule) ->
  AddEveroutePolicyRule dp rule direction tier = Done (dp', None) ->
  exists entry,
    Rules dp' = <[RuleID rule := entry]> (Rules dp)
    ∧ entryIntent entry = (rule, direction, tier)
    ∧ forall vdsID,
        is_Some (RuleFlowMap entry !! vdsID) <-> vdsID ∈ (BridgeChainMap dp).*1.
Proof.
  intros Hnew. unfold AddEveroutePolicyRule. intros Hrun.
  apply bind_Done_inv in Hrun as (_ & _ & Hrun).
  assert (Hsame : match Rules dp !! RuleID rule with
                  | Some entry => RuleIsSame (EntryRule entry) rule
                  | None => false
                  end = false).
  { destruct (Rules dp !! RuleID rule) as [entry|] eqn:Hentry; [|reflexivity].
    apply bool_decide_eq_false. now apply Hnew. }
  rewrite Hsame in Hrun.
  apply bind_Done_inv in Hrun as ([chains r] & Hloop & Hrun).
  apply addRuleLoop_keys in Hloop as [_ Hmap].
  destruct r as [ruleFlowMap|e']; inversion Hrun; subst. simpl.
  eexists. split; [reflexivity|]. split; [reflexivity|]. simpl.
  intros vdsID. rewrite (Hmap ruleFlowMap eq_refl vdsID), lookup_empty.
  split; [intros [[? ?]|?]; [discriminate | assumption] | auto].
Qed.

(** The loop of [RemoveEveroutePolicyRule] that went through has deleted,
    on every VDS, the flow that the rule entry records for it. *)
Lemma removeRuleLoop_deleted (rules : gmap string EveroutePolicyRuleEntry)
  (rule : EveroutePolicyRule) (pRule : EveroutePolicyRuleEntry)
  (chains chains' : list (string * Chain)) :
  rules !! RuleID rule = Some pRule ->
  removeRuleLoop rules rule chains = Done (chains', None) ->
  chains'.*1 = chains.*1
  ∧ forall vdsID chain',
      (vdsID, chain') ∈ chains' ->
      exists flowEntry,
        RuleFlowMap pRule !! vdsID = Some flowEntry
        ∧ forall f, f ∈ policyFlows (policyBridge chain') ->
                    ¬ (EntryTable flowEntry = Some (ofctrl.Table f)
                       ∧ ofctrl.FlowID f = EntryFlowID flowEntry).
Proof.
  intros Hrule. revert chains'.
  induction chains as [|[v chain] rest IH]; simpl; intros chains' Hrun.
  - inversion Hrun; subst. split; [reflexivity|]. intros ? ? Hin. inversion Hin.
  - rewrite Hrule in Hrun.
    destruct (RuleFlowMap pRule !! v) as [flowEntry|] eqn:Hflow; [|discriminate].
    apply bind_Done_inv in Hrun as (sw & _ & Hrun).
    apply bind_Done_inv in Hrun as ([sw' err] & Hdelete & Hrun).
    destruct err as [e|]; [discriminate|].
    apply bind_Done_inv in Hrun as ([rest' err] & Hrest & Hrun).
    inversion Hrun; subst. destruct (IH _ Hrest) as [Hkeys Hgone].
    split; [rewrite !fmap_cons, Hkeys; reflexivity|].
    intros vdsID chain' Hin. apply elem_of_cons in Hin as [Heq|Hin]; [|eauto].
    inversion Heq; subst. exists flowEntry. split; [exact Hflow|].
    unfold ofctrl.DeleteFlow in Hdelete.
    destruct (EntryTable flowEntry) as [t|]; [|discriminate].
    destruct (ofctrl.DeleteFlowFails _ _ _ _); inversion Hdelete; subst.
    unfold policyFlows. simpl. intros f Hf [Ht Hid].
    apply list_elem_of_filter in Hf as [Hkeep _]. apply Hkeep.
    split; [congruence | exact Hid].
Qed.

(** X12.  [RemoveEveroutePolicyRule] that returns nil for a registered
    rule: the rule is gone from [Rules], the other rules are as before, and
    on the POLICY bridge of every VDS no flow is left with the table and
    the flow id that the entry recorded for that VDS. *)
Theorem RemoveEveroutePolicyRule_deletes_recorded_flows (dp dp' : Manager)
  (rule : EveroutePolicyRule) (pRule : EveroutePolicyRuleEntry) :
  Rules dp !! RuleID rule = Some pRule ->
  RemoveEveroutePolicyRule dp rule = Done (dp', None) ->
  Rules dp' = delete (RuleID rule) (Rules dp)
  ∧ localEndpointDB dp' = localEndpointDB dp
  ∧ forall vdsID chain',
      (vdsID, chain') ∈ BridgeChainMap dp' ->
      exists flowEntry,
        RuleFlowMap pRule !! vdsID = Some flowEntry
        ∧ forall f, f ∈ policyFlows (policyBridge chain') ->
                    ¬ (EntryTable flowEntry = Some (ofctrl.Table f)
                       ∧ ofctrl.FlowID f = EntryFlowID flowEntry).
Proof.
  intros Hrule. unfold RemoveEveroutePolicyRule. intros Hrun.
  apply bind_Done_inv in Hrun as (_ & _ & Hrun).
  apply bind_Done_inv in Hrun as ([chains err] & Hloop & Hrun).
  destruct err as [e|]; [discriminate|]. inversion Hrun; subst. simpl.
  split; [reflexivity|]. split; [reflexivity|].
  exact (proj2 (removeRuleLoop_deleted _ _ _ _ _ Hrule Hloop)).
Qed.

(** X13.  Add, then remove: [RemoveEveroutePolicyRule] after
    [AddEveroutePolicyRule] of a rule with a new id, both returning nil,
    leaves [Rules] as it was before the add. *)
Theorem AddEveroutePolicyRule_then_Remove (dp dp1 dp2 : Manager)
  (rule : EveroutePolicyRule) (direction tier : Z) :
  Rules dp !! RuleID rule = None ->
  AddEveroutePolicyRule dp rule direction tier = Done (dp1, None) ->
  RemoveEveroutePolicyRule dp1 rule = Done (dp2, None) ->
  Rules dp2 = Rules dp ∧ localEndpointDB dp2 = localEndpointDB dp.
Proof.
  intros Hfree Hadd Hremove.
  unfold AddEveroutePolicyRule in Hadd.
  apply bind_Done_inv in Hadd as (_ & _ & Hadd). rewrite Hfree in Hadd.
  apply bind_Done_inv in Hadd as ([chains r] & _ & Hadd).
  destruct r as [ruleFlowMap|e]; inversion Hadd; subst; clear Hadd.
  unfold RemoveEveroutePolicyRule in Hremove.
  apply bind_Done_inv in Hremove as (_ & _ & Hremove).
  apply bind_Done_inv in Hremove as ([chains' err] & _ & Hremove).
  destruct err as [e|]; [discriminate|]. inversion Hremove; subst. simpl.
  split; [now apply delete_insert_id | reflexivity].
Qed.

(** ** Replay *)

(** The replay of the endpoints reads the registries and writes none. *)
Lemma replayLocalEndpointLoop_registries (dp dp' : Manager) (vdsID ovsbrname : string)
  (entries : list (string * Endpoint)) (err : option error) :
  replayLocalEndpointLoop dp vdsID ovsbrname entries = Done (dp', err) ->
  localEndpointDB dp' = localEndpointDB dp
  ∧ ManagedVDSMap dp' = ManagedVDSMap dp
  ∧ Rules dp' = Rules dp.
Proof.
  induction entries as [|[key endpoint] rest IH]; simpl; intros Hrun.
  - now inversion Hrun.
  - case_bool_decide; [auto|].
    apply bind_Done_inv in Hrun as (chain & _ & Hrun).
    apply bind_Done_inv in Hrun as ([lb e] & _ & Hrun).
    destruct e; inversion Hrun; subst; auto.
Qed.

(** The replay of the rules keeps the rule, the direction and the tier of
    every entry. *)
Lemma replayMicroSegmentLoop_intent (dp dp' : Manager) (vdsID : string)
  (entries : list (string * EveroutePolicyRuleEntry)) (err : option error) :
  (forall ruleID entry,
      (ruleID, entry) ∈ entries ->
      entryIntent <$> Rules dp !! ruleID = Some (entryIntent entry)) ->
  replayMicroSegmentLoop dp vdsID entries = Done (dp', err) ->
  localEndpointDB dp' = localEndpointDB dp
  ∧ ManagedVDSMap dp' = ManagedVDSMap dp
  ∧ forall ruleID, entryIntent <$> Rules dp' !! ruleID = entryIntent <$> Rules dp !! ruleID.
Proof.
  revert dp.
  induction entries as [|[ruleID entry] rest IH]; simpl; intros dp Hentries Hrun.
  - now inversion Hrun.
  - apply bind_Done_inv in Hrun as (chain & _ & Hrun).
    apply bind_Done_inv in Hrun as ([pb r] & _ & Hrun).
    destruct r as [flowEntry|e]; [|now inversion Hrun].
    assert (Hstep : forall id,
               entryIntent <$> (<[ruleID := withRuleFlow entry vdsID flowEntry]>
                                  (Rules dp)) !! id
               = entryIntent <$> Rules dp !! id).
    { intros id. destruct (decide (ruleID = id)) as [<-|Hne].
      - rewrite lookup_insert_eq. simpl.
        now rewrite (Hentries ruleID entry) by apply list_elem_of_here.
      - now rewrite lookup_insert_ne. }
    apply IH in Hrun.
    + destruct Hrun as (Hdb & Hvds & Hrules). simpl in *.
      split; [exact Hdb|]. split; [exact Hvds|].
      intros id. now rewrite Hrules, Hstep.
    + intros id e Hin. simpl. rewrite Hstep.
      apply Hentries. now apply list_elem_of_further.
Qed.

(** A rule that has a flow for the VDS keeps one through the replay. *)
Lemma replayMicroSegmentLoop_keeps_flow (dp dp' : Manager) (vdsID ruleID : string)
  (entries : list (string * EveroutePolicyRuleEntry)) (err : option error) :
  replayMicroSegmentLoop dp vdsID entries = Done (dp', err) ->
  (exists entry, Rules dp !! ruleID = Some entry
                 ∧ is_Some (RuleFlowMap entry !! vdsID)) ->
  exists entry, Rules dp' !! ruleID = Some entry ∧ is_Some (RuleFlowMap entry !! vdsID).
Proof.
  revert dp.
  induction entries as [|[id entry] rest IH]; simpl; intros dp Hrun Hhas.
  - now inversion Hrun; subst.
  - apply bind_Done_inv in Hrun as (chain & _ & Hrun).
    apply bind_Done_inv in Hrun as ([pb r] & _ & Hrun).
    destruct r as [flowEntry|e]; [|now inversion Hrun; subst].
    apply IH in Hrun; [exact Hrun|]. simpl.
    destruct (decide (id = ruleID)) as [->|Hne].
    + rewrite lookup_insert_eq. eexists. split; [reflexivity|].
      simpl. rewrite lookup_insert_eq. eauto.
    + now rewrite lookup_insert_ne.
Qed.

Lemma replayMicroSegmentLoop_refreshes (dp dp' : Manager) (vdsID : string)
  (entries : list (string * EveroutePolicyRuleEntry)) :
  replayMicroSegmentLoop dp vdsID entries = Done (dp', None) ->
  forall ruleID entry,
    (ruleID, entry) ∈ entries ->
    exists entry', Rules dp' !! ruleID = Some entry'
                   ∧ is_Some (RuleFlowMap entry' !! vdsID).
Proof.
  revert dp.
  induction entries as [|[id entry] rest IH]; simpl; intros dp Hrun ruleID e Hin.
  - inversion Hin.
  - apply bind_Done_inv in Hrun as (chain & _ & Hrun).
    apply bind_Done_inv in Hrun as ([pb r] & _ & Hrun).
    destruct r as [flowEntry|err]; [|discriminate].
    apply elem_of_cons in Hin as [Heq|Hin]; [|exact (IH _ Hrun _ _ Hin)].
    inversion Heq; subst.
    apply (replayMicroSegmentLoop_keeps_flow _ _ _ id _ _ Hrun). simpl.
    rewrite lookup_insert_eq. eexists. split; [reflexivity|].
    simpl. rewrite lookup_insert_eq. eauto.
Qed.

(** X14.  [ReplayVDSMicroSegmentFlow] that returns nil has gone through
    all of [Rules]: every rule that was registered still is, with its rule,
    direction and tier, and its entry has a flow for the replayed VDS. *)
Theorem ReplayVDSMicroSegmentFlow_refreshes_every_rule (dp dp' : Manager)
  (vdsID : string) :
  ReplayVDSMicroSegmentFlow dp vdsID = Done (dp', None) ->
  forall ruleID entry,
    Rules dp !! ruleID = Some entry ->
    exists entry',
      Rules dp' !! ruleID = Some entry'
      ∧ entryIntent entry' = entryIntent entry
      ∧ is_Some (RuleFlowMap entry' !! vdsID).
Proof.
  unfold ReplayVDSMicroSegmentFlow. intros Hrun ruleID entry Hentry.
  assert (Hin : (ruleID, entry) ∈ map_to_list (Rules dp))
    by now apply elem_of_map_to_list.
  destruct (replayMicroSegmentLoop_refreshes _ _ _ _ Hrun _ _ Hin)
    as (entry' & Hentry' & Hflow).
  exists entry'. split; [exact Hentry'|]. split; [|exact Hflow].
  apply replayMicroSegmentLoop_intent in Hrun as (_ & _ & Hintent).
  - specialize (Hintent ruleID). rewrite Hentry', Hentry in Hintent.
    change (Some (entryIntent entry') = Some (entryIntent entry)) in Hintent.
    congruence.
  - intros id e He. apply elem_of_map_to_list in He. now rewrite He.
Qed.

(** X15.  [replayVDSFlow] of any of the four bridges, whatever it
    returns, leaves the endpoint registry and the managed VDSes as they
    were and changes of [Rules] only the recorded flows: the same rule ids
    are registered, each with its rule, direction and tier. *)
Theorem replayVDSFlow_keeps_registries (dp dp' : Manager) (vdsID : string)
  (bridgeKeyword : BridgeKeyword) (err : option error) :
  replayVDSFlow dp vdsID bridgeKeyword = Done (dp', err) ->
  localEndpointDB dp' = localEndpointDB dp
  ∧ ManagedVDSMap dp' = ManagedVDSMap dp
  ∧ forall ruleID, entryIntent <$> Rules dp' !! ruleID = entryIntent <$> Rules dp !! ruleID.
Proof.
  unfold replayVDSFlow. intros Hrun.
  apply bind_Done_inv in Hrun as (_ & _ & Hrun).
  apply bind_Done_inv in Hrun as (driver & _ & Hrun).
  destruct (getRoundInfo driver) as [roundInfo|e]; [|now inversion Hrun].
  apply bind_Done_inv in Hrun as (chain & _ & Hrun).
  apply bind_Done_inv in Hrun as (chain' & _ & Hrun).
  destruct bridgeKeyword.
  - apply bind_Done_inv in Hrun as ([dp1 err1] & Hreplay & Hrun).
    unfold ReplayVDSLocalEndpointFlow in Hreplay.
    apply replayLocalEndpointLoop_registries in Hreplay as (Hdb & Hvds & Hrules).
    simpl in *. destruct err1; inversion Hrun; subst; rewrite Hrules; auto.
  - apply bind_Done_inv in Hrun as ([dp1 err1] & Hreplay & Hrun).
    unfold ReplayVDSMicroSegmentFlow in Hreplay.
    apply replayMicroSegmentLoop_intent in Hreplay.
    + destruct err1; inversion Hrun; subst; exact Hreplay.
    + intros id e He. simpl in *. apply elem_of_map_to_list in He. now rewrite He.
  - now inversion Hrun.
  - now inversion Hrun.
Qed.

(** ** Decimal strings *)

Lemma digit_of_digitChar (d : Z) :
  0 <= d <= 9 -> strconv.digit_of (format.digitChar d) = Some d.
Proof.
  intros Hd.
  assert (Hcases : d = 0 ∨ d = 1 ∨ d = 2 ∨ d = 3 ∨ d = 4 ∨ d = 5 ∨ d = 6
                   ∨ d = 7 ∨ d = 8 ∨ d = 9) by lia.
  repeat (destruct Hcases as [->|Hcases]; [reflexivity|]). now subst.
Qed.

(** Reading back what [formatBits] wrote: the digits of [u], then [a]. *)
Lemma digits_formatBits (fuel : nat) (u : Z) (a : string) (acc : Z) :
  0 <= u < 10 ^ Z.of_nat fuel ->
  exists k : nat,
    strconv.digits acc (format.formatBits fuel u a)
    = strconv.digits (acc * 10 ^ Z.of_nat k + u) a.
Proof.
  revert u a. induction fuel as [|fuel IH]; intros u a Hu.
  - exists 0%nat. simpl in *. f_equal. lia.
  - simpl format.formatBits. destruct (u <? 10) eqn:Hsmall.
    + apply Z.ltb_lt in Hsmall. exists 1%nat. simpl strconv.digits.
      rewrite digit_of_digitChar by lia. f_equal. lia.
    + apply Z.ltb_ge in Hsmall.
      assert (Hdiv : 0 <= u / 10 < 10 ^ Z.of_nat fuel).
      { rewrite Nat2Z.inj_succ, Z.pow_succ_r in Hu by lia.
        split; [apply Z.div_pos; lia|]. apply Z.div_lt_upper_bound; lia. }
      destruct (IH (u / 10) (String (format.digitChar (u mod 10)) a) Hdiv) as [k Hk].
      exists (S k). rewrite Hk. simpl strconv.digits.
      rewrite digit_of_digitChar by (pose proof (Z.mod_pos_bound u 10); lia).
      f_equal. rewrite Nat2Z.inj_succ, Z.pow_succ_r by lia.
      pose proof (Z.div_mod u 10). lia.
Qed.

Lemma formatBits_nonempty (fuel : nat) (u : Z) (a : string) :
  exists c rest, format.formatBits (S fuel) u a = String c rest.
Proof.
  revert u a. induction fuel as [|fuel IH]; intros u a.
  - simpl. destruct (u <? 10); eauto.
  - change (format.formatBits (S (S fuel)) u a)
      with (if u <? 10 then String (format.digitChar u) a
            else format.formatBits (S fuel) (u / 10)
                   (String (format.digitChar (u mod 10)) a)).
    destruct (u <? 10); eauto.
Qed.

(** The decimal string of a 64-bit value parses back to the value. *)
Lemma ParseUint_FormatUint (u : Z) :
  0 <= u < 2 ^ 64 -> strconv.ParseUint10_64 (format.FormatUint u) = Some u.
Proof.
  intros Hu. unfold strconv.ParseUint10_64, format.FormatUint.
  destruct (formatBits_nonempty 19 u "") as (c & rest & Hs).
  destruct (digits_formatBits 20 u "" 0) as [k Hk]; [simpl; lia|].
  rewrite Hs in *. rewrite Hk. simpl strconv.digits.
  replace (0 * 10 ^ Z.of_nat k + u) with u by lia.
  now rewrite (proj2 (Z.ltb_lt u (2 ^ 64))) by lia.
Qed.

(** ** Round info *)

Lemma getRoundInfo_range (driver : OvsDriver) (r : RoundInfo) :
  getRoundInfo driver = Ok r -> 0 <= curRoundNum r < 2 ^ 64.
Proof.
  unfold getRoundInfo. repeat case_match; intros Heq; simplify_eq; simpl;
    try lia; apply Z.mod_pos_bound; lia.
Qed.

(** X16.  The round survives the restart: when the round that
    [getRoundInfo] gave as current is persisted with [persistentRoundInfo]
    and the driver reads back what it wrote, the next [getRoundInfo] gives
    that round as previous and the round after it as current; the other
    external-ids are as they were. *)
Theorem persistentRoundInfo_then_getRoundInfo
  (SetExternalIds : OvsDriver -> gmap string string -> OvsDriver * option error)
  (driver driver' : OvsDriver) (r : RoundInfo) :
  (forall d ids d', SetExternalIds d ids = (d', None) -> GetExternalIds d' = Some ids) ->
  getRoundInfo driver = Ok r ->
  persistentRoundInfo SetExternalIds (curRoundNum r) driver = (driver', None) ->
  getRoundInfo driver'
  = Ok {| previousRoundNum := curRoundNum r;
          curRoundNum := wrap64 (curRoundNum r + 1) |}
  ∧ (exists ids ids',
        GetExternalIds driver = Some ids
        ∧ GetExternalIds driver' = Some ids'
        ∧ forall key, key ≠ datapathRestartRound -> ids' !! key = ids !! key).
Proof.
  intros Hreadback Hround Hpersist.
  apply getRoundInfo_range in Hround.
  unfold persistentRoundInfo in Hpersist.
  destruct (GetExternalIds driver) as [ids|] eqn:Hids; [|discriminate].
  apply Hreadback in Hpersist. split.
  - rewrite (getRoundInfo_present _ _ _ Hpersist (lookup_insert_eq _ _ _)).
    now rewrite ParseUint_FormatUint.
  - exists ids. eexists. split; [reflexivity|]. split; [exact Hpersist|].
    intros key Hne. now apply lookup_insert_ne.
Qed.

(** ** Controller ids *)

Lemma GenerateControllerID_is_fresh_aux (controllerIDSets ids' : gset string)
  (draws : list (option Z)) (ctrlID : Z) :
  GenerateControllerID controllerIDSets draws = Some (ctrlID, ids') ->
  Some ctrlID ∈ draws
  ∧ (format.FormatUint ctrlID ∉ controllerIDSets)
  ∧ ids' = {[format.FormatUint ctrlID]} ∪ controllerIDSets.
Proof.
  induction draws as [|[z|] rest IH]; simpl; [discriminate| |].
  - case_bool_decide as Hin.
    + intros Hrun. destruct (IH Hrun) as (Hc & Hrest). split; [now right | exact Hrest].
    + intros [= <- <-]. split; [now left|]. split; [exact Hin | reflexivity].
  - intros Hrun. destruct (IH Hrun) as (Hc & Hrest). split; [now right | exact Hrest].
Qed.

(** X17.  [GenerateControllerID] ends exactly when one of the draws is an
    id that is not in the set; the id it returns is one of the draws, was
    not in the set, and the set after the call is the set before it with
    that id added. *)
Theorem GenerateControllerID_is_fresh (controllerIDSets : gset string)
  (draws : list (option Z)) :
  (is_Some (GenerateControllerID controllerIDSets draws)
   <-> exists ctrlID, Some ctrlID ∈ draws
                      ∧ format.FormatUint ctrlID ∉ controllerIDSets)
  ∧ forall ctrlID ids',
      GenerateControllerID controllerIDSets draws = Some (ctrlID, ids') ->
      Some ctrlID ∈ draws
      ∧ (format.FormatUint ctrlID ∉ controllerIDSets)
      ∧ ids' = {[format.FormatUint ctrlID]} ∪ controllerIDSets.
Proof.
  induction draws as [|[z|] rest [IHsome IHfresh]]; simpl.
  - split; [|discriminate]. split; [intros [? ?]; discriminate|].
    intros (z & Hin & _). inversion Hin.
  - case_bool_decide as Hin.
    + split.
      * rewrite IHsome. split; intros (c & Hc & Hfresh).
        -- exists c. split; [now right | exact Hfresh].
        -- exists c. split; [|exact Hfresh].
           apply elem_of_cons in Hc as [Heq|Hc]; [|exact Hc].
           injection Heq as ->. contradiction.
      * intros c ids' Hrun. destruct (IHfresh c ids' Hrun) as (Hc & Hrest).
        split; [now right | exact Hrest].
    + split.
      * split; [|eauto]. intros _. exists z. split; [now left | exact Hin].
      * intros c ids' [= <- <-]. split; [now left|]. split; [exact Hin | reflexivity].
  - split.
    + rewrite IHsome. split; intros (c & Hc & Hfresh); exists c.
      * split; [now right | exact Hfresh].
      * split; [|exact Hfresh].
        apply elem_of_cons in Hc as [Heq|Hc]; [discriminate | exact Hc].
    + intros c ids' Hrun. destruct (IHfresh c ids' Hrun) as (Hc & Hrest).
      split; [now right | exact Hrest].
Qed.

(** X18.  Two controllers never get the same id: an id returned by
    [GenerateControllerID] differs from every id returned by a later call
    on a set that holds what the earlier call left, and no id leaves the
    set. *)
Theorem GenerateControllerID_ids_differ (ids0 ids1 ids2 ids3 : gset string)
  (draws1 draws2 : list (option Z)) (id1 id2 : Z) :
  GenerateControllerID ids0 draws1 = Some (id1, ids1) ->
  ids1 ⊆ ids2 ->
  GenerateControllerID ids2 draws2 = Some (id2, ids3) ->
  id1 ≠ id2 ∧ ids2 ⊆ ids3.
Proof.
  intros Hfirst Hgrow Hsecond.
  apply GenerateControllerID_is_fresh_aux in Hfirst as (Hin1 & _ & ->).
  apply GenerateControllerID_is_fresh_aux in Hsecond as (Hin2 & Hfresh2 & ->).
  split; [|set_solver].
  intros <-. apply Hfresh2. apply Hgrow. set_solver.
Qed.

(** ** The static pipeline *)

Lemma wrap64_inj (g : Z) (i n : nat) :
  (Z.of_nat i < 2 ^ 64)%Z -> (Z.of_nat n < 2 ^ 64)%Z ->
  wrap64 (g + Z.of_nat i) = wrap64 (g + Z.of_nat n) -> i = n.
Proof.
  unfold wrap64. intros Hi Hn Heq.
  assert (Hdiff : ((g + Z.of_nat i) - (g + Z.of_nat n)) mod 2 ^ 64 = 0).
  { rewrite Zminus_mod, Heq, Z.sub_diag. reflexivity. }
  replace (g + Z.of_nat i - (g + Z.of_nat n)) with (Z.of_nat i - Z.of_nat n) in Hdiff by lia.
  apply Z.mod_divide in Hdiff; [|lia]. destruct Hdiff as [q Hq].
  assert (q = 0) by nia. lia.
Qed.

(** The id of the next flow is the id of no flow of the pipeline. *)
Lemma pipelineWith_fresh (U : Prop) (g : Z) (n : nat) (sw : ofctrl.OFSwitch)
  (a : ofctrl.FlowAction) :
  (Z.of_nat n < 2 ^ 64)%Z ->
  pipelineWith U g n sw ->
  map (ofctrl.setAction (ofctrl.globalFlowID sw) a) (ofctrl.Flows sw) = ofctrl.Flows sw.
Proof.
  intros Hn (Hid & Hids & _).
  assert (Hfresh : Forall (fun id => id ≠ ofctrl.globalFlowID sw)
                     (map ofctrl.FlowID (ofctrl.Flows sw))).
  { rewrite Hids, Hid. apply Forall_forall. intros id Hin.
    apply list_elem_of_fmap in Hin as (i & -> & Hi).
    apply elem_of_seq in Hi. intros Heq. apply wrap64_inj in Heq; lia. }
  clear Hids. induction (ofctrl.Flows sw) as [|f flows IH]; [reflexivity|].
  simpl in *. inversion Hfresh; subst. rewrite IH by assumption. f_equal.
  unfold ofctrl.setAction. now rewrite bool_decide_eq_false_2.
Qed.

(** One more flow of the pipeline, installed. *)
Lemma pipelineWith_pushFlow (U : Prop) (g : Z) (n : nat) (sw : ofctrl.OFSwitch) (t : Z)
  (m : ofctrl.FlowMatch) (a : ofctrl.FlowAction) :
  (Z.of_nat n < 2 ^ 64)%Z ->
  pipelineWith U g n sw ->
  actionMovesForward t a ->
  pipelineWith U g (S n) (pushFlow sw t m a).
Proof.
  intros Hn Hinv Ha.
  pose proof (pipelineWith_fresh U g n sw a Hn Hinv) as Hold.
  destruct Hinv as (Hid & Hids & Hforward).
  assert (Hflows : ofctrl.Flows (pushFlow sw t m a)
                   = (ofctrl.Flows sw
                      ++ [ofctrl.Build_Flow t m (ofctrl.globalFlowID sw) (Some a)])%list).
  { unfold pushFlow, ofctrl.install, ofctrl.addFlow, ofctrl.newFlowOf.
    cbn [ofctrl.Flows ofctrl.FlowID].
    rewrite map_app, Hold. cbn [map]. unfold ofctrl.setAction.
    cbn [ofctrl.FlowID ofctrl.Table ofctrl.Match].
    rewrite bool_decide_eq_true_2 by reflexivity. reflexivity. }
  unfold pipelineWith. rewrite Hflows. split; [|split].
  - unfold pushFlow, ofctrl.install, ofctrl.addFlow. cbn [ofctrl.globalFlowID].
    rewrite Hid. unfold wrap64. rewrite Zplus_mod_idemp_l. f_equal. lia.
  - rewrite map_app, seq_S, map_app, Hids, Hid. reflexivity.
  - apply Forall_app. split; [exact Hforward|]. apply Forall_singleton. exact Ha.
Qed.

(** One more flow of the pipeline, made and not installed. *)
Lemma pipelineWith_addFlow (U : Prop) (g : Z) (n : nat) (sw : ofctrl.OFSwitch) (t : Z)
  (m : ofctrl.FlowMatch) :
  U ->
  pipelineWith U g n sw ->
  pipelineWith U g (S n) (ofctrl.addFlow sw (ofctrl.newFlowOf sw t m)).
Proof.
  intros HU (Hid & Hids & Hforward).
  unfold pipelineWith, ofctrl.addFlow, ofctrl.newFlowOf.
  cbn [ofctrl.Flows ofctrl.globalFlowID]. split; [|split].
  - rewrite Hid. unfold wrap64. rewrite Zplus_mod_idemp_l. f_equal. lia.
  - rewrite map_app, seq_S, map_app, Hids, Hid. reflexivity.
  - apply Forall_app. split; [exact Hforward|]. apply Forall_singleton. exact HU.
Qed.

(** One more flow of a pipeline whose flows are all installed. *)
Lemma pipelineOf_pushFlow (g : Z) (n : nat) (sw : ofctrl.OFSwitch) (t : Z)
  (m : ofctrl.FlowMatch) (a : ofctrl.FlowAction) :
  (Z.of_nat n < 2 ^ 64)%Z ->
  pipelineOf g n sw ->
  actionMovesForward t a ->
  pipelineOf g (S n) (pushFlow sw t m a).
Proof. exact (pipelineWith_pushFlow False g n sw t m a). Qed.

(** [flow, _ := table.NewFlow(match); err := flow.Next(elem)] without an
    error is one more flow. *)
Lemma flowTo_pushFlow (sw sw' : ofctrl.OFSwitch) (t : Z) (m : ofctrl.FlowMatch)
  (elem : ofctrl.FgraphElem) :
  flowTo sw (Some t) m (Done elem) = Done (sw', None) ->
  sw' = pushFlow sw t m (ofctrl.ActNext elem).
Proof.
  unfold flowTo, mustNewFlow, ofctrl.NewFlow, ofctrl.Next.
  destruct (ofctrl.NewFlowRefused sw t m); [discriminate|].
  rewrite !bind_Done. destruct (ofctrl.NextFails _ _ _); [discriminate|].
  now intros [= <-].
Qed.

Lemma mustNewFlow_Done (sw sw' : ofctrl.OFSwitch) (t : Z) (m : ofctrl.FlowMatch)
  (flow : ofctrl.Flow) :
  mustNewFlow sw (Some t) m = Done (sw', flow) ->
  sw' = ofctrl.addFlow sw (ofctrl.newFlowOf sw t m) ∧ flow = ofctrl.newFlowOf sw t m.
Proof.
  unfold mustNewFlow, ofctrl.NewFlow.
  destruct (ofctrl.NewFlowRefused sw t m); [discriminate|].
  rewrite bind_Done. now intros [= <- <-].
Qed.

(** [flow, _ := table.NewFlow(match); _ = flow.SetConntrack(action)]: one
    more flow, installed when the library took the action, left as it was
    made when it did not. *)
Lemma SetConntrack_pipeline (U : Prop) (g : Z) (n : nat) (sw : ofctrl.OFSwitch) (t : Z)
  (m : ofctrl.FlowMatch) (commit force : bool) (table zone : Z) :
  (Z.of_nat n < 2 ^ 64)%Z ->
  U ∨ SetConntrackAccepted ->
  pipelineWith U g n sw ->
  t < table ->
  pipelineWith U g (S n)
    (ofctrl.SetConntrack (ofctrl.addFlow sw (ofctrl.newFlowOf sw t m))
       (ofctrl.newFlowOf sw t m) commit force table zone).1.
Proof.
  intros Hn Hlib Hinv Hlt. unfold ofctrl.SetConntrack.
  destruct (ofctrl.SetConntrackFails _ _ _ _ _ _) eqn:Hfail; cbn [fst].
  - destruct Hlib as [HU | Haccepted]; [|rewrite Haccepted in Hfail; discriminate].
    apply pipelineWith_addFlow; assumption.
  - apply (pipelineWith_pushFlow U g n sw t m
             (ofctrl.ActConntrack commit force table zone) Hn Hinv Hlt).
Qed.

Lemma orElse_Done (step : outcome (ofctrl.OFSwitch * option error))
  (rest : ofctrl.OFSwitch -> outcome (ofctrl.OFSwitch * option error))
  (sw' : ofctrl.OFSwitch) :
  orElse step rest = Done (sw', None) ->
  exists sw1, step = Done (sw1, None) ∧ rest sw1 = Done (sw', None).
Proof.
  unfold orElse. intros Hrun.
  apply bind_Done_inv in Hrun as ([sw1 err] & Hstep & Hrun).
  destruct err; [discriminate|]. eauto.
Qed.

Lemma orFatal_Done (step : outcome (ofctrl.OFSwitch * option error))
  (sw' : ofctrl.OFSwitch) :
  orFatal step = Done sw' -> step = Done (sw', None).
Proof.
  unfold orFatal. intros Hrun.
  apply bind_Done_inv in Hrun as ([sw1 err] & Hstep & Hrun).
  destruct err; [discriminate|]. now injection Hrun as ->.
Qed.

(** The steps of a table initialisation that returned nil, one flow
    each. *)
Ltac pipeline_steps H :=
  repeat (apply orElse_Done in H as (? & ?Hstep & H));
  repeat match goal with
         | Hs : flowTo _ (Some _) _ (Done _) = Done (_, None) |- _ =>
             apply flowTo_pushFlow in Hs; subst
         end.

Ltac table_numbers :=
  unfold INPUT_TABLE, CT_STATE_TABLE, DIRECTION_SELECTION_TABLE,
    EGRESS_TIER0_TABLE, EGRESS_TIER1_TABLE, EGRESS_TIER2_TABLE,
    INGRESS_TIER0_TABLE, INGRESS_TIER1_TABLE, INGRESS_TIER2_TABLE,
    CT_COMMIT_TABLE, SFC_POLICY_TABLE, POLICY_FORWARDING_TABLE.

Ltac pipeline_grows :=
  repeat (apply pipelineWith_pushFlow;
          [simpl; lia| |simpl; table_numbers; try lia; exact I]).

Lemma initInputTable_pipeline (U : Prop) (p : PolicyBridge) (sw sw' : ofctrl.OFSwitch)
  (g : Z) (n : nat) :
  (n < 100)%nat -> U ∨ SetConntrackAccepted ->
  pipelineTablesReady p -> pipelineWith U g n sw ->
  initInputTable p sw = Done (sw', None) ->
  pipelineWith U g (4 + n) sw'.
Proof.
  intros Hn Hlib (_ & Hin & _) Hinv Hrun. unfold initInputTable in Hrun.
  rewrite Hin in Hrun.
  apply bind_Done_inv in Hrun as ([sw1 flow] & Hnew & Hrun).
  apply mustNewFlow_Done in Hnew as [-> ->].
  pose proof (SetConntrack_pipeline U g n sw INPUT_TABLE
                (ofctrl.withEthertype PROTOCOL_IP
                   (ofctrl.matchPriority HIGH_MATCH_FLOW_PRIORITY))
                false false CT_STATE_TABLE policyConntrackZone
                ltac:(lia) Hlib Hinv ltac:(table_numbers; lia)) as Hct.
  destruct (ofctrl.SetConntrack _ _ false false CT_STATE_TABLE policyConntrackZone)
    as [sw1 err1]. cbn [fst] in Hct.
  pipeline_steps Hrun.
  simpl plus. pipeline_grows. exact Hct.
Qed.

Lemma initCTFlow_pipeline (U : Prop) (p : PolicyBridge) (sw sw' : ofctrl.OFSwitch)
  (g : Z) (n : nat) :
  (n < 100)%nat -> U ∨ SetConntrackAccepted ->
  pipelineTablesReady p -> pipelineWith U g n sw ->
  initCTFlow p sw = Done (sw', None) ->
  pipelineWith U g (5 + n) sw'.
Proof.
  intros Hn Hlib ((_ & _ & _ & _ & _ & _ & Hct) & _ & Hst & Hdir & Hsfc & _) Hinv Hrun.
  unfold initCTFlow in Hrun. rewrite Hct, Hst, Hdir, Hsfc in Hrun. simpl tableElem in Hrun.
  apply orElse_Done in Hrun as (sw1 & Hs1 & Hrun).
  apply orElse_Done in Hrun as (sw2 & Hs2 & Hrun).
  apply flowTo_pushFlow in Hs1, Hs2. subst sw1 sw2.
  apply bind_Done_inv in Hrun as ([sw3 err] & Hs3 & Hrun).
  destruct err; [discriminate|]. apply flowTo_pushFlow in Hs3. subst sw3.
  apply bind_Done_inv in Hrun as ([sw4 flow] & Hnew & Hrun).
  apply mustNewFlow_Done in Hnew as [-> ->].
  match type of Hrun with
  | context [ofctrl.SetConntrack (ofctrl.addFlow ?s (ofctrl.newFlowOf ?s ?t ?m)) _
               ?c ?f ?tb ?z] =>
      assert (Hcommit : pipelineWith U g (S (3 + n))
                (ofctrl.SetConntrack (ofctrl.addFlow s (ofctrl.newFlowOf s t m))
                   (ofctrl.newFlowOf s t m) c f tb z).1);
      [ apply SetConntrack_pipeline;
        [ simpl; lia | exact Hlib | | table_numbers; lia ]
      | destruct (ofctrl.SetConntrack (ofctrl.addFlow s (ofctrl.newFlowOf s t m))
                    (ofctrl.newFlowOf s t m) c f tb z) as [sw4 err4] ]
  end.
  - simpl plus. pipeline_grows. exact Hinv.
  - cbn [fst] in Hcommit. apply flowTo_pushFlow in Hrun. subst sw'.
    simpl plus. pipeline_grows. exact Hcommit.
Qed.

Lemma initDirectionSelectionTable_pipeline (U : Prop) (p : PolicyBridge)
  (sw sw' : ofctrl.OFSwitch) (g : Z) (n : nat) :
  (n < 100)%nat -> pipelineTablesReady p -> pipelineWith U g n sw ->
  initDirectionSelectionTable p sw = Done (sw', None) ->
  pipelineWith U g (2 + n) sw'.
Proof.
  intros Hn ((He0 & _ & _ & Hi0 & _) & _ & _ & Hdir & _) Hinv Hrun.
  unfold initDirectionSelectionTable in Hrun. rewrite He0, Hi0, Hdir in Hrun.
  simpl tableElem in Hrun.
  pipeline_steps Hrun.
  simpl plus. pipeline_grows. exact Hinv.
Qed.

Lemma initPolicyTable_pipeline (U : Prop) (p : PolicyBridge) (sw sw' : ofctrl.OFSwitch)
  (g : Z) (n : nat) :
  (n < 100)%nat -> pipelineTablesReady p -> pipelineWith U g n sw ->
  initPolicyTable p sw = Done (sw', None) ->
  pipelineWith U g (7 + n) sw'.
Proof.
  intros Hn ((He0 & He1 & He2 & Hi0 & Hi1 & Hi2 & Hct) & _ & _ & _ & Hsfc & Hfwd)
    Hinv Hrun.
  unfold initPolicyTable in Hrun. cbv zeta in Hrun.
  rewrite He0, He1, He2, Hi0, Hi1, Hi2, Hct, Hsfc, Hfwd in Hrun.
  simpl tableElem in Hrun.
  pipeline_steps Hrun.
  simpl plus. pipeline_grows. exact Hinv.
Qed.

Lemma initPolicyForwardingTable_pipeline (U : Prop) (p : PolicyBridge)
  (sw sw' : ofctrl.OFSwitch) (g : Z) (n : nat) :
  (n < 100)%nat -> pipelineTablesReady p -> pipelineWith U g n sw ->
  initPolicyForwardingTable p sw = Done (sw', None) ->
  pipelineWith U g (2 + n) sw'.
Proof.
  intros Hn (_ & _ & _ & _ & _ & Hfwd) Hinv Hrun.
  unfold initPolicyForwardingTable in Hrun. cbv zeta in Hrun. rewrite Hfwd in Hrun.
  pipeline_steps Hrun.
  simpl plus. pipeline_grows. exact Hinv.
Qed.

Lemma NewTable_keeps_flows (sw sw' : ofctrl.OFSwitch) (id : Z) (t : option Z) :
  ofctrl.NewTable sw id = (sw', t) ->
  t = Some id ∧ ofctrl.Flows sw' = ofctrl.Flows sw
  ∧ ofctrl.globalFlowID sw' = ofctrl.globalFlowID sw.
Proof. unfold ofctrl.NewTable. now intros [= <- <-]. Qed.

Lemma newTables_pipelineTablesReady (p p1 : PolicyBridge) (sw sw1 : ofctrl.OFSwitch) :
  newTables p sw = (sw1, p1) ->
  pipelineTablesReady p1
  ∧ ofctrl.Flows sw1 = ofctrl.Flows sw
  ∧ ofctrl.globalFlowID sw1 = ofctrl.globalFlowID sw.
Proof.
  unfold newTables. intros Heq.
  repeat match type of Heq with
         | context [ofctrl.NewTable ?s ?id] =>
             let Ht := fresh "Ht" in
             destruct (ofctrl.NewTable s id) as [? ?] eqn:Ht;
             apply NewTable_keeps_flows in Ht as (-> & ? & ?)
         end.
  inversion Heq; subst. split; [repeat split; reflexivity|]. split; congruence.
Qed.

(** [BridgeInit] on a switch without flows: twenty flows, made one after
    the other; each is installed, or may be left as it was made when
    [SetConntrack] can fail. *)
Lemma BridgeInit_pipelineWith (U : Prop) (p p' : PolicyBridge) (sw : ofctrl.OFSwitch) :
  U ∨ SetConntrackAccepted ->
  OfSwitch p = Some sw ->
  ofctrl.Flows sw = [] ->
  0 <= ofctrl.globalFlowID sw < 2 ^ 64 ->
  PolicyBridge_BridgeInit p = Done p' ->
  exists sw', OfSwitch p' = Some sw' ∧ pipelineWith U (ofctrl.globalFlowID sw) 20 sw'.
Proof.
  intros Hlib Hsw Hempty Hid Hinit. unfold PolicyBridge_BridgeInit in Hinit.
  unfold switchOf in Hinit. rewrite Hsw, bind_Done in Hinit.
  destruct (newTables p sw) as [sw0 p0] eqn:Hnew.
  apply newTables_pipelineTablesReady in Hnew as (Hready & Hflows & Hgid).
  assert (Hinv : pipelineWith U (ofctrl.globalFlowID sw) 0 sw0).
  { unfold pipelineWith. rewrite Hflows, Hgid, Hempty. simpl.
    split; [|split; [reflexivity | constructor]].
    unfold wrap64. rewrite Z.add_0_r, Z.mod_small; [reflexivity | exact Hid]. }
  apply bind_Done_inv in Hinit as (sw1 & H1 & Hinit). apply orFatal_Done in H1.
  apply bind_Done_inv in Hinit as (sw2 & H2 & Hinit). apply orFatal_Done in H2.
  apply bind_Done_inv in Hinit as (sw3 & H3 & Hinit). apply orFatal_Done in H3.
  apply bind_Done_inv in Hinit as (sw4 & H4 & Hinit). apply orFatal_Done in H4.
  apply bind_Done_inv in Hinit as (sw5 & H5 & Hinit). apply orFatal_Done in H5.
  injection Hinit as <-.
  apply (initInputTable_pipeline U _ _ _ _ 0%nat ltac:(lia) Hlib Hready Hinv) in H1.
  apply (initCTFlow_pipeline U _ _ _ _ 4%nat ltac:(lia) Hlib Hready H1) in H2.
  apply (initDirectionSelectionTable_pipeline U _ _ _ _ 9%nat ltac:(lia) Hready H2) in H3.
  apply (initPolicyTable_pipeline U _ _ _ _ 11%nat ltac:(lia) Hready H3) in H4.
  apply (initPolicyForwardingTable_pipeline U _ _ _ _ 18%nat ltac:(lia) Hready H4) in H5.
  exists sw5. split; [reflexivity | exact H5].
Qed.

(** With a [SetConntrack] that does not fail every flow is installed. *)
Lemma BridgeInit_pipelineOf (p p' : PolicyBridge) (sw : ofctrl.OFSwitch) :
  SetConntrackAccepted ->
  OfSwitch p = Some sw ->
  ofctrl.Flows sw = [] ->
  0 <= ofctrl.globalFlowID sw < 2 ^ 64 ->
  PolicyBridge_BridgeInit p = Done p' ->
  exists sw', OfSwitch p' = Some sw' ∧ pipelineOf (ofctrl.globalFlowID sw) 20 sw'.
Proof.
  intros Haccepted. exact (BridgeInit_pipelineWith False p p' sw (or_intror Haccepted)).
Qed.

(** X19.  The static pipeline moves forward.  On a switch that has no flow
    yet, a [BridgeInit] that returns has made twenty flows, and none of
    them sends a packet back: every installed flow outputs, drops, or
    sends the packet to a table with a higher number than its own.
    [BridgeInit] drops the error of its two [SetConntrack] calls, so a flow
    may be left as it was made; when [SetConntrack] of the library does
    not fail, all twenty flows are installed. *)
Theorem BridgeInit_pipeline_moves_forward (p p' : PolicyBridge) (sw : ofctrl.OFSwitch) :
  OfSwitch p = Some sw ->
  ofctrl.Flows sw = [] ->
  0 <= ofctrl.globalFlowID sw < 2 ^ 64 ->
  PolicyBridge_BridgeInit p = Done p' ->
  length (policyFlows p') = 20%nat
  ∧ Forall noBackwardJump (policyFlows p')
  ∧ (SetConntrackAccepted -> Forall movesForward (policyFlows p')).
Proof.
  intros Hsw Hempty Hid Hinit.
  destruct (BridgeInit_pipelineWith True p p' sw (or_introl I) Hsw Hempty Hid Hinit)
    as (sw' & Hsw' & _ & Hids & Hforward).
  unfold policyFlows. rewrite Hsw'. split; [|split].
  - apply (f_equal length) in Hids. rewrite !length_map, length_seq in Hids. exact Hids.
  - exact Hforward.
  - intros Haccepted.
    destruct (BridgeInit_pipelineOf p p' sw Haccepted Hsw Hempty Hid Hinit)
      as (sw'' & Hsw'' & _ & _ & Hall).
    rewrite Hsw' in Hsw''. injection Hsw'' as <-. exact Hall.
Qed.

(** X20.  A rule keeps the pipeline moving forward: on a bridge with the
    table handles of [BridgeInit] and a pipeline of [n] flows, an
    [AddMicroSegmentRule] that returns a flow entry leaves a pipeline of
    [n + 1] flows, every one of them installed and moving forward, and the
    table handles as they were. *)
Theorem AddMicroSegmentRule_keeps_pipeline (p p' : PolicyBridge) (sw : ofctrl.OFSwitch)
  (rule : EveroutePolicyRule) (direction tier : Z) (flowEntry : FlowEntry)
  (g : Z) (n : nat) :
  OfSwitch p = Some sw ->
  tablesReady p ->
  Z.of_nat n < 2 ^ 64 ->
  pipelineOf g n sw ->
  PolicyBridge_AddMicroSegmentRule p rule direction tier = Done (p', Ok flowEntry) ->
  tablesReady p'
  ∧ (exists sw', OfSwitch p' = Some sw' ∧ pipelineOf g (S n) sw')
  ∧ Forall movesForward (policyFlows p').
Proof.
  intros Hsw Hready Hn Hinv Hrun.
  assert (Hgoal : tablesReady p' ∧ exists sw', OfSwitch p' = Some sw' ∧ pipelineOf g (S n) sw').
  2:{ destruct Hgoal as (Hready' & sw' & Hsw' & Hinv'). split; [exact Hready'|].
      split; [eauto|]. unfold policyFlows. rewrite Hsw'. apply Hinv'. }
  unfold PolicyBridge_AddMicroSegmentRule in Hrun.
  apply bind_Done_inv in Hrun as (_ & _ & Hrun).
  destruct (PolicyBridge_GetTierTable p direction tier)
    as [[policyTable nextTable]|e0] eqn:Htier; [|discriminate].
  assert (Hslot : policyTable = None
                  ∨ exists t nx, policyTable = Some t ∧ nextTable = Some nx ∧ t < nx).
  { unfold PolicyBridge_GetTierTable in Htier.
    destruct Hready as (He0 & He1 & He2 & Hi0 & Hi1 & Hi2 & Hct).
    rewrite He0, He1, He2, Hi0, Hi1, Hi2, Hct in Htier.
    repeat case_bool_decide; inversion Htier; subst; clear Htier;
      first [ now left
            | right; eexists _, _; split; [reflexivity|]; split; [reflexivity|];
              unfold EGRESS_TIER0_TABLE, EGRESS_TIER1_TABLE, EGRESS_TIER2_TABLE,
                INGRESS_TIER0_TABLE, INGRESS_TIER1_TABLE, INGRESS_TIER2_TABLE,
                CT_COMMIT_TABLE; lia ]. }
  destruct (parseIfSet (DstIPAddr rule)) as [[ipDa ipDaMask]|e1]; [|discriminate].
  destruct (parseIfSet (SrcIPAddr rule)) as [[ipSa ipSaMask]|e2]; [|discriminate].
  unfold switchOf in Hrun. rewrite Hsw, bind_Done in Hrun.
  apply bind_Done_inv in Hrun as ([sw1 r1] & Hnew & Hrun).
  destruct Hslot as [-> | (t & nx & -> & -> & Hlt)]; [discriminate|].
  unfold ofctrl.NewFlow in Hnew.
  destruct (ofctrl.NewFlowRefused sw t _); inversion Hnew; subst; clear Hnew;
    [discriminate|].
  assert (Hinstall : forall elem,
             actionMovesForward t (ofctrl.ActNext elem) ->
             installRuleFlow p (ofctrl.addFlow sw (ofctrl.newFlowOf sw t
               (ruleMatch rule ipDa ipDaMask ipSa ipSaMask))) (Some t)
               (ofctrl.newFlowOf sw t (ruleMatch rule ipDa ipDaMask ipSa ipSaMask)) elem
             = (p', Ok flowEntry) ->
             tablesReady p'
             ∧ exists sw', OfSwitch p' = Some sw' ∧ pipelineOf g (S n) sw').
  { intros elem Helem. unfold installRuleFlow, ofctrl.Next.
    destruct (ofctrl.NextFails _ _ _); intros [= <- _].
    split; [exact Hready|]. eexists. split; [reflexivity|].
    exact (pipelineOf_pushFlow g n sw t _ _ Hn Hinv Helem). }
  repeat case_bool_decide.
  - simpl in Hrun. injection Hrun as Hrun. exact (Hinstall (ofctrl.ElemTable nx) Hlt Hrun).
  - injection Hrun as Hrun. exact (Hinstall ofctrl.ElemDrop I Hrun).
  - discriminate.
Qed.

(** ** The internal whitelist *)

Context (InternalWhitelistPriority : Z).

Local Abbreviation ingressRule := (newInternalIngressRule InternalWhitelistPriority).
Local Abbreviation egressRule := (newInternalEgressRule InternalWhitelistPriority).

(** The id of an internal rule tells its direction and its IP. *)
Lemma internal_rule_ids (a b : string) :
  RuleID (ingressRule a) ≠ RuleID (egressRule b)
  ∧ (RuleID (ingressRule a) = RuleID (ingressRule b) -> a = b)
  ∧ (RuleID (egressRule a) = RuleID (egressRule b) -> a = b).
Proof.
  simpl. repeat split; [discriminate| |]; intros Heq; now simplify_eq.
Qed.

(** [AddEveroutePolicyRule] that returns nil leaves the other ids alone. *)
Lemma AddEveroutePolicyRule_other_ids (dp dp' : Manager) (rule : EveroutePolicyRule)
  (direction tier : Z) (other : string) :
  AddEveroutePolicyRule dp rule direction tier = Done (dp', None) ->
  other ≠ RuleID rule ->
  Rules dp' !! other = Rules dp !! other.
Proof.
  unfold AddEveroutePolicyRule. intros Hrun Hne.
  apply bind_Done_inv in Hrun as (_ & _ & Hrun).
  destruct (match Rules dp !! RuleID rule with
            | Some entry => RuleIsSame (EntryRule entry) rule
            | None => false
            end); [now inversion Hrun|].
  apply bind_Done_inv in Hrun as ([chains r] & _ & Hrun).
  destruct r as [ruleFlowMap|e]; inversion Hrun; subst. simpl.
  now apply lookup_insert_ne.
Qed.

(** A rule that is registered under an id stays registered under it when
    every rule added under that id is that rule. *)
Lemma AddEveroutePolicyRule_keeps_rule (dp dp' : Manager)
  (rule rule0 : EveroutePolicyRule) (direction tier : Z) (ruleID : string) :
  IsBridgesConnected dp = true ->
  AddEveroutePolicyRule dp rule direction tier = Done (dp', None) ->
  (RuleID rule = ruleID -> rule = rule0) ->
  EntryRule <$> Rules dp !! ruleID = Some rule0 ->
  EntryRule <$> Rules dp' !! ruleID = Some rule0.
Proof.
  intros Hconn Hrun Hsame Hreg.
  destruct (decide (ruleID = RuleID rule)) as [->|Hne].
  - destruct (AddEveroutePolicyRule_registers _ _ _ _ _ Hconn Hrun)
      as (_ & entry & Hentry & Hrule).
    rewrite Hentry. simpl. now rewrite Hrule, (Hsame eq_refl).
  - now rewrite (AddEveroutePolicyRule_other_ids _ _ _ _ _ _ Hrun Hne).
Qed.

Lemma addInternalRules_keeps_rule (dp dp' : Manager) (internalIPs : list string)
  (rule0 : EveroutePolicyRule) (ruleID : string) :
  IsBridgesConnected dp = true ->
  addInternalRules InternalWhitelistPriority dp internalIPs = Done dp' ->
  (forall ip, RuleID (ingressRule ip) = ruleID -> ingressRule ip = rule0) ->
  (forall ip, RuleID (egressRule ip) = ruleID -> egressRule ip = rule0) ->
  EntryRule <$> Rules dp !! ruleID = Some rule0 ->
  EntryRule <$> Rules dp' !! ruleID = Some rule0.
Proof.
  intros Hconn Hrun Hin Hout. revert dp Hconn Hrun.
  induction internalIPs as [|ip rest IH]; intros dp Hconn Hrun Hreg.
  - now inversion Hrun; subst.
  - simpl in Hrun.
    apply bind_Done_inv in Hrun as ([dp1 err1] & Hadd1 & Hrun).
    destruct err1; [discriminate|].
    apply bind_Done_inv in Hrun as ([dp2 err2] & Hadd2 & Hrun).
    destruct err2; [discriminate|].
    pose proof (AddEveroutePolicyRule_registers _ _ _ _ _ Hconn Hadd1) as [Hconn1 _].
    pose proof (AddEveroutePolicyRule_registers _ _ _ _ _ Hconn1 Hadd2) as [Hconn2 _].
    apply (IH dp2 Hconn2 Hrun).
    apply (AddEveroutePolicyRule_keeps_rule dp1 dp2 _ rule0 _ _ ruleID Hconn1 Hadd2);
      [apply Hout|].
    apply (AddEveroutePolicyRule_keeps_rule dp dp1 _ rule0 _ _ ruleID Hconn Hadd1);
      [apply Hin | exact Hreg].
Qed.

(** X21.  The whitelist loop of [InitializeDatapath]: when it returns,
    [Rules] has for every internal IP the ingress rule under
    "internal-ingress-<ip>" and the egress rule under
    "internal-egress-<ip>", both with action allow; the rules under every
    other id are as before. *)
Theorem addInternalRules_registers_whitelist (dp dp' : Manager)
  (internalIPs : list string) :
  IsBridgesConnected dp = true ->
  addInternalRules InternalWhitelistPriority dp internalIPs = Done dp' ->
  (forall ip, ip ∈ internalIPs ->
     EntryRule <$> Rules dp' !! ("internal-ingress-" ++ ip) = Some (ingressRule ip)
     ∧ EntryRule <$> Rules dp' !! ("internal-egress-" ++ ip) = Some (egressRule ip)
     ∧ Action (ingressRule ip) = "allow" ∧ Action (egressRule ip) = "allow")
  ∧ (forall ruleID,
       (forall ip, ip ∈ internalIPs ->
                   ruleID ≠ "internal-ingress-" ++ ip ∧ ruleID ≠ "internal-egress-" ++ ip) ->
       Rules dp' !! ruleID = Rules dp !! ruleID).
Proof.
  revert dp.
  induction internalIPs as [|ip rest IH]; intros dp Hconn Hrun.
  - inversion Hrun; subst. split; [intros ? Hin; inversion Hin | reflexivity].
  - simpl in Hrun.
    apply bind_Done_inv in Hrun as ([dp1 err1] & Hadd1 & Hrun).
    destruct err1; [discriminate|].
    apply bind_Done_inv in Hrun as ([dp2 err2] & Hadd2 & Hrun).
    destruct err2; [discriminate|].
    destruct (AddEveroutePolicyRule_registers _ _ _ _ _ Hconn Hadd1)
      as (Hconn1 & entry1 & Hentry1 & Hrule1).
    destruct (AddEveroutePolicyRule_registers _ _ _ _ _ Hconn1 Hadd2)
      as (Hconn2 & entry2 & Hentry2 & Hrule2).
    destruct (IH dp2 Hconn2 Hrun) as [Hrest Hothers]. split.
    + intros ip' Hin. apply elem_of_cons in Hin as [->|Hin]; [|now apply Hrest].
      split; [|split; [|split; reflexivity]].
      * apply (addInternalRules_keeps_rule dp2 dp' rest _ _ Hconn2 Hrun).
        -- intros ip' Heq. now apply internal_rule_ids in Heq as ->.
        -- intros ip' Heq. symmetry in Heq. now apply internal_rule_ids in Heq.
        -- apply (AddEveroutePolicyRule_keeps_rule dp1 dp2 _ _ _ _ _ Hconn1 Hadd2).
           ++ intros Heq. symmetry in Heq. now apply internal_rule_ids in Heq.
           ++ change ("internal-ingress-" ++ ip) with (RuleID (ingressRule ip)).
              rewrite Hentry1. simpl. now rewrite Hrule1.
      * apply (addInternalRules_keeps_rule dp2 dp' rest _ _ Hconn2 Hrun).
        -- intros ip' Heq. now apply internal_rule_ids in Heq.
        -- intros ip' Heq. now apply internal_rule_ids in Heq as ->.
        -- change ("internal-egress-" ++ ip) with (RuleID (egressRule ip)).
           rewrite Hentry2. simpl. now rewrite Hrule2.
    + intros ruleID Hnot.
      rewrite Hothers by (intros ip' Hin; apply Hnot; now right).
      destruct (Hnot ip) as [Hne1 Hne2]; [now left|].
      rewrite (AddEveroutePolicyRule_other_ids _ _ _ _ _ _ Hadd2) by exact Hne2.
      now rewrite (AddEveroutePolicyRule_other_ids _ _ _ _ _ _ Hadd1) by exact Hne1.
Qed.

End Lifecycle.

(** * The further properties on concrete states *)

(** Removing [veth2], which is not registered. *)
Lemma RemoveLocalEndpoint_unknown_example :
  RemoveLocalEndpoint example.manager example2.veth2
  = Done (example.manager, Some (ErrEndpointNotFound "veth2")).
Proof.
  apply (RemoveLocalEndpoint_unknown_endpoint example.manager example2.veth2);
    vm_compute; reflexivity.
Defined.

(** Adding [veth2]: registered, and its two flows on the LOCAL bridge. *)
Lemma AddLocalEndpoint_registers_example :
  exists dp',
    AddLocalEndpoint example.manager example2.veth2 = Done (dp', None)
    ∧ localEndpointDB dp' !! "veth2" = Some example2.veth2.
Proof.
  destruct (AddLocalEndpoint_registers_first example.manager example2.veth2 "v0"
              example.chain
              {| localmodel.connected := true; localmodel.round := 1;
                 localmodel.flows :=
                   map (pair 1) (localmodel.endpointFlows example.veth0
                                 ++ localmodel.endpointFlows example.veth1
                                 ++ localmodel.endpointFlows example2.veth2) |}
              None)
    as (dp' & Hrun & Hreg & _); try (vm_compute; reflexivity).
  exists dp'. split; [exact Hrun | exact Hreg].
Defined.

(** Adding [veth2] and removing it again. *)
Lemma AddLocalEndpoint_then_Remove_example :
  exists dp1 dp2,
    AddLocalEndpoint example.manager example2.veth2 = Done (dp1, None)
    ∧ RemoveLocalEndpoint dp1 example2.veth2 = Done (dp2, None)
    ∧ localEndpointDB dp2 = localEndpointDB example.manager.
Proof.
  destruct (AddLocalEndpoint_then_RemoveLocalEndpoint example.manager example2.veth2
              "v0" example.chain
              {| localmodel.connected := true; localmodel.round := 1;
                 localmodel.flows :=
                   map (pair 1) (localmodel.endpointFlows example.veth0
                                 ++ localmodel.endpointFlows example.veth1
                                 ++ localmodel.endpointFlows example2.veth2) |}
              example.local)
    as (dp1 & dp2 & Hadd & Hremove & Hdb & _); try (vm_compute; reflexivity).
  exists dp1, dp2. auto.
Defined.

(** Updating the unregistered [veth2] towards the unmanaged [br9]. *)
Lemma UpdateLocalEndpoint_unmanaged_example :
  localEndpointDB example.manager !! "veth2" = None
  ∧ UpdateLocalEndpoint example.manager example2.veth2away example2.veth2
    = Done (example.manager, None).
Proof.
  split; [vm_compute; reflexivity|].
  apply (UpdateLocalEndpoint_unmanaged_bridge_is_silent example.manager
           example2.veth2away example2.veth2); [vm_compute; reflexivity|].
  intros vdsID ovsbrname Hin. simpl in Hin.
  apply list_elem_of_singleton in Hin. injection Hin as _ ->. discriminate.
Defined.

(** [veth1] moves to port 18 and keeps its learned IP 10.0.0.8. *)
Lemma UpdateLocalEndpoint_same_name_example :
  exists dp',
    UpdateLocalEndpoint example.manager example2.veth1moved example.veth1
    = Done (dp', None)
    ∧ (IPAddr <$> localEndpointDB dp' !! "veth1") = Some [10; 0; 0; 8]
    ∧ (PortNo <$> localEndpointDB dp' !! "veth1") = Some 18.
Proof.
  destruct (UpdateLocalEndpoint_same_name example.manager example2.veth1moved
              example.veth1 example.veth1 "v0" example.chain
              {| localmodel.connected := true; localmodel.round := 1;
                 localmodel.flows :=
                   map (pair 1) (localmodel.endpointFlows example.veth0) |}
              {| localmodel.connected := true; localmodel.round := 1;
                 localmodel.flows :=
                   map (pair 1)
                     (localmodel.endpointFlows example.veth0
                      ++ localmodel.endpointFlows
                           (withIPAddr example2.veth1moved [10; 0; 0; 8])) |})
    as (dp' & Hrun & Hdb); try (vm_compute; reflexivity).
  exists dp'. split; [exact Hrun|]. rewrite Hdb. split; vm_compute; reflexivity.
Defined.

(** The same update as a removal and an addition. *)
Lemma UpdateLocalEndpoint_is_remove_then_add_example :
  exists dp1 dp2,
    RemoveLocalEndpoint example.manager example.veth1 = Done (dp1, None)
    ∧ AddLocalEndpoint dp1 (withIPAddr example2.veth1moved [10; 0; 0; 8])
      = Done (dp2, None)
    ∧ UpdateLocalEndpoint example.manager example2.veth1moved example.veth1
      = Done (dp2, None).
Proof.
  exact (UpdateLocalEndpoint_is_remove_then_add example.manager example2.veth1moved
           example.veth1 example.veth1 "v0" example.chain
           {| localmodel.connected := true; localmodel.round := 1;
              localmodel.flows :=
                map (pair 1) (localmodel.endpointFlows example.veth0) |}
           {| localmodel.connected := true; localmodel.round := 1;
              localmodel.flows :=
                map (pair 1)
                  (localmodel.endpointFlows example.veth0
                   ++ localmodel.endpointFlows
                        (withIPAddr example2.veth1moved [10; 0; 0; 8])) |}
           eq_refl eq_refl eq_refl eq_refl eq_refl eq_refl eq_refl eq_refl eq_refl).
Defined.

(** Egress tier 1 on the example bridge: table 25, then table 70. *)
Lemma GetTierTable_answers_example :
  PolicyBridge_GetTierTable example.policy POLICY_DIRECTION_OUT POLICY_TIER1
  = Ok (Some 25, Some 70)
  ∧ (25 : Z) < 70.
Proof.
  pose proof (GetTierTable_answers example.policy POLICY_DIRECTION_OUT POLICY_TIER1
                ltac:(repeat split; reflexivity)) as Hanswer.
  split; [reflexivity|]. exact (proj1 Hanswer).
Defined.

(** The bridge of [br0] once connected and initialised takes R1. *)
Lemma AddMicroSegmentRule_returns_example :
  exists p'' r,
    PolicyBridge_AddMicroSegmentRule example.policy example.R1
      POLICY_DIRECTION_OUT POLICY_TIER1
    = Done (p'', r).
Proof.
  apply (AddMicroSegmentRule_returns_after_BridgeInit
           (PolicyBridge_SwitchConnected (NewPolicyBridge "br0") example.freshSwitch)
           example.policy example.R1 Egress Tier1);
    [reflexivity | vm_compute; reflexivity].
Defined.

(** R1 on the example bridge: twenty flows before, twenty-one after. *)
Lemma AddMicroSegmentRule_keeps_flows_example :
  exists p' flowEntry,
    PolicyBridge_AddMicroSegmentRule example.policy example.R1
      POLICY_DIRECTION_OUT POLICY_TIER1
    = Done (p', Ok flowEntry)
    ∧ length (policyFlows example.policy) = 20%nat
    ∧ length (policyFlows p') = 21%nat
    ∧ map flowKey (policyFlows example.policy) `prefix_of` map flowKey (policyFlows p').
Proof.
  destruct (PolicyBridge_AddMicroSegmentRule example.policy example.R1
              POLICY_DIRECTION_OUT POLICY_TIER1) as [[p' [flowEntry|e]]| |] eqn:Hrun;
    try (vm_compute in Hrun; discriminate).
  destruct (AddMicroSegmentRule_keeps_flows _ _ _ _ _ _ Hrun) as (Hprefix & _ & Hlen).
  exists p', flowEntry. split; [reflexivity|]. split; [reflexivity|].
  split; [exact (Hlen flowEntry eq_refl) | exact Hprefix].
Defined.

(** The pipeline of the example bridge, whose library takes every
    conntrack action: twenty flows, all installed and forward. *)
Lemma BridgeInit_pipeline_example :
  length (policyFlows example.policy) = 20%nat
  ∧ Forall noBackwardJump (policyFlows example.policy)
  ∧ Forall movesForward (policyFlows example.policy).
Proof.
  assert (Hinit : PolicyBridge_BridgeInit
                    (PolicyBridge_SwitchConnected (NewPolicyBridge "br0") example.freshSwitch)
                  = Done example.policy) by (vm_compute; reflexivity).
  assert (H64 : 0 <= ofctrl.globalFlowID example.freshSwitch < 2 ^ 64) by (simpl; lia).
  pose proof (BridgeInit_pipeline_moves_forward
                (PolicyBridge_SwitchConnected (NewPolicyBridge "br0") example.freshSwitch)
                example.policy example.freshSwitch eq_refl eq_refl H64 Hinit)
    as (Hlen & Hno & Hall).
  split; [exact Hlen|]. split; [exact Hno|].
  apply Hall. intros sw flow commit force table zone. reflexivity.
Defined.

(** The same bridge on a switch that takes no conntrack action:
    [BridgeInit] returns all the same, with twenty flows of which the two
    conntrack flows, of tables 0 and 70, are not installed. *)
Lemma BridgeInit_conntrack_refused_example :
  exists p',
    PolicyBridge_BridgeInit (ofLib := ctrefused.Lib)
      (PolicyBridge_SwitchConnected (NewPolicyBridge "br0") example.freshSwitch)
    = Done p'
    ∧ length (policyFlows p') = 20%nat
    ∧ map ofctrl.Table
        (List.filter (fun f => match ofctrl.Action f with None => true | Some _ => false end)
           (policyFlows p'))
      = [INPUT_TABLE; CT_COMMIT_TABLE].
Proof.
  eexists. split; [vm_compute; reflexivity|]. split; vm_compute; reflexivity.
Qed.

(** R1 on the example bridge: twenty-one flows, all forward. *)
Lemma AddMicroSegmentRule_keeps_pipeline_example :
  exists p' flowEntry,
    PolicyBridge_AddMicroSegmentRule example.policy example.R1
      POLICY_DIRECTION_OUT POLICY_TIER1
    = Done (p', Ok flowEntry)
    ∧ tablesReady p'
    ∧ length (policyFlows p') = 21%nat
    ∧ Forall movesForward (policyFlows p').
Proof.
  destruct (PolicyBridge_AddMicroSegmentRule example.policy example.R1
              POLICY_DIRECTION_OUT POLICY_TIER1) as [[p' [flowEntry|e]]| |] eqn:Hrun;
    try (vm_compute in Hrun; discriminate).
  exists p', flowEntry. split; [reflexivity|].
  assert (Hinit : PolicyBridge_BridgeInit
                    (PolicyBridge_SwitchConnected (NewPolicyBridge "br0") example.freshSwitch)
                  = Done example.policy) by (vm_compute; reflexivity).
  assert (H64 : 0 <= ofctrl.globalFlowID example.freshSwitch < 2 ^ 64) by (simpl; lia).
  assert (Hn : Z.of_nat 20 < 2 ^ 64) by (simpl; lia).
  assert (Haccepted : SetConntrackAccepted)
    by (intros sw flow commit force table zone; reflexivity).
  pose proof (BridgeInit_pipelineOf
                (PolicyBridge_SwitchConnected (NewPolicyBridge "br0") example.freshSwitch)
                example.policy example.freshSwitch Haccepted eq_refl eq_refl H64 Hinit)
    as (sw & Hsw & Hinv).
  pose proof (AddMicroSegmentRule_keeps_pipeline example.policy p' sw example.R1
                POLICY_DIRECTION_OUT POLICY_TIER1 flowEntry 1 20 Hsw
                (proj1 (BridgeInit_tablesReady _ _ Hinit)) Hn Hinv Hrun)
    as (Hready & (sw' & Hsw' & _ & Hids & _) & Hforward).
  split; [exact Hready|]. split; [|exact Hforward].
  unfold policyFlows. rewrite Hsw'.
  apply (f_equal length) in Hids. rewrite !length_map, length_seq in Hids. exact Hids.
Defined.

(** A rule with a destination that does not parse is not registered. *)
Lemma AddEveroutePolicyRule_error_example :
  exists dp',
    AddEveroutePolicyRule example.manager example.R1badDst
      POLICY_DIRECTION_OUT POLICY_TIER1
    = Done (dp', Some ErrFailedToParseIP)
    ∧ Rules dp' = Rules example.manager.
Proof.
  destruct (AddEveroutePolicyRule example.manager example.R1badDst
              POLICY_DIRECTION_OUT POLICY_TIER1) as [[dp' [e|]]| |] eqn:Hrun;
    try (vm_compute in Hrun; discriminate).
  assert (He : e = ErrFailedToParseIP) by (vm_compute in Hrun; congruence).
  subst e. exists dp'. split; [reflexivity|].
  exact (proj1 (AddEveroutePolicyRule_error_keeps_registry _ _ _ _ _ _ Hrun)).
Defined.

(** R1 on the example manager: one VDS, one recorded flow. *)
Lemma AddEveroutePolicyRule_records_example :
  exists dp' entry,
    AddEveroutePolicyRule example.manager example.R1 POLICY_DIRECTION_OUT POLICY_TIER1
    = Done (dp', None)
    ∧ Rules dp' !! "R1" = Some entry
    ∧ is_Some (RuleFlowMap entry !! "v0").
Proof.
  destruct (AddEveroutePolicyRule example.manager example.R1
              POLICY_DIRECTION_OUT POLICY_TIER1) as [[dp' [e|]]| |] eqn:Hrun;
    try (vm_compute in Hrun; discriminate).
  destruct (AddEveroutePolicyRule_records_a_flow_per_vds example.manager dp' example.R1
              POLICY_DIRECTION_OUT POLICY_TIER1) as (entry & Hrules & _ & Hflows);
    [intros entry Hentry; vm_compute in Hentry; discriminate | exact Hrun |].
  exists dp', entry. split; [reflexivity|]. split.
  - rewrite Hrules. apply lookup_insert_eq.
  - apply Hflows. simpl. apply list_elem_of_singleton. reflexivity.
Defined.

(** R1 added and removed again: the rule is gone from [Rules]. *)
Lemma RemoveEveroutePolicyRule_deletes_example :
  exists dp1 dp2,
    AddEveroutePolicyRule example.manager example.R1 POLICY_DIRECTION_OUT POLICY_TIER1
    = Done (dp1, None)
    ∧ RemoveEveroutePolicyRule dp1 example.R1 = Done (dp2, None)
    ∧ Rules dp2 = delete "R1" (Rules dp1).
Proof.
  destruct (AddEveroutePolicyRule example.manager example.R1
              POLICY_DIRECTION_OUT POLICY_TIER1) as [[dp1 [e|]]| |] eqn:Hadd;
    try (vm_compute in Hadd; discriminate).
  destruct (RemoveEveroutePolicyRule dp1 example.R1) as [[dp2 [e|]]| |] eqn:Hremove;
    try (vm_compute in Hadd; injection Hadd as <-; vm_compute in Hremove; discriminate).
  assert (Hconn : IsBridgesConnected example.manager = true) by (vm_compute; reflexivity).
  destruct (AddEveroutePolicyRule_registers example.manager dp1 example.R1
              POLICY_DIRECTION_OUT POLICY_TIER1 Hconn Hadd)
    as (_ & pRule & Hrule & _).
  exists dp1, dp2. split; [reflexivity|]. split; [exact Hremove|].
  exact (proj1 (RemoveEveroutePolicyRule_deletes_recorded_flows dp1 dp2 example.R1
                  pRule Hrule Hremove)).
Defined.

(** R1 added and removed again: [Rules] is empty as before. *)
Lemma AddEveroutePolicyRule_then_Remove_example :
  exists dp1 dp2,
    AddEveroutePolicyRule example.manager example.R1 POLICY_DIRECTION_OUT POLICY_TIER1
    = Done (dp1, None)
    ∧ RemoveEveroutePolicyRule dp1 example.R1 = Done (dp2, None)
    ∧ Rules dp2 = Rules example.manager.
Proof.
  destruct (AddEveroutePolicyRule example.manager example.R1
              POLICY_DIRECTION_OUT POLICY_TIER1) as [[dp1 [e|]]| |] eqn:Hadd;
    try (vm_compute in Hadd; discriminate).
  destruct (RemoveEveroutePolicyRule dp1 example.R1) as [[dp2 [e|]]| |] eqn:Hremove;
    try (vm_compute in Hadd; injection Hadd as <-; vm_compute in Hremove; discriminate).
  exists dp1, dp2. split; [reflexivity|]. split; [exact Hremove|].
  exact (proj1 (AddEveroutePolicyRule_then_Remove example.manager dp1 dp2 example.R1
                  POLICY_DIRECTION_OUT POLICY_TIER1 eq_refl Hadd Hremove)).
Defined.

(** After the reconnect of the POLICY bridge of [v0], the replay gives R1
    a flow for [v0] again. *)
Lemma ReplayVDSMicroSegmentFlow_example :
  exists dp' entry',
    ReplayVDSMicroSegmentFlow example2.reconnected "v0" = Done (dp', None)
    ∧ RuleFlowMap example2.R1entry !! "v0" = None
    ∧ Rules dp' !! "R1" = Some entry'
    ∧ EntryRule entry' = example.R1
    ∧ is_Some (RuleFlowMap entry' !! "v0").
Proof.
  destruct (ReplayVDSMicroSegmentFlow example2.reconnected "v0")
    as [[dp' [e|]]| |] eqn:Hrun; try (vm_compute in Hrun; discriminate).
  destruct (ReplayVDSMicroSegmentFlow_refreshes_every_rule _ _ _ Hrun "R1"
              example2.R1entry) as (entry' & Hentry' & Hintent & Hflow);
    [vm_compute; reflexivity|].
  exists dp', entry'. split; [reflexivity|]. split; [reflexivity|].
  split; [exact Hentry'|]. split; [|exact Hflow].
  now injection Hintent.
Defined.

(** The replay of the LOCAL bridge of [v0] leaves both endpoints
    registered. *)
Lemma replayVDSFlow_keeps_registries_example :
  exists dp',
    replayVDSFlow example.manager "v0" LOCAL_BRIDGE_KEYWORD = Done (dp', None)
    ∧ localEndpointDB dp' = localEndpointDB example.manager.
Proof.
  destruct (replayVDSFlow example.manager "v0" LOCAL_BRIDGE_KEYWORD)
    as [[dp' [e|]]| |] eqn:Hrun; try (vm_compute in Hrun; discriminate).
  exists dp'. split; [reflexivity|].
  exact (proj1 (replayVDSFlow_keeps_registries _ _ _ _ _ Hrun)).
Defined.

(** Round 41 was stored: the start reads (41, 42), persists 42, and the
    next start reads (42, 43); the key of the other owner is kept. *)
Lemma persistentRoundInfo_example :
  getRoundInfo example2.driver = Ok {| previousRoundNum := 41; curRoundNum := 42 |}
  ∧ exists driver',
      persistentRoundInfo example2.SetExternalIds 42 example2.driver = (driver', None)
      ∧ getRoundInfo driver' = Ok {| previousRoundNum := 42; curRoundNum := 43 |}.
Proof.
  assert (Hround : getRoundInfo example2.driver
                   = Ok {| previousRoundNum := 41; curRoundNum := 42 |})
    by (vm_compute; reflexivity).
  split; [exact Hround|]. eexists. split; [reflexivity|].
  refine (proj1 (persistentRoundInfo_then_getRoundInfo example2.SetExternalIds
                   example2.driver _ _ _ Hround eq_refl)).
  intros d ids d' [= <-]. reflexivity.
Defined.

(** With id 7 taken: a failed read, then 7 again, then 9. *)
Lemma GenerateControllerID_example :
  GenerateControllerID {[ "7" ]} [None; Some 7; Some 9] = Some (9, {[ "9"; "7" ]})
  ∧ "9" ∉ ({[ "7" ]} : gset string).
Proof.
  assert (Hrun : GenerateControllerID {[ "7" ]} [None; Some 7; Some 9]
                 = Some (9, {[ "9"; "7" ]})) by (vm_compute; reflexivity).
  split; [exact Hrun|].
  exact (proj1 (proj2 (proj2 (GenerateControllerID_is_fresh {[ "7" ]}
                                [None; Some 7; Some 9]) 9 _ Hrun))).
Defined.

(** Two controllers of one VDS: 7, then 7 drawn again and 9 taken. *)
Lemma GenerateControllerID_ids_differ_example :
  GenerateControllerID ∅ [Some 7] = Some (7, {[ "7" ]})
  ∧ GenerateControllerID {[ "7" ]} [Some 7; Some 9] = Some (9, {[ "9"; "7" ]})
  ∧ (7 : Z) ≠ 9.
Proof.
  assert (H1 : GenerateControllerID ∅ [Some 7] = Some (7, {[ "7" ]} ∪ ∅))
    by reflexivity.
  assert (H2 : GenerateControllerID ({[ "7" ]} ∪ ∅) [Some 7; Some 9]
               = Some (9, {[ "9" ]} ∪ ({[ "7" ]} ∪ ∅)))
    by (vm_compute; reflexivity).
  split; [vm_compute; reflexivity|]. split; [vm_compute; reflexivity|].
  exact (proj1 (GenerateControllerID_ids_differ _ _ _ _ _ _ _ _ H1
                  (reflexivity _) H2)).
Defined.

(** The whitelist of the internal IP 10.0.0.1 on the example manager. *)
Lemma addInternalRules_example :
  exists dp',
    addInternalRules example2.whitelistPriority example.manager ["10.0.0.1"] = Done dp'
    ∧ (RuleID <$> (EntryRule <$> Rules dp' !! "internal-ingress-10.0.0.1"))
      = Some "internal-ingress-10.0.0.1"
    ∧ (DstIPAddr <$> (EntryRule <$> Rules dp' !! "internal-ingress-10.0.0.1"))
      = Some "10.0.0.1"
    ∧ (SrcIPAddr <$> (EntryRule <$> Rules dp' !! "internal-egress-10.0.0.1"))
      = Some "10.0.0.1".
Proof.
  destruct (addInternalRules example2.whitelistPriority example.manager ["10.0.0.1"])
    as [dp'| |] eqn:Hrun; try (vm_compute in Hrun; discriminate).
  destruct (addInternalRules_registers_whitelist example2.whitelistPriority
              example.manager dp' ["10.0.0.1"]) as [Hrules _];
    [vm_compute; reflexivity | exact Hrun |].
  destruct (Hrules "10.0.0.1") as (Hin & Hout & _);
    [apply list_elem_of_singleton; reflexivity|].
  change ("internal-ingress-" ++ "10.0.0.1") with "internal-ingress-10.0.0.1" in Hin.
  change ("internal-egress-" ++ "10.0.0.1") with "internal-egress-10.0.0.1" in Hout.
  exists dp'. split; [reflexivity|].
  rewrite Hin, Hout. repeat split.
Defined.
